(** * stress-hammer: the load-generation core, embedded and verified

    A shallow embedding of [src/http-client.ts] (request executor,
    [ConcurrencySemaphore], [makeConcurrentRequests], the sequential path
    and the timing interceptors), of [src/stress-tester.ts] (configuration
    validation, the five pattern schedulers, the statistics aggregator,
    progress reports and logging), of [src/index.ts] ([stressTest], the
    presets, the utilities), of the option handling of [src/cli.ts] and of
    the CSV export and duration format of the reporter.

    Modelling conventions.
    - A JavaScript [number] that counts something (indices, concurrency,
      request totals, milliseconds of an integer pause, status codes) is a
      [Z]; every product and difference the code takes on them is exact on
      integers below 2^53.  A quotient the code keeps as a fraction
      ([stepDuration], averages, rates) is a [Q].
    - [Math.ceil (a / b)] on integers is [ceil_div a b]; the two products by
      a decimal constant that the code floors, [Math.floor (n * 0.8)] and
      [Math.floor (c * 0.3)], are the floors of the exact products
      [8n/10] and [3c/10]; the rank [Math.ceil ((p / 100) * len)] of a
      percentile is the ceiling of the exact [p * len / 100].  The section
      "Arithmetic conventions" checks these against binary64.
    - An optional field is an [option]; JavaScript truthiness ([x && ...],
      [x || d], [!x]) is written out by [truthy_num] and [truthy_str].
    - The transport (axios) is a parameter: the outcome of the request with
      a given index.  The order in which in-flight requests complete is a
      parameter too ([pick]), so that every statement about a run holds for
      every completion order.
    - Awaited pauses and phase dispatches are recorded in a trace of
      [Event]s next to the accumulated results.  Logging and the progress
      callback read the state and never change it; the schedulers are
      modelled without them, and [log] and [reportProgress] on their own.
    - The two clock readings of the interceptors ([performance.now ()],
      fractions of a millisecond) are [Q]s.
    - What the command line and the reporter take from their host
      ([parseInt], [trim], [toUpperCase], [new URL], [toISOString],
      [toFixed]) is a parameter of the functions that use it. *)

From Stdlib Require Import ZArith QArith Qround Lia Lqa.
From Corelib Require Import SpecFloat.
From stdpp Require Import base list list_numbers sorting gmap strings pretty.

Open Scope Z_scope.

(** ** JavaScript arithmetic and truthiness *)

(** [Math.ceil (a / b)] for integers [a] and [b], [b] not 0. *)
Definition ceil_div (a b : Z) : Z := - ((- a) / b).

(** [Math.floor (n * 0.8)]; see [floor_mul_0_8_binary64]. *)
Definition floor_mul_0_8 (n : Z) : Z := (n * 8) / 10.

(** [Math.floor (c * 0.3)]; see [floor_mul_0_3_binary64]. *)
Definition floor_mul_0_3 (c : Z) : Z := (c * 3) / 10.

(** Truthiness of an optional number: [undefined] and [0] are falsy. *)
Definition truthy_num (o : option Z) : bool :=
  match o with
  | Some n => negb (n =? 0)
  | None => false
  end.

(** Truthiness of an optional string: [undefined] and the empty string
    are falsy. *)
Definition truthy_str (o : option string) : bool :=
  match o with
  | Some s => negb (String.eqb s "")
  | None => false
  end.

(** [x || 0] on an optional number. *)
Definition or_zero (o : option Z) : Z := default 0 o.

(** ** types.ts *)

Inductive AttackPattern : Type :=
  | burst
  | sustained
  | ramp_up
  | wave
  | spike.

Record RampUpConfig : Type := {
  startConcurrency : Z;
  endConcurrency : Z;
  rampUpTime : Z;
  step : option Z
}.

(** [method], [headers] and [body] are handed to the transport unchanged
    and take no part in scheduling; the transport is a parameter here. *)
Record StressTestConfig : Type := {
  url : option string;
  concurrency : Z;
  totalRequests : Z;
  duration : option Z;
  delay : option Z;
  timeout : option Z;
  pattern : option AttackPattern;
  rampUp : option RampUpConfig
}.

Record RequestResult : Type := {
  index : Z;
  statusCode : option Z;
  responseTime : Z;
  error : option string;
  responseSize : option Z;
  timestamp : Z
}.

Record TestStats : Type := {
  st_totalRequests : Z;
  successfulRequests : Z;
  failedRequests : Z;
  successRate : Q;
  avgResponseTime : Q;
  minResponseTime : Z;
  maxResponseTime : Z;
  p50ResponseTime : Z;
  p95ResponseTime : Z;
  p99ResponseTime : Z;
  requestsPerSecond : Q;
  totalDataTransferred : Z;
  errorDistribution : gmap string Z;
  statusCodeDistribution : gmap Z Z
}.

Record StressTestResult : Type := {
  res_config : StressTestConfig;
  requests : list RequestResult;
  stats : TestStats;
  res_duration : Z;
  res_startTime : Z;
  res_endTime : Z
}.

(** ** http-client.ts: the request executor *)

(** What axios resolves with.  [resp_responseTime] is the field the response
    interceptor attaches; [resp_bytes] is [Buffer.byteLength] of the
    serialized headers and body, [None] when [JSON.stringify] throws. *)
Record AxiosResponse : Type := {
  status : Z;
  statusText : string;
  resp_responseTime : option Z;
  resp_bytes : option Z
}.

(** What axios rejects with. *)
Record AxiosError : Type := {
  code : option string;
  message : string;
  err_response : option AxiosResponse;
  err_responseTime : option Z
}.

(** The instance is created with [validateStatus: () => true], so every
    response, whatever its status, resolves. *)
Inductive Outcome : Type :=
  | Resolved (r : AxiosResponse)
  | Rejected (e : AxiosError).

Definition codeMessages (c : string) : option string :=
  if String.eqb c "ECONNREFUSED" then Some "Connection refused"
  else if String.eqb c "ENOTFOUND" then Some "Host not found"
  else if String.eqb c "ETIMEDOUT" then Some "Request timeout"
  else if String.eqb c "ECONNRESET" then Some "Connection reset"
  else if String.eqb c "ECONNABORTED" then Some "Connection aborted"
  else None.

Definition formatError (e : AxiosError) : string :=
  if truthy_str (code e) then
    let c := default "" (code e) in
    (* [codeMessages[error.code] || error.message]: every entry of the
       table is a non-empty string *)
    let m := default (message e) (codeMessages c) in
    c +:+ ": " +:+ m
  else
    match err_response e with
    | Some r => "HTTP " +:+ pretty (status r) +:+ ": " +:+ statusText r
    | None =>
        if truthy_str (Some (message e)) then message e
        else "Unknown network error"
    end.

Definition calculateResponseSize (r : AxiosResponse) : Z :=
  match resp_bytes r with
  | Some n => n
  | None => 0
  end.

(** [makeRequest index]: [ts] is the value of [Date.now()] on entry and
    [o] what the transport does with this request. *)
Definition makeRequest (ts : Z) (o : Outcome) (i : Z) : RequestResult :=
  match o with
  | Resolved r =>
      {| index := i;
         statusCode := Some (status r);
         responseTime := or_zero (resp_responseTime r);
         error := None;
         responseSize := Some (calculateResponseSize r);
         timestamp := ts |}
  | Rejected e =>
      {| index := i;
         statusCode := None;
         responseTime := or_zero (err_responseTime e);
         error := Some (formatError e);
         responseSize := None;
         timestamp := ts |}
  end.

(** ** http-client.ts: the semaphore *)

(** [waitQueue] holds the [resolve] callbacks of the suspended callers; a
    callback is identified with the caller it resumes. *)
Record ConcurrencySemaphore : Type := {
  permits : Z;
  waitQueue : list nat
}.

Definition new_semaphore (p : Z) : ConcurrencySemaphore :=
  {| permits := Z.max 1 p; waitQueue := [] |}.

(** [acquire] by caller [who]: the flag says whether the promise resolved
    at once. *)
Definition acquire (who : nat) (s : ConcurrencySemaphore)
  : ConcurrencySemaphore * bool :=
  if 0 <? permits s then
    ({| permits := permits s - 1; waitQueue := waitQueue s |}, true)
  else
    ({| permits := permits s; waitQueue := waitQueue s ++ [who] |}, false).

(** [release]: returns the caller whose [resolve] was called, if any. *)
Definition release (s : ConcurrencySemaphore)
  : ConcurrencySemaphore * option nat :=
  let p := permits s + 1 in
  match waitQueue s with
  | w :: rest => ({| permits := p - 1; waitQueue := rest |}, Some w)
  | [] => ({| permits := p; waitQueue := [] |}, None)
  end.

(** ** http-client.ts: one phase of concurrent requests *)

(** The surroundings of a run: what the transport answers to the request
    with a given index, the clock value when that request is issued, which
    of the in-flight requests of a phase completes next (a position in the
    list of in-flight tasks, taken modulo its length, for the phase that
    starts at a given index and its k-th completion), and the clock at the
    start and at the end of the run. *)
Record Env : Type := {
  send : Z -> Outcome;
  clock : Z -> Z;
  pick : Z -> nat -> nat;
  startTime : Z;
  endTime : Z
}.

(** The state of [makeConcurrentRequests] between two turns of the event
    loop: the semaphore, the tasks that are past [await semaphore.acquire()]
    and whose request is unresolved, and the [results] array. *)
Record Phase : Type := {
  sem : ConcurrencySemaphore;
  inflight : list nat;
  completed : list RequestResult
}.

Definition new_phase (conc : Z) : Phase :=
  {| sem := new_semaphore conc; inflight := []; completed := [] |}.

(** The i-th callback of [Array.from] runs up to its first suspension. *)
Definition start_task (ph : Phase) (i : nat) : Phase :=
  let '(s, now) := acquire i (sem ph) in
  {| sem := s;
     inflight := if now then inflight ph ++ [i] else inflight ph;
     completed := completed ph |}.

(** The request of the in-flight task at position [k] resolves: its result
    is pushed, and the [finally] block releases the permit, which may resume
    a suspended task. *)
Definition finish_task (env : Env) (startIndex : Z) (ph : Phase) (k : nat)
  : Phase :=
  let pos := (k mod length (inflight ph))%nat in
  match inflight ph !! pos with
  | None => ph
  | Some i =>
      let idx := startIndex + Z.of_nat i in
      let result := makeRequest (clock env idx) (send env idx) idx in
      let '(s, woken) := release (sem ph) in
      {| sem := s;
         inflight := delete pos (inflight ph) ++ option_list woken;
         completed := completed ph ++ [result] |}
  end.

(** The phase after the first [i] tasks were started and [j] requests
    completed. *)
Definition phase_state (env : Env) (startIndex : Z) (conc : Z) (i j : nat)
  : Phase :=
  foldl (fun ph k => finish_task env startIndex ph (pick env startIndex k))
        (foldl start_task (new_phase conc) (seq 0 i))
        (seq 0 j).

Definition by_index : relation RequestResult :=
  fun a b => index a <= index b.

Global Instance by_index_dec : RelDecision by_index :=
  fun a b => Z_le_dec (index a) (index b).

(** [Array.from] starts [count] tasks in index order, [Promise.all] waits
    for [count] completions, and the results are sorted by index. *)
Definition makeConcurrentRequests (env : Env) (startIndex count conc : Z)
  : list RequestResult :=
  let n := Z.to_nat count in
  merge_sort by_index (completed (phase_state env startIndex conc n n)).

(** The semaphore with the callers that hold a permit and the history of
    suspensions and resumptions, for stating its protocol. *)
Record SemGhost : Type := {
  g_sem : ConcurrencySemaphore;
  holders : list nat;
  suspended : list nat;
  resumed : list nat
}.

Definition sem_init (p : Z) : SemGhost :=
  {| g_sem := new_semaphore p; holders := []; suspended := []; resumed := [] |}.

Definition ghost_acquire (who : nat) (g : SemGhost) : SemGhost :=
  let '(s, now) := acquire who (g_sem g) in
  {| g_sem := s;
     holders := if now then holders g ++ [who] else holders g;
     suspended := if now then suspended g else suspended g ++ [who];
     resumed := resumed g |}.

Definition ghost_release (k : nat) (g : SemGhost) : SemGhost :=
  let '(s, woken) := release (g_sem g) in
  {| g_sem := s;
     holders := delete k (holders g) ++ option_list woken;
     suspended := suspended g;
     resumed := resumed g ++ option_list woken |}.

(** Any caller may call [acquire]; [release] is called by a caller that
    holds a permit (the [finally] block after its [acquire]). *)
Inductive sem_step : SemGhost -> SemGhost -> Prop :=
  | step_acquire who g :
      sem_step g (ghost_acquire who g)
  | step_release k who g :
      holders g !! k = Some who ->
      sem_step g (ghost_release k g).

Definition sem_reachable (p : Z) (g : SemGhost) : Prop :=
  rtc sem_step (sem_init p) g.

(** The semaphore and permit holders of a phase, without the histories. *)
Definition phase_view (ph : Phase) (g : SemGhost) : Prop :=
  g_sem g = sem ph /\ holders g = inflight ph.

(** ** stress-tester.ts: run state and validation *)

(** What a run does that an observer of the scheduler sees: a phase handed
    to [makeConcurrentRequests (startIndex, count, concurrency)], or an
    awaited [sleep (ms)]. *)
Inductive Event : Type :=
  | Dispatch (startIndex count conc : Z)
  | Sleep (ms : Q).

(** [this.results], and the events so far. *)
Record RunState : Type := {
  results : list RequestResult;
  trace : list Event
}.

Inductive Exec : Type :=
  | Done (st : RunState)
  | Threw (msg : string) (st : RunState)
  | OutOfFuel.

(** [initializeTest]. *)
Definition initializeTest : RunState := {| results := []; trace := [] |}.

(** [const r = await this.httpClient.makeConcurrentRequests (...);
    this.results.push (...r)]. *)
Definition run_phase (env : Env) (st : RunState) (startIndex count conc : Z)
  : RunState :=
  {| results := results st ++ makeConcurrentRequests env startIndex count conc;
     trace := trace st ++ [Dispatch startIndex count conc] |}.

(** [await this.sleep (ms)]. *)
Definition do_sleep (st : RunState) (ms : Q) : RunState :=
  {| results := results st; trace := trace st ++ [Sleep ms] |}.

(** [validateConfig]: the message of the error thrown, if any. *)
Definition validateConfig (config : StressTestConfig) : option string :=
  if negb (truthy_str (url config)) then
    Some "URL is required"
  else if concurrency config <=? 0 then
    Some "Concurrency must be greater than 0"
  else if totalRequests config <=? 0 then
    Some "Total requests must be greater than 0"
  else if truthy_num (timeout config) && (or_zero (timeout config) <=? 0) then
    Some "Timeout must be greater than 0"
  else None.

(** [validateRampUpConfig]: the message of the error thrown, if any. *)
Definition validateRampUpConfig (r : RampUpConfig) : option string :=
  if (startConcurrency r <=? 0) || (endConcurrency r <=? 0) then
    Some "Ramp-up concurrency values must be greater than 0"
  else if endConcurrency r <=? startConcurrency r then
    Some "End concurrency must be greater than start concurrency"
  else if rampUpTime r <=? 0 then
    Some "Ramp-up time must be greater than 0"
  else None.

(** The constructor: it throws what [validateConfig] throws. *)
Definition new_StressTester (config : StressTestConfig)
  : string + StressTestConfig :=
  match validateConfig config with
  | Some msg => inl msg
  | None => inr config
  end.

(** ** stress-tester.ts: the five pattern schedulers *)

(** One turn of the [for] loop of [executeSustainedPattern]. *)
Definition sustainedBatch (env : Env) (config : StressTestConfig)
  (batchSize batches : Z) (st : RunState) (batch : Z) : RunState :=
  let startIndex := batch * batchSize in
  let requestsInBatch :=
    Z.min batchSize (totalRequests config - startIndex) in
  let st1 :=
    run_phase env st startIndex requestsInBatch (concurrency config) in
  if truthy_num (delay config) && (batch <? batches - 1)
  then do_sleep st1 (inject_Z (or_zero (delay config)))
  else st1.

Definition executeSustainedPattern (env : Env) (config : StressTestConfig)
  (st : RunState) : RunState :=
  let batchSize := Z.min (concurrency config) (totalRequests config) in
  let batches := ceil_div (totalRequests config) batchSize in
  foldl (sustainedBatch env config batchSize batches) st (seqZ 0 batches).

Definition executeBurstPattern (env : Env) (config : StressTestConfig)
  (st : RunState) : RunState :=
  run_phase env st 0 (totalRequests config) (concurrency config).

(** [stepDuration = rampUpTime / Math.ceil ((end - start) / step)].  For
    [step = 0] JavaScript divides by [Infinity] and gets 0, which is also
    the value here.  For a negative step whose quotient rounds up to [-0]
    JavaScript gets [-Infinity], which [setTimeout] takes for no delay; the
    value here is 0. *)
Definition stepDuration (r : RampUpConfig) : Q :=
  let steps :=
    ceil_div (endConcurrency r - startConcurrency r) (default 1 (step r)) in
  (inject_Z (rampUpTime r) / inject_Z steps)%Q.

(** The [while] loop of [executeRampUpPattern]; [fuel] bounds the number of
    iterations, and [OutOfFuel] says the loop had not ended within it. *)
Fixpoint rampUpLoop (fuel : nat) (env : Env) (total endC stp : Z) (d : Q)
  (currentConcurrency requestIndex : Z) (st : RunState) : Exec :=
  match fuel with
  | O => OutOfFuel
  | S fuel' =>
      if (currentConcurrency <=? endC) && (requestIndex <? total) then
        let requestsToSend :=
          Z.min currentConcurrency (total - requestIndex) in
        let st1 :=
          run_phase env st requestIndex requestsToSend currentConcurrency in
        let requestIndex' := requestIndex + requestsToSend in
        if currentConcurrency <? endC then
          rampUpLoop fuel' env total endC stp d
            (Z.min (currentConcurrency + stp) endC) requestIndex'
            (do_sleep st1 d)
        else
          rampUpLoop fuel' env total endC stp d
            currentConcurrency requestIndex' st1
      else Done st
  end.

Definition executeRampUpPattern (fuel : nat) (env : Env)
  (config : StressTestConfig) (st : RunState) : Exec :=
  match rampUp config with
  | None => Threw "Ramp-up configuration is required for ramp-up pattern" st
  | Some r =>
      match validateRampUpConfig r with
      | Some msg => Threw msg st
      | None =>
          rampUpLoop fuel env (totalRequests config) (endConcurrency r)
            (default 1 (step r)) (stepDuration r)
            (startConcurrency r) 0 st
      end
  end.

Definition executeWavePattern (env : Env) (config : StressTestConfig)
  (st : RunState) : RunState :=
  let waveCount := 3 in
  let requestsPerWave := totalRequests config / waveCount in
  let waveDuration := 2000 in
  foldl
    (fun st wave =>
       let startIndex := wave * requestsPerWave in
       let requestsInWave :=
         if wave =? waveCount - 1 then totalRequests config - startIndex
         else requestsPerWave in
       let st1 :=
         run_phase env st startIndex requestsInWave (concurrency config) in
       if wave <? waveCount - 1 then do_sleep st1 (inject_Z waveDuration)
       else st1)
    st (seqZ 0 waveCount).

Definition executeSpikePattern (env : Env) (config : StressTestConfig)
  (st : RunState) : RunState :=
  let spikeRequests := floor_mul_0_8 (totalRequests config) in
  let normalRequests := totalRequests config - spikeRequests in
  let st1 :=
    if 0 <? normalRequests then
      run_phase env st 0 normalRequests (floor_mul_0_3 (concurrency config))
    else st in
  let st2 := do_sleep st1 (inject_Z 1000) in
  run_phase env st2 normalRequests spikeRequests (concurrency config).

Definition executePattern (fuel : nat) (env : Env)
  (config : StressTestConfig) (st : RunState) : Exec :=
  match default sustained (pattern config) with
  | burst => Done (executeBurstPattern env config st)
  | ramp_up => executeRampUpPattern fuel env config st
  | wave => Done (executeWavePattern env config st)
  | spike => Done (executeSpikePattern env config st)
  | sustained => Done (executeSustainedPattern env config st)
  end.

(** ** stress-tester.ts: the statistics aggregator *)

(** [r.statusCode && r.statusCode < 400]. *)
Definition is_successful (r : RequestResult) : bool :=
  truthy_num (statusCode r) && (or_zero (statusCode r) <? 400).

(** [!r.statusCode || r.statusCode >= 400 || r.error]. *)
Definition is_failed (r : RequestResult) : bool :=
  negb (truthy_num (statusCode r))
  || (400 <=? or_zero (statusCode r))
  || truthy_str (error r).

(** [results.filter (r => r.responseTime > 0).map (r => r.responseTime)
    .sort ((a, b) => a - b)]. *)
Definition sortedResponseTimes (rs : list RequestResult) : list Z :=
  merge_sort Z.le
    (map responseTime (List.filter (fun r => 0 <? responseTime r) rs)).

(** [calculatePercentile]: an array access out of range would be
    [undefined]; [percentile_in_range] shows there is none.  The rank is
    the exact one; see [percentile_rank_binary64] for the three
    percentiles the aggregator asks for. *)
Definition calculatePercentile (sortedArray : list Z) (percentile : Z) : Z :=
  let len := Z.of_nat (length sortedArray) in
  if len =? 0 then 0
  else
    let index := ceil_div (percentile * len) 100 - 1 in
    default 0 (sortedArray !! Z.to_nat (Z.max 0 (Z.min index (len - 1)))).

Definition calculateAverage (numbers : list Z) : Q :=
  let len := Z.of_nat (length numbers) in
  let sum := foldl Z.add 0 numbers in
  if 0 <? len then (inject_Z sum / inject_Z len)%Q else 0%Q.

Definition calculateErrorDistribution (failed : list RequestResult)
  : gmap string Z :=
  foldl
    (fun (distribution : gmap string Z) r =>
       let e := if truthy_str (error r) then default "" (error r)
                else "Unknown error" in
       <[e := or_zero (distribution !! e) + 1]> distribution)
    ∅ failed.

Definition calculateStatusCodeDistribution (rs : list RequestResult)
  : gmap Z Z :=
  foldl
    (fun (distribution : gmap Z Z) r =>
       if truthy_num (statusCode r) then
         let c := or_zero (statusCode r) in
         <[c := or_zero (distribution !! c) + 1]> distribution
       else distribution)
    ∅ rs.

Definition calculateStats (rs : list RequestResult) (startT endT : Z)
  : TestStats :=
  let successful := List.filter is_successful rs in
  let failed := List.filter is_failed rs in
  let responseTimes := sortedResponseTimes rs in
  let total := Z.of_nat (length rs) in
  let dur := endT - startT in
  {| st_totalRequests := total;
     successfulRequests := Z.of_nat (length successful);
     failedRequests := Z.of_nat (length failed);
     successRate :=
       if 0 <? total
       then (inject_Z (Z.of_nat (length successful)) / inject_Z total
             * inject_Z 100)%Q
       else 0%Q;
     avgResponseTime := calculateAverage responseTimes;
     minResponseTime := or_zero (responseTimes !! 0%nat);
     maxResponseTime :=
       or_zero
         (responseTimes !! Z.to_nat (Z.of_nat (length responseTimes) - 1));
     p50ResponseTime := calculatePercentile responseTimes 50;
     p95ResponseTime := calculatePercentile responseTimes 95;
     p99ResponseTime := calculatePercentile responseTimes 99;
     requestsPerSecond :=
       if 0 <? dur
       then (inject_Z total / inject_Z dur * inject_Z 1000)%Q
       else 0%Q;
     totalDataTransferred :=
       foldl (fun sum r => sum + or_zero (responseSize r)) 0 rs;
     errorDistribution := calculateErrorDistribution failed;
     statusCodeDistribution := calculateStatusCodeDistribution rs |}.

(** ** stress-tester.ts: the run *)

Definition finalizeTest (env : Env) (config : StressTestConfig)
  (st : RunState) : StressTestResult :=
  {| res_config := config;
     requests := results st;
     stats := calculateStats (results st) (startTime env) (endTime env);
     res_duration := endTime env - startTime env;
     res_startTime := startTime env;
     res_endTime := endTime env |}.

(** How a call ends: with the result and the events that led to it, with
    an error and the state it leaves behind, or not within the fuel. *)
Inductive RunOutcome : Type :=
  | Returned (r : StressTestResult) (tr : list Event)
  | Raised (msg : string) (st : RunState)
  | NoReturn.

(** [run ()] of a constructed tester. *)
Definition run (fuel : nat) (env : Env) (config : StressTestConfig)
  : RunOutcome :=
  match executePattern fuel env config initializeTest with
  | Done st => Returned (finalizeTest env config st) (trace st)
  | Threw msg st => Raised msg st
  | OutOfFuel => NoReturn
  end.

(** [new StressTester (config).run ()]: a tester that could not be
    constructed has the empty [results] of its field initializer. *)
Definition construct_and_run (fuel : nat) (env : Env)
  (config : StressTestConfig) : RunOutcome :=
  match new_StressTester config with
  | inl msg => Raised msg {| results := []; trace := [] |}
  | inr c => run fuel env c
  end.

(** The phases of a trace, and its pauses. *)
Definition dispatches (tr : list Event) : list (Z * Z * Z) :=
  omap (fun e => match e with
                 | Dispatch s n c => Some (s, n, c)
                 | Sleep _ => None
                 end) tr.

Definition pauses (tr : list Event) : list Q :=
  omap (fun e => match e with
                 | Dispatch _ _ _ => None
                 | Sleep ms => Some ms
                 end) tr.

(** ** The statements of the specification *)

(** The result of the request with index [i], as the executor builds it. *)
Definition result_of (env : Env) (i : Z) : RequestResult :=
  makeRequest (clock env i) (send env i) i.

(** The indices of a result sequence are exactly 0, ..., total - 1: none
    twice, none missing, none besides. *)
Definition exact_indices (total : Z) (rs : list RequestResult) : Prop :=
  NoDup (index <$> rs) /\ forall i, i ∈ (index <$> rs) <-> 0 <= i < total.

(** A result has exactly one of [statusCode] and [error]. *)
Definition one_outcome (r : RequestResult) : Prop :=
  (is_Some (statusCode r) /\ error r = None)
  \/ (statusCode r = None /\ is_Some (error r)).

(** The spike run as the specification words it: the 80% share first, at
    reduced concurrency, then the rest at full concurrency. *)
Definition spike_trace_as_stated (config : StressTestConfig) : list Event :=
  let big := floor_mul_0_8 (totalRequests config) in
  [ Dispatch 0 big (floor_mul_0_3 (concurrency config));
    Sleep (inject_Z 1000);
    Dispatch big (totalRequests config - big) (concurrency config) ].

(** The spike run as the scheduler does it: the share left over by the 80%
    first, at reduced concurrency, then the 80% at full concurrency. *)
Definition spike_trace (config : StressTestConfig) : list Event :=
  let big := floor_mul_0_8 (totalRequests config) in
  [ Dispatch 0 (totalRequests config - big)
             (floor_mul_0_3 (concurrency config));
    Sleep (inject_Z 1000);
    Dispatch (totalRequests config - big) big (concurrency config) ].

(** The plateaus of a ramp-up as the specification words them: the ramp
    ends once the plateau at [endC] has run, or when no request is left. *)
Fixpoint rampUp_plateaus_as_stated (fuel : nat) (total endC stp cur idx : Z)
  : list (Z * Z * Z) :=
  match fuel with
  | O => []
  | S fuel' =>
      if idx <? total then
        let n := Z.min cur (total - idx) in
        (idx, n, cur) ::
        (if cur <? endC
         then rampUp_plateaus_as_stated fuel' total endC stp
                (Z.min (cur + stp) endC) (idx + n)
         else [])
      else []
  end.

(** The ramp-up as the scheduler does it, from concurrency [cur] and next
    index [idx]: it ends when no request is left, and only then; below
    [endC] a plateau is followed by a pause [d] and a climb of [stp] capped
    at [endC]; at [endC] plateaus follow one another without a pause. *)
Inductive rampUp_schedule (total endC stp : Z) (d : Q)
  : Z -> Z -> list Event -> Prop :=
  | ramp_end cur idx :
      total <= idx ->
      rampUp_schedule total endC stp d cur idx []
  | ramp_climb cur idx tr :
      idx < total ->
      cur < endC ->
      rampUp_schedule total endC stp d
        (Z.min (cur + stp) endC) (idx + Z.min cur (total - idx)) tr ->
      rampUp_schedule total endC stp d cur idx
        (Dispatch idx (Z.min cur (total - idx)) cur :: Sleep d :: tr)
  | ramp_hold idx tr :
      idx < total ->
      rampUp_schedule total endC stp d
        endC (idx + Z.min endC (total - idx)) tr ->
      rampUp_schedule total endC stp d endC idx
        (Dispatch idx (Z.min endC (total - idx)) endC :: tr).

(** The sustained run from next index [idx]: phases of
    [min (conc, remaining)] requests, [pause] between two phases and none
    after the last. *)
Inductive sustained_schedule (conc total : Z) (pause : list Event)
  : Z -> list Event -> Prop :=
  | sustained_last idx :
      idx < total ->
      total - idx <= conc ->
      sustained_schedule conc total pause idx
        [Dispatch idx (Z.min conc (total - idx)) conc]
  | sustained_next idx tr :
      conc < total - idx ->
      sustained_schedule conc total pause
        (idx + Z.min conc (total - idx)) tr ->
      sustained_schedule conc total pause idx
        (Dispatch idx (Z.min conc (total - idx)) conc :: pause ++ tr).

(** The pause of a sustained run: [config.delay] when it is truthy. *)
Definition sustained_pause (config : StressTestConfig) : list Event :=
  if truthy_num (delay config)
  then [Sleep (inject_Z (or_zero (delay config)))]
  else [].

(** Validity as the specification words it. *)
Definition valid_as_stated (config : StressTestConfig) : Prop :=
  truthy_str (url config) = true
  /\ 0 < concurrency config
  /\ (0 < totalRequests config
      \/ exists d, duration config = Some d /\ 0 < d)
  /\ (exists t, timeout config = Some t /\ 0 < t)
  /\ (pattern config = Some ramp_up ->
      exists r, rampUp config = Some r
                /\ 0 < startConcurrency r
                /\ startConcurrency r < endConcurrency r
                /\ 0 < rampUpTime r).

(** Validity as the constructor and [run] check it, for a timeout that is
    not 0: [totalRequests] is required whatever [duration] is, and the
    timeout may be left out. *)
Definition valid_as_checked (config : StressTestConfig) : Prop :=
  truthy_str (url config) = true
  /\ 0 < concurrency config
  /\ 0 < totalRequests config
  /\ (forall t, timeout config = Some t -> 0 < t)
  /\ (pattern config = Some ramp_up ->
      exists r, rampUp config = Some r
                /\ 0 < startConcurrency r
                /\ startConcurrency r < endConcurrency r
                /\ 0 < rampUpTime r).

(** [x] clamped to [[lo, hi]]. *)
Definition clamp (lo hi x : Z) : Z :=
  if x <? lo then lo else if hi <? x then hi else x.

(** The nearest-rank index of percentile [p] in a sample of size [n]. *)
Definition nearest_rank_index (n p : Z) : Z :=
  clamp 0 (n - 1) (ceil_div (p * n) 100 - 1).

(** How many elements of a sample are at most [v]. *)
Definition count_le (v : Z) (l : list Z) : Z :=
  Z.of_nat (length (List.filter (fun x => x <=? v) l)).

(** ** Examples used below *)

Definition example_response : AxiosResponse :=
  {| status := 200; statusText := "OK";
     resp_responseTime := Some 12; resp_bytes := Some 100 |}.

Definition example_reset : AxiosError :=
  {| code := Some "ECONNRESET"; message := "socket hang up";
     err_response := None; err_responseTime := Some 3 |}.

(** Even indices are answered with 200, odd ones have the connection
    reset; completions are picked out of order. *)
Definition example_env : Env :=
  {| send := fun i => if Z.even i then Resolved example_response
                      else Rejected example_reset;
     clock := fun i => 1000 + i;
     pick := fun _ k => (k * 7 + 3)%nat;
     startTime := 1000;
     endTime := 2000 |}.

Definition example_rampUp : RampUpConfig :=
  {| startConcurrency := 10; endConcurrency := 100;
     rampUpTime := 9000; step := Some 10 |}.

Definition example_config (p : AttackPattern) (total conc : Z)
  : StressTestConfig :=
  {| url := Some "http://localhost:3000"; concurrency := conc;
     totalRequests := total; duration := None; delay := Some 5;
     timeout := Some 30000; pattern := Some p;
     rampUp := Some example_rampUp |}.

(** A configuration with a duration and no request total. *)
Definition example_duration_config : StressTestConfig :=
  {| url := Some "http://localhost:3000"; concurrency := 10;
     totalRequests := 0; duration := Some 60000; delay := None;
     timeout := Some 30000; pattern := Some burst; rampUp := None |}.

(** A ramp-up block with a negative step, which the validation lets
    through. *)
Definition example_falling_rampUp : RampUpConfig :=
  {| startConcurrency := 10; endConcurrency := 20;
     rampUpTime := 1000; step := Some (-5) |}.

Definition example_falling_config : StressTestConfig :=
  {| url := Some "http://localhost:3000"; concurrency := 10;
     totalRequests := 100; duration := None; delay := None;
     timeout := None; pattern := Some ramp_up;
     rampUp := Some example_falling_rampUp |}.

(** ** Invariants *)

(** The invariant of a semaphore created with [p] permits: the counter is
    never negative, counter and holders add up to [max (1, p)], nobody
    waits while a permit is free, and the callers still waiting are those
    suspended and not yet resumed, in the order of their suspension. *)
Definition sem_inv (p : Z) (g : SemGhost) : Prop :=
  0 <= permits (g_sem g)
  /\ permits (g_sem g) + Z.of_nat (length (holders g)) = Z.max 1 p
  /\ (waitQueue (g_sem g) <> [] -> permits (g_sem g) = 0)
  /\ suspended g = resumed g ++ waitQueue (g_sem g).

(** The invariant of a phase that starts at [startIndex] with concurrency
    [conc], after [i] tasks were started and [j] requests completed: every
    started task is completed, in flight or waiting, and the results are
    those of the completed tasks, in completion order. *)
Definition phase_inv (env : Env) (startIndex conc : Z) (i j : nat)
  (ph : Phase) : Prop :=
  exists finished : list nat,
    length finished = j
    /\ completed ph
       = (fun t => result_of env (startIndex + Z.of_nat t)) <$> finished
    /\ finished ++ inflight ph ++ waitQueue (sem ph) ≡ₚ seq 0 i
    /\ 0 <= permits (sem ph)
    /\ permits (sem ph) + Z.of_nat (length (inflight ph)) = Z.max 1 conc
    /\ (waitQueue (sem ph) <> [] -> permits (sem ph) = 0).

(** A configuration whose run comes to an end: a ramp-up needs its block
    and a step that is not negative ([step] is not validated, and the loop
    of a ramp with a falling concurrency does not end). *)
Definition schedulable (config : StressTestConfig) : Prop :=
  default sustained (pattern config) = ramp_up ->
  exists r, rampUp config = Some r
            /\ validateRampUpConfig r = None
            /\ 0 <= default 1 (step r).

(** ** IEEE 754 binary64, to check the arithmetic conventions

    JavaScript numbers are binary64 floats.  The definitions below evaluate,
    with the reference implementation of binary64 of the standard library,
    the four float computations whose result the schedulers and the
    aggregator round to an integer; the section "Arithmetic conventions"
    compares them with the integer expressions used in this file. *)

Definition b64_of_Z (n : Z) : spec_float := binary_normalize 53 1024 n 0 false.

Definition b64_mul : spec_float -> spec_float -> spec_float := SFmul 53 1024.

Definition b64_div : spec_float -> spec_float -> spec_float := SFdiv 53 1024.

(** [Math.floor] and [Math.ceil] of a finite float. *)
Definition b64_floor (f : spec_float) : option Z :=
  match f with
  | S754_zero _ => Some 0
  | S754_finite s m e =>
      let v := if s then Zneg m else Zpos m in
      Some (if 0 <=? e then v * 2 ^ e else v / 2 ^ (- e))
  | _ => None
  end.

Definition b64_ceil (f : spec_float) : option Z :=
  match f with
  | S754_zero _ => Some 0
  | S754_finite s m e =>
      let v := if s then Zneg m else Zpos m in
      Some (if 0 <=? e then v * 2 ^ e else ceil_div v (2 ^ (- e)))
  | _ => None
  end.

(** The literals [0.8] and [0.3]: the floats nearest to 8/10 and 3/10. *)
Definition b64_0_8 : spec_float := b64_div (b64_of_Z 8) (b64_of_Z 10).

Definition b64_0_3 : spec_float := b64_div (b64_of_Z 3) (b64_of_Z 10).

(** [Math.floor (n * 0.8)], [Math.floor (c * 0.3)],
    [Math.ceil ((percentile / 100) * len)] and [Math.ceil (a / b)] as
    JavaScript evaluates them. *)
Definition js_floor_mul_0_8 (n : Z) : option Z :=
  b64_floor (b64_mul (b64_of_Z n) b64_0_8).

Definition js_floor_mul_0_3 (c : Z) : option Z :=
  b64_floor (b64_mul (b64_of_Z c) b64_0_3).

Definition js_percentile_rank (percentile len : Z) : option Z :=
  b64_ceil (b64_mul (b64_div (b64_of_Z percentile) (b64_of_Z 100))
                    (b64_of_Z len)).

Definition js_ceil_quotient (a b : Z) : option Z :=
  b64_ceil (b64_div (b64_of_Z a) (b64_of_Z b)).

(** [f] agrees with [g] at every integer from 0 to [bound]. *)
Definition agree_upto (bound : Z) (f : Z -> option Z) (g : Z -> Z) : bool :=
  forallb (fun n => bool_decide (f n = Some (g n))) (seqZ 0 (bound + 1)).

(** ** Further statements about the schedulers and the aggregator *)

(** The wave run: three waves of [floor (total / 3)], the same, and what
    is left, 2000 apart. *)
Definition wave_trace (config : StressTestConfig) : list Event :=
  let w := totalRequests config / 3 in
  [ Dispatch 0 w (concurrency config); Sleep (inject_Z 2000);
    Dispatch w w (concurrency config); Sleep (inject_Z 2000);
    Dispatch (2 * w) (totalRequests config - 2 * w) (concurrency config) ].

(** Phases that follow one another without gap or overlap from index
    [idx] up to index [stop]. *)
Fixpoint phases_from (idx : Z) (ds : list (Z * Z * Z)) (stop : Z) : Prop :=
  match ds with
  | [] => idx = stop
  | (s, n, _) :: rest => s = idx /\ 0 <= n /\ phases_from (idx + n) rest stop
  end.

(** How many elements of a list satisfy a test. *)
Definition count_where {A : Type} (f : A -> bool) (l : list A) : Z :=
  Z.of_nat (length (List.filter f l)).

(** The key under which [calculateErrorDistribution] files a result:
    [r.error || "Unknown error"]. *)
Definition error_key (r : RequestResult) : string :=
  if truthy_str (error r) then default "" (error r) else "Unknown error".

(** ** stress-tester.ts: progress reports and logging *)

(** A JavaScript quotient that may be [Infinity]. *)
Inductive JsQuotient : Type :=
  | Finite (q : Q)
  | Infinity.

Record ProgressInfo : Type := {
  pi_completed : Z;
  pi_total : Z;
  pi_percentage : Q;
  pi_currentRps : JsQuotient;
  pi_avgResponseTime : Q;
  pi_errors : Z
}.

(** [r.error || (r.statusCode && r.statusCode >= 400)]. *)
Definition is_progress_error (r : RequestResult) : bool :=
  truthy_str (error r)
  || (truthy_num (statusCode r) && (400 <=? or_zero (statusCode r))).

(** [array.slice (-n)]: the last [n] elements. *)
Definition slice_last {A : Type} (n : nat) (l : list A) : list A :=
  drop (length l - n) l.

(** [reportProgress]: what the callback, when there is one, is called
    with; [rs] is [this.results], [total] is [config.totalRequests],
    [startT] is [this.startTime] and [now] the value of [Date.now ()]. *)
Definition reportProgress (onProgress : bool) (rs : list RequestResult)
  (total startT now : Z) : option ProgressInfo :=
  if negb onProgress then None
  else
    let completed := Z.of_nat (length rs) in
    let percentage :=
      if 0 <? total
      then (inject_Z completed / inject_Z total * inject_Z 100)%Q
      else 0%Q in
    let recentResults := slice_last 100 rs in
    let recent := Z.of_nat (length recentResults) in
    let currentRps :=
      if (0 <? recent) && (0 <? startT) then
        if now - startT =? 0 then Infinity
        else Finite (inject_Z recent
                     / (inject_Z (now - startT) / inject_Z 1000))%Q
      else Finite 0%Q in
    let recentSum :=
      foldl (fun sum r => sum + responseTime r) 0 recentResults in
    let avgResponseTime :=
      if 0 <? recent then (inject_Z recentSum / inject_Z recent)%Q
      else 0%Q in
    let errors := Z.of_nat (length (List.filter is_progress_error rs)) in
    Some {| pi_completed := completed;
            pi_total := total;
            pi_percentage := percentage;
            pi_currentRps := currentRps;
            pi_avgResponseTime := avgResponseTime;
            pi_errors := errors |}.

Inductive LogLevel : Type :=
  | lvl_debug
  | lvl_info
  | lvl_warn
  | lvl_error.

(** [levels = { debug: 0, info: 1, warn: 2, error: 3 }]. *)
Definition levels (l : LogLevel) : Z :=
  match l with
  | lvl_debug => 0
  | lvl_info => 1
  | lvl_warn => 2
  | lvl_error => 3
  end.

(** [level.toUpperCase ()]. *)
Definition level_name (l : LogLevel) : string :=
  match l with
  | lvl_debug => "DEBUG"
  | lvl_info => "INFO"
  | lvl_warn => "WARN"
  | lvl_error => "ERROR"
  end.

Definition is_debug (l : LogLevel) : bool :=
  match l with
  | lvl_debug => true
  | _ => false
  end.

(** [log (level, message)]: the line written to the console, if any;
    [verbose] and [logLevel] are the options of the tester and [timestamp]
    is [new Date ().toISOString ()]. *)
Definition log (verbose : bool) (logLevel : option LogLevel)
  (timestamp : string) (level : LogLevel) (message : string)
  : option string :=
  if negb verbose && is_debug level then None
  else if levels (default lvl_info logLevel) <=? levels level then
    Some ("[" +:+ timestamp +:+ "] [" +:+ level_name level +:+ "] "
          +:+ message)
  else None.

(** cli.ts, [buildTestOptions]: the [verbose] and [logLevel] options the
    command line gives a tester. *)
Definition buildTestOptions (verbose : bool) : bool * option LogLevel :=
  (verbose, Some (if verbose then lvl_debug else lvl_info)).

(** ** http-client.ts: the sequential path, timing, and the instance *)

(** What the sequential path does, as an observer sees it: a request with
    a given index, or an awaited [sleep (ms)]. *)
Inductive HttpEvent : Type :=
  | Requested (idx : Z)
  | Slept (ms : Z).

(** [makeRequestsWithDelay]: the results, and the events in their order. *)
Definition makeRequestsWithDelay (env : Env) (startIndex count delay : Z)
  : list RequestResult * list HttpEvent :=
  foldl
    (fun (acc : list RequestResult * list HttpEvent) i =>
       let result :=
         makeRequest (clock env (startIndex + i)) (send env (startIndex + i))
           (startIndex + i) in
       let results := fst acc ++ [result] in
       let events := snd acc ++ [Requested (startIndex + i)] in
       if (i <? count - 1) && (0 <? delay)
       then (results, events ++ [Slept delay])
       else (results, events))
    ([], []) (seqZ 0 count).

(** [createAxiosInstance]: the request timeout of the instance,
    [this.config.timeout || 30000]. *)
Definition axios_timeout (config : StressTestConfig) : Z :=
  if truthy_num (timeout config) then or_zero (timeout config) else 30000.

(** [Math.round]: to the nearest integer, a half going up. *)
Definition js_round (q : Q) : Z := Qfloor (q + (1 # 2))%Q.

(** The interceptors: [Math.round (endTime - startTime)] where
    [startTime] is [metadata?.startTime || endTime]; the two times are
    values of [performance.now ()], in milliseconds. *)
Definition measured_responseTime (startTime : option Q) (endTime : Q) : Z :=
  let start :=
    match startTime with
    | Some s => if Qeq_bool s 0 then endTime else s
    | None => endTime
    end in
  js_round (endTime - start)%Q.

(** A response as the response interceptor hands it on. *)
Definition timed_response (startTime : option Q) (endTime : Q)
  (r : AxiosResponse) : AxiosResponse :=
  {| status := status r;
     statusText := statusText r;
     resp_responseTime := Some (measured_responseTime startTime endTime);
     resp_bytes := resp_bytes r |}.

(** The requests of a trace of the sequential path, and its pauses. *)
Definition requested (evs : list HttpEvent) : list Z :=
  omap (fun e => match e with
                 | Requested i => Some i
                 | Slept _ => None
                 end) evs.

Definition slept (evs : list HttpEvent) : list Z :=
  omap (fun e => match e with
                 | Requested _ => None
                 | Slept ms => Some ms
                 end) evs.

(** An error as the error interceptor hands it on. *)
Definition timed_error (startTime : option Q) (endTime : Q)
  (e : AxiosError) : AxiosError :=
  {| code := code e;
     message := message e;
     err_response := err_response e;
     err_responseTime := Some (measured_responseTime startTime endTime) |}.

(** What [makeRequest] returns for a request started at [startTime] and
    settled at [endTime]. *)
Definition timed_outcome (startTime : option Q) (endTime : Q) (o : Outcome)
  : Outcome :=
  match o with
  | Resolved r => Resolved (timed_response startTime endTime r)
  | Rejected e => Rejected (timed_error startTime endTime e)
  end.

(** ** index.ts: the convenience function *)

(** [x || d] on an optional number. *)
Definition or_default (d : Z) (o : option Z) : Z :=
  if truthy_num o then or_zero o else d.

(** The options of [stressTest] that reach the scheduler; [method],
    [headers] and [body] go to the transport and [verbose] to the log. *)
Record QuickOptions : Type := {
  opt_concurrency : option Z;
  opt_totalRequests : option Z;
  opt_duration : option Z;
  opt_pattern : option AttackPattern;
  opt_timeout : option Z
}.

(** The configuration [stressTest] builds; a pattern name is a non-empty
    string, so [options.pattern || "sustained"] keeps a pattern given. *)
Definition stressTest_config (u : string) (options : QuickOptions)
  : StressTestConfig :=
  {| url := Some u;
     concurrency := or_default 10 (opt_concurrency options);
     totalRequests := or_default 100 (opt_totalRequests options);
     duration := opt_duration options;
     delay := None;
     timeout := Some (or_default 30000 (opt_timeout options));
     pattern := Some (default sustained (opt_pattern options));
     rampUp := None |}.

Definition stressTest (fuel : nat) (env : Env) (u : string)
  (options : QuickOptions) : RunOutcome :=
  construct_and_run fuel env (stressTest_config u options).

(** ** index.ts: the presets *)

Module AttackPresets.

Definition lightLoad (u : string) : StressTestConfig :=
  {| url := Some u; concurrency := 5; totalRequests := 50;
     duration := None; delay := None; timeout := Some 30000;
     pattern := Some sustained; rampUp := None |}.

Definition mediumLoad (u : string) : StressTestConfig :=
  {| url := Some u; concurrency := 20; totalRequests := 500;
     duration := None; delay := None; timeout := Some 30000;
     pattern := Some sustained; rampUp := None |}.

Definition heavyLoad (u : string) : StressTestConfig :=
  {| url := Some u; concurrency := 100; totalRequests := 2000;
     duration := None; delay := None; timeout := Some 30000;
     pattern := Some sustained; rampUp := None |}.

Definition ddosBurst (u : string) : StressTestConfig :=
  {| url := Some u; concurrency := 500; totalRequests := 5000;
     duration := None; delay := None; timeout := Some 5000;
     pattern := Some burst; rampUp := None |}.

Definition ddosSustained (u : string) : StressTestConfig :=
  {| url := Some u; concurrency := 200; totalRequests := 10000;
     duration := None; delay := None; timeout := Some 10000;
     pattern := Some sustained; rampUp := None |}.

Definition rampUpAttack (u : string) : StressTestConfig :=
  {| url := Some u; concurrency := 100; totalRequests := 1000;
     duration := None; delay := None; timeout := Some 30000;
     pattern := Some ramp_up;
     rampUp := Some {| startConcurrency := 10; endConcurrency := 100;
                       rampUpTime := 30000; step := Some 10 |} |}.

Definition waveAttack (u : string) : StressTestConfig :=
  {| url := Some u; concurrency := 150; totalRequests := 3000;
     duration := None; delay := None; timeout := Some 30000;
     pattern := Some wave; rampUp := None |}.

Definition spikeAttack (u : string) : StressTestConfig :=
  {| url := Some u; concurrency := 300; totalRequests := 2000;
     duration := None; delay := None; timeout := Some 30000;
     pattern := Some spike; rampUp := None |}.

(** The [method] argument goes to the transport. *)
Definition apiEndpointTest (u : string) : StressTestConfig :=
  {| url := Some u; concurrency := 50; totalRequests := 1000;
     duration := None; delay := None; timeout := Some 30000;
     pattern := Some sustained; rampUp := None |}.

Definition databaseStress (u : string) : StressTestConfig :=
  {| url := Some u; concurrency := 75; totalRequests := 1500;
     duration := None; delay := Some 100; timeout := Some 60000;
     pattern := Some sustained; rampUp := None |}.

Definition microserviceTest (u : string) : StressTestConfig :=
  {| url := Some u; concurrency := 30; totalRequests := 600;
     duration := None; delay := None; timeout := Some 15000;
     pattern := Some sustained; rampUp := None |}.

Definition cdnTest (u : string) : StressTestConfig :=
  {| url := Some u; concurrency := 200; totalRequests := 5000;
     duration := None; delay := None; timeout := Some 10000;
     pattern := Some burst; rampUp := None |}.

(** The twelve entries, in the order of the source. *)
Definition all : list (string * (string -> StressTestConfig)) :=
  [("lightLoad", lightLoad); ("mediumLoad", mediumLoad);
   ("heavyLoad", heavyLoad); ("ddosBurst", ddosBurst);
   ("ddosSustained", ddosSustained); ("rampUpAttack", rampUpAttack);
   ("waveAttack", waveAttack); ("spikeAttack", spikeAttack);
   ("apiEndpointTest", apiEndpointTest); ("databaseStress", databaseStress);
   ("microserviceTest", microserviceTest); ("cdnTest", cdnTest)].

End AttackPresets.

(** ** index.ts: the utilities *)

(** A [Partial<StressTestConfig>]: every field may be absent.  A field
    that is present holds a value of its type. *)
Record PartialConfig : Type := {
  p_url : option string;
  p_concurrency : option Z;
  p_totalRequests : option Z;
  p_duration : option Z;
  p_delay : option Z;
  p_timeout : option Z;
  p_pattern : option AttackPattern;
  p_rampUp : option RampUpConfig
}.

(** A configuration seen as a partial one. *)
Definition to_partial (c : StressTestConfig) : PartialConfig :=
  {| p_url := url c;
     p_concurrency := Some (concurrency c);
     p_totalRequests := Some (totalRequests c);
     p_duration := duration c;
     p_delay := delay c;
     p_timeout := timeout c;
     p_pattern := pattern c;
     p_rampUp := rampUp c |}.

(** [{...a, ...b}] on one field: the field of [b] when present. *)
Definition spread {A} (a b : option A) : option A :=
  match b with
  | Some x => Some x
  | None => a
  end.

(** [StressTestUtils.createConfig]: the four defaults, then the fields of
    [baseConfig], then those of [overrides]; the url is
    [overrides.url || baseConfig.url]. *)
Definition createConfig (baseConfig overrides : PartialConfig)
  : string + StressTestConfig :=
  if negb (truthy_str (p_url baseConfig))
     && negb (truthy_str (p_url overrides))
  then inl "URL is required in base config or overrides"
  else
    inr {| url := if truthy_str (p_url overrides) then p_url overrides
                  else p_url baseConfig;
           concurrency :=
             default 10
               (spread (p_concurrency baseConfig) (p_concurrency overrides));
           totalRequests :=
             default 100
               (spread (p_totalRequests baseConfig)
                  (p_totalRequests overrides));
           duration := spread (p_duration baseConfig) (p_duration overrides);
           delay := spread (p_delay baseConfig) (p_delay overrides);
           timeout :=
             Some (default 30000
                     (spread (p_timeout baseConfig) (p_timeout overrides)));
           pattern :=
             Some (default sustained
                     (spread (p_pattern baseConfig) (p_pattern overrides)));
           rampUp := spread (p_rampUp baseConfig) (p_rampUp overrides) |}.

(** The empty overrides, [{}]. *)
Definition no_overrides : PartialConfig :=
  {| p_url := None; p_concurrency := None; p_totalRequests := None;
     p_duration := None; p_delay := None; p_timeout := None;
     p_pattern := None; p_rampUp := None |}.

(** [StressTestUtils.validateConfig]: the list of messages.  [parses]
    says whether [new URL (s)] returns. *)
Definition utils_validateConfig (parses : string -> bool)
  (config : PartialConfig) : list string :=
  (if negb (truthy_str (p_url config)) then ["URL is required"]
   else if parses (default "" (p_url config)) then []
        else ["URL must be a valid URL"])
  ++ (match p_concurrency config with
      | Some c => if c <=? 0 then ["Concurrency must be greater than 0"]
                  else []
      | None => []
      end)
  ++ (match p_totalRequests config with
      | Some n => if n <=? 0 then ["Total requests must be greater than 0"]
                  else []
      | None => []
      end)
  ++ (match p_timeout config with
      | Some t => if t <=? 0 then ["Timeout must be greater than 0"] else []
      | None => []
      end)
  ++ (match p_delay config with
      | Some d => if d <? 0 then ["Delay cannot be negative"] else []
      | None => []
      end).

(** [StressTestUtils.runSequentialTests]: each configuration in turn is
    handed to a tester and run; the first tester that cannot be
    constructed, or whose run raises or does not return, ends the call.
    [envs k] is the surroundings of the test at position [k]; the state is
    the results so far and the pauses taken between tests. *)
Inductive SequenceOutcome : Type :=
  | AllReturned (rs : list StressTestResult) (waits : list Z)
  | SequenceRaised (msg : string) (rs : list StressTestResult)
  | SequenceNoReturn (rs : list StressTestResult).

Fixpoint runSequentialTests_from (fuel : nat) (envs : nat -> Env)
  (delayBetweenTests : option Z) (configs : list StressTestConfig)
  (rs : list StressTestResult) (waits : list Z) : SequenceOutcome :=
  match configs with
  | [] => AllReturned rs waits
  | config :: rest =>
      match construct_and_run fuel (envs (length rs)) config with
      | Returned r _ =>
          (* [delayBetweenTests && i < configs.length - 1] *)
          runSequentialTests_from fuel envs delayBetweenTests rest
            (rs ++ [r])
            (if truthy_num delayBetweenTests
                && negb (bool_decide (rest = []))
             then waits ++ [or_zero delayBetweenTests] else waits)
      | Raised msg _ => SequenceRaised msg rs
      | NoReturn => SequenceNoReturn rs
      end
  end.

Definition runSequentialTests (fuel : nat) (envs : nat -> Env)
  (delayBetweenTests : option Z) (configs : list StressTestConfig)
  : SequenceOutcome :=
  runSequentialTests_from fuel envs delayBetweenTests configs [] [].

(** ** cli.ts *)

(** What the command line leaves to its host: [parseInt (s, 10)] and
    [parseInt (s)] ([None] is [NaN]), [toUpperCase], [trim], and
    [parseBody], which answers with the message of the error when the body
    names a file that cannot be read. *)
Record Host : Type := {
  parseInt10 : string -> option Z;
  parseInt : string -> option Z;
  toUpperCase : string -> string;
  trim : string -> string;
  parseBody_error : string -> option string
}.

(** The options of the [test] command as commander hands them over. *)
Record CliOptions : Type := {
  cli_url : string;
  cli_method : string;
  cli_concurrency : string;
  cli_requests : string;
  cli_duration : option string;
  cli_pattern : string;
  cli_timeout : string;
  cli_header : list string;
  cli_body : option string;
  cli_delay : option string
}.

(** A computation that may throw: the message, or the value. *)
Definition bind_throw {A B} (x : string + A) (f : A -> string + B)
  : string + B :=
  match x with
  | inl msg => inl msg
  | inr a => f a
  end.

Notation "'let?' x := e 'in' rest" := (bind_throw e (fun x => rest))
  (at level 10, x name, e at level 100, rest at level 200, only parsing).

(** The double quote, as a string. *)
Definition dquote : string := String (Ascii.ascii_of_nat 34) EmptyString.

Definition parsePositiveInteger (h : Host) (value fieldName : string)
  : string + Z :=
  match parseInt10 h value with
  | Some parsed =>
      if parsed <=? 0
      then inl (fieldName +:+ " must be a positive integer, got: " +:+ value)
      else inr parsed
  | None => inl (fieldName +:+ " must be a positive integer, got: " +:+ value)
  end.

Definition validateHttpMethod (method : string) : string + string :=
  if bool_decide (method ∈ ["GET"; "POST"; "PUT"; "DELETE"; "PATCH"])
  then inr method
  else inl ("Invalid HTTP method: " +:+ method
            +:+ ". Valid methods: GET, POST, PUT, DELETE, PATCH").

Definition validateAttackPattern (p : string) : string + AttackPattern :=
  if String.eqb p "burst" then inr burst
  else if String.eqb p "sustained" then inr sustained
  else if String.eqb p "ramp-up" then inr ramp_up
  else if String.eqb p "wave" then inr wave
  else if String.eqb p "spike" then inr spike
  else inl ("Invalid attack pattern: " +:+ p
            +:+ ". Valid patterns: burst, sustained, ramp-up, wave, spike").

(** [s.indexOf (":")] with the two [substring]s of [parseHeaders]: the
    text before the first colon and the text after it; [None] when there
    is no colon. *)
Fixpoint split_colon (s : string) : option (string * string) :=
  match s with
  | EmptyString => None
  | String c rest =>
      if Ascii.eqb c (Ascii.ascii_of_nat 58) then Some (EmptyString, rest)
      else match split_colon rest with
           | Some (k, v) => Some (String c k, v)
           | None => None
           end
  end.

(** [headers[key] = value] on an object literal: the key [__proto__] is
    the accessor of the prototype, whose setter ignores a string, so that
    the assignment leaves the object as it is. *)
Definition set_header (headers : gmap string string) (key value : string)
  : gmap string string :=
  if String.eqb key "__proto__" then headers else <[key := value]> headers.

Fixpoint parseHeaders_from (h : Host) (headerStrings : list string)
  (headers : gmap string string) : string + gmap string string :=
  match headerStrings with
  | [] => inr headers
  | headerString :: rest =>
      match split_colon headerString with
      | None =>
          inl ("Invalid header format: " +:+ headerString +:+ ". Use "
               +:+ dquote +:+ "Key: Value" +:+ dquote +:+ " format.")
      | Some (k, v) =>
          let key := trim h k in
          let value := trim h v in
          if negb (truthy_str (Some key)) || negb (truthy_str (Some value))
          then inl ("Invalid header format: " +:+ headerString
                    +:+ ". Both key and value are required.")
          else parseHeaders_from h rest (set_header headers key value)
      end
  end.

Definition parseHeaders (h : Host) (headerStrings : list string)
  : string + gmap string string :=
  parseHeaders_from h headerStrings ∅.

(** [buildConfigFromOptions]: the fields of the object literal are
    evaluated in the order written, then the three optional fields. *)
Definition buildConfigFromOptions (h : Host) (options : CliOptions)
  : string + StressTestConfig :=
  let? _ := validateHttpMethod (toUpperCase h (cli_method options)) in
  let? c := parsePositiveInteger h (cli_concurrency options) "concurrency" in
  let? n := parsePositiveInteger h (cli_requests options) "requests" in
  let? p := validateAttackPattern (cli_pattern options) in
  let? t := parsePositiveInteger h (cli_timeout options) "timeout" in
  let? _ := parseHeaders h (cli_header options) in
  let? d := (if truthy_str (cli_duration options)
             then let? x := parsePositiveInteger h
                              (default "" (cli_duration options))
                              "duration" in
                  inr (Some (x * 1000))
             else inr None) in
  let dl :=
    if truthy_str (cli_delay options)
    then match parseInt h (default "" (cli_delay options)) with
         | Some x => if 0 <? x then Some x else None
         | None => None
         end
    else None in
  let? _ := (if truthy_str (cli_body options)
           then match parseBody_error h (default "" (cli_body options)) with
                | Some msg => inl msg
                | None => inr tt
                end
           else inr tt) in
  inr {| url := Some (cli_url options);
         concurrency := c;
         totalRequests := n;
         duration := d;
         delay := dl;
         timeout := Some t;
         pattern := Some p;
         rampUp := None |}.

(** [getPresetMap]: the eight names of the [preset] command. *)
Definition getPresetMap : list (string * (string -> StressTestConfig)) :=
  [("light", AttackPresets.lightLoad);
   ("medium", AttackPresets.mediumLoad);
   ("heavy", AttackPresets.heavyLoad);
   ("ddos-burst", AttackPresets.ddosBurst);
   ("ddos-sustained", AttackPresets.ddosSustained);
   ("ramp-up", AttackPresets.rampUpAttack);
   ("wave", AttackPresets.waveAttack);
   ("spike", AttackPresets.spikeAttack)].

(** [handleTestCompletion]: the exit code, when the process is ended. *)
Definition handleTestCompletion (result : StressTestResult) : option Z :=
  if Qlt_le_dec (successRate (stats result)) (inject_Z 50) then Some 1
  else None.

(** A host for the examples: the integer a string of decimal digits
    reads as, and the identity for the rest. *)
Fixpoint decimal_digits (acc : Z) (s : string) : option Z :=
  match s with
  | EmptyString => Some acc
  | String c rest =>
      let n := Z.of_nat (Ascii.nat_of_ascii c) in
      if (48 <=? n) && (n <=? 57)
      then decimal_digits (acc * 10 + (n - 48)) rest
      else None
  end.

Definition example_host : Host :=
  {| parseInt10 := fun s => if String.eqb s "" then None
                            else decimal_digits 0 s;
     parseInt := fun s => if String.eqb s "" then None
                          else decimal_digits 0 s;
     toUpperCase := fun s => s;
     trim := fun s => s;
     parseBody_error := fun _ => None |}.

Definition example_options (p : string) : CliOptions :=
  {| cli_url := "http://localhost:3000"; cli_method := "GET";
     cli_concurrency := "10"; cli_requests := "100";
     cli_duration := None; cli_pattern := p; cli_timeout := "30000";
     cli_header := ["Accept: text/html"]; cli_body := None;
     cli_delay := Some "0" |}.

(** One header that [parseHeaders] takes: it has a colon, and the text
    before the first colon and the text after it are not empty once
    trimmed. *)
Definition header_ok (h : Host) (s : string) (key value : string) : Prop :=
  exists k v,
    split_colon s = Some (k, v)
    /\ key = trim h k /\ value = trim h v
    /\ key <> "" /\ value <> "".

(** ** reporter.ts *)

Definition dquote_char : Ascii.ascii := Ascii.ascii_of_nat 34.

(** [escapeCsvField]: every double quote is doubled. *)
Fixpoint escapeCsvField (field : string) : string :=
  match field with
  | EmptyString => EmptyString
  | String c rest =>
      if Ascii.eqb c dquote_char
      then String c (String c (escapeCsvField rest))
      else String c (escapeCsvField rest)
  end.

(** The cells of the row of one request; [toISOString] is the text of
    [new Date (timestamp).toISOString ()]. *)
Definition csv_row (toISOString : Z -> string) (req : RequestResult)
  : list string :=
  [ pretty (index req);
    toISOString (timestamp req);
    (* [req.statusCode?.toString () || ""] *)
    match statusCode req with
    | Some c => pretty c
    | None => ""
    end;
    pretty (responseTime req);
    match responseSize req with
    | Some n => pretty n
    | None => ""
    end;
    escapeCsvField
      (if truthy_str (error req) then default "" (error req) else "") ].

(** [row.map ((cell) => `"${cell}"`).join (",")]. *)
Definition csv_line (row : list string) : string :=
  String.concat "," ((fun cell => dquote +:+ cell +:+ dquote) <$> row).

Definition csv_headers : list string :=
  ["Index"; "Timestamp"; "Status Code"; "Response Time (ms)";
   "Response Size (bytes)"; "Error"].

Definition newline : string := String (Ascii.ascii_of_nat 10) EmptyString.

Definition exportToCsv (toISOString : Z -> string)
  (result : StressTestResult) : string :=
  String.concat newline
    (String.concat "," csv_headers
     :: (csv_line <$> (csv_row toISOString <$> requests result))).

(** A reader of one line of quoted cells, to read a row back: a cell
    starts with a double quote and runs to the next double quote that is
    not doubled; a doubled one stands for one double quote; cells are
    separated by a comma. *)
Inductive CsvState : Type :=
  | CellStart
  | InCell
  | QuoteSeen.

Fixpoint read_cells (st : CsvState) (cur : string) (cells : list string)
  (s : string) : option (list string) :=
  match s with
  | EmptyString =>
      match st with
      | QuoteSeen => Some (cells ++ [cur])
      | _ => None
      end
  | String c rest =>
      match st with
      | CellStart =>
          if Ascii.eqb c dquote_char then read_cells InCell "" cells rest
          else None
      | InCell =>
          if Ascii.eqb c dquote_char then read_cells QuoteSeen cur cells rest
          else read_cells InCell (cur +:+ String c "") cells rest
      | QuoteSeen =>
          if Ascii.eqb c dquote_char
          then read_cells InCell (cur +:+ dquote) cells rest
          else if Ascii.eqb c (Ascii.ascii_of_nat 44)
               then read_cells CellStart "" (cells ++ [cur]) rest
               else None
      end
  end.

Definition read_line (s : string) : option (list string) :=
  read_cells CellStart "" [] s.

(** A text without a double quote. *)
Fixpoint quote_free (s : string) : Prop :=
  match s with
  | EmptyString => True
  | String c rest => c <> dquote_char /\ quote_free rest
  end.

(** [formatDuration]; [toFixed1] is the text of [(x).toFixed (1)]. *)
Definition formatDuration (toFixed1 : Q -> string) (ms : Z) : string :=
  if ms <? 1000 then pretty ms +:+ "ms"
  else if ms <? 60000 then toFixed1 (inject_Z ms / inject_Z 1000)%Q +:+ "s"
  else if ms <? 3600000 then
    let minutes := ms / 60000 in
    let seconds := (ms mod 60000) / 1000 in
    pretty minutes +:+ "m " +:+ pretty seconds +:+ "s"
  else
    let hours := ms / 3600000 in
    let minutes := (ms mod 3600000) / 60000 in
    let seconds := (ms mod 60000) / 1000 in
    pretty hours +:+ "h " +:+ pretty minutes +:+ "m " +:+ pretty seconds
    +:+ "s".

(** ** The precedence of [createConfig], for stating it

    The value of a field after the merge: the one of [overrides] when it
    is present, else the one of [baseConfig] when it is present, else the
    default; for a field without default, else absent. *)
Definition field_from {A : Type} (v : A) (overrides baseConfig : option A)
  (d : A) : Prop :=
  (forall x, overrides = Some x -> v = x)
  /\ (overrides = None -> forall x, baseConfig = Some x -> v = x)
  /\ (overrides = None -> baseConfig = None -> v = d).

Definition optional_field_from {A : Type} (v : option A)
  (overrides baseConfig : option A) : Prop :=
  (forall x, overrides = Some x -> v = Some x)
  /\ (overrides = None -> v = baseConfig).

(** * Verification *)

(** ** Arithmetic *)

Lemma ceil_div_bounds (a b : Z) :
  0 < b -> (ceil_div a b - 1) * b < a <= ceil_div a b * b.
Proof.
  intros Hb. unfold ceil_div.
  pose proof (Z.div_mod (- a) b ltac:(lia)) as Hdm.
  pose proof (Z.mod_pos_bound (- a) b Hb) as Hm.
  nia.
Qed.

Lemma ceil_div_unique (a b q : Z) :
  0 < b -> (q - 1) * b < a <= q * b -> ceil_div a b = q.
Proof.
  intros Hb Hq. pose proof (ceil_div_bounds a b Hb) as Hc. nia.
Qed.

Lemma ceil_div_mono (a a' b : Z) :
  0 < b -> a <= a' -> ceil_div a b <= ceil_div a' b.
Proof.
  intros Hb Ha. unfold ceil_div.
  assert (- a' / b <= - a / b) by (apply Z.div_le_mono; lia). lia.
Qed.

Lemma ceil_div_pos (a b : Z) : 0 < b -> 0 < a -> 0 < ceil_div a b.
Proof.
  intros Hb Ha. pose proof (ceil_div_bounds a b Hb) as Hc. nia.
Qed.

Lemma floor_mul_0_8_bounds (n : Z) :
  0 < n -> 0 <= floor_mul_0_8 n < n.
Proof.
  intros Hn. unfold floor_mul_0_8. split.
  - apply Z.div_pos; lia.
  - apply Z.div_lt_upper_bound; lia.
Qed.

Lemma clamp_max_min (n x : Z) :
  1 <= n -> Z.max 0 (Z.min x (n - 1)) = clamp 0 (n - 1) x.
Proof.
  intros Hn. unfold clamp.
  destruct (Z.ltb_spec x 0); [lia |].
  destruct (Z.ltb_spec (n - 1) x); lia.
Qed.

Lemma seqZ_split (m n k : Z) :
  0 <= k -> seqZ m n = seqZ m (Z.min k n) ++ seqZ (m + k) (n - k).
Proof.
  intros Hk. destruct (Z.le_gt_cases k n) as [Hle | Hgt].
  - rewrite Z.min_l by lia.
    replace n with (k + (n - k)) at 1 by lia.
    apply seqZ_app; lia.
  - rewrite Z.min_r by lia.
    rewrite (seqZ_nil (m + k)) by lia. by rewrite app_nil_r.
Qed.

(** ** The request executor *)

Lemma makeRequest_index ts o i : index (makeRequest ts o i) = i.
Proof. by destruct o. Qed.

Lemma result_of_index env i : index (result_of env i) = i.
Proof. apply makeRequest_index. Qed.

Lemma makeRequest_one_outcome ts o i : one_outcome (makeRequest ts o i).
Proof.
  destruct o; [left | right]; simpl; eauto.
Qed.

Lemma formatError_with_code (e : AxiosError) (c : string) :
  code e = Some c -> c <> "" ->
  formatError e = c +:+ ": " +:+ default (message e) (codeMessages c).
Proof.
  intros Hc Hne. unfold formatError. rewrite Hc. simpl.
  destruct (String.eqb_spec c ""); [done | reflexivity].
Qed.

(** ** Success and failure partition a result *)

Lemma failed_not_successful (r : RequestResult) :
  one_outcome r -> is_failed r = negb (is_successful r).
Proof.
  unfold one_outcome, is_failed, is_successful.
  intros [[[c Hc] He] | [Hc [e He]]]; rewrite Hc, He; simpl.
  - destruct (Z.eqb_spec c 0), (Z.ltb_spec c 400), (Z.leb_spec 400 c);
      simpl; try reflexivity; lia.
  - reflexivity.
Qed.

Lemma filter_partition_length {A} (f g : A -> bool) (l : list A) :
  Forall (fun x => g x = negb (f x)) l ->
  (length (List.filter f l) + length (List.filter g l))%nat = length l.
Proof.
  induction 1 as [| x l Hx _ IH]; [done |].
  simpl. rewrite Hx. destruct (f x); simpl; lia.
Qed.

(** ** The semaphore *)

Section Semaphore.

Variable p : Z.

Lemma sem_inv_init : sem_inv p (sem_init p).
Proof.
  unfold sem_inv, sem_init, new_semaphore; simpl.
  repeat split; try lia; done.
Qed.

Lemma sem_inv_acquire (who : nat) (g : SemGhost) :
  sem_inv p g -> sem_inv p (ghost_acquire who g).
Proof.
  intros (Hnn & Hsum & Hq & Hlog).
  unfold sem_inv, ghost_acquire, acquire.
  destruct (Z.ltb_spec 0 (permits (g_sem g))) as [Hfree | Hnone]; simpl.
  - repeat split; [lia | rewrite length_app; simpl; lia | | done].
    intros Hne. specialize (Hq Hne). lia.
  - repeat split; [lia | lia | lia |].
    rewrite Hlog. by rewrite app_assoc.
Qed.

Lemma sem_inv_release (k who : nat) (g : SemGhost) :
  holders g !! k = Some who ->
  sem_inv p g -> sem_inv p (ghost_release k g).
Proof.
  intros Hk (Hnn & Hsum & Hq & Hlog).
  assert (Hlen : length (delete k (holders g)) = (length (holders g) - 1)%nat)
    by (apply length_delete; eauto).
  assert (Hpos : (0 < length (holders g))%nat)
    by (apply lookup_lt_Some in Hk; lia).
  unfold sem_inv, ghost_release, release.
  destruct (waitQueue (g_sem g)) as [| w rest] eqn:Hqueue; simpl.
  - rewrite !app_nil_r. rewrite app_nil_r in Hlog.
    repeat split; [lia | lia | done | done].
  - assert (Hzero : permits (g_sem g) = 0) by (apply Hq; done).
    rewrite length_app; simpl.
    repeat split; [lia | lia | lia |].
    rewrite Hlog. by rewrite <- app_assoc.
Qed.

Lemma sem_inv_step (g g' : SemGhost) :
  sem_inv p g -> sem_step g g' -> sem_inv p g'.
Proof.
  intros Hinv Hstep. destruct Hstep as [who g | k who g Hk].
  - by apply sem_inv_acquire.
  - by eapply sem_inv_release.
Qed.

Lemma sem_reachable_inv (g : SemGhost) :
  sem_reachable p g -> sem_inv p g.
Proof.
  unfold sem_reachable. intros Hreach.
  eapply (rtc_ind_r (fun g => sem_inv p g)); [| | exact Hreach].
  - apply sem_inv_init.
  - intros y z _ Hstep IH. by eapply sem_inv_step.
Qed.

End Semaphore.

(** ** One phase of concurrent requests *)

Section Phase.

Variables (env : Env) (startIndex conc : Z).

Lemma phase_inv_new :
  phase_inv env startIndex conc 0 0 (new_phase conc).
Proof.
  exists []. unfold new_phase, new_semaphore; simpl.
  repeat split; try done; lia.
Qed.

Lemma phase_inv_start (i j : nat) (ph : Phase) :
  phase_inv env startIndex conc i j ph ->
  phase_inv env startIndex conc (S i) j (start_task ph i).
Proof.
  intros (fin & Hlen & Hres & Hperm & Hnn & Hsum & Hq).
  exists fin. unfold start_task, acquire.
  rewrite seq_S; simpl.
  destruct (Z.ltb_spec 0 (permits (sem ph))) as [Hfree | Hnone]; simpl.
  - repeat split; [done | done | | lia | rewrite length_app; simpl; lia |].
    + rewrite <- Hperm. rewrite <- !app_assoc.
      apply Permutation_app_head, Permutation_app_head.
      simpl. apply Permutation_cons_append.
    + intros Hne. specialize (Hq Hne). lia.
  - repeat split; [done | done | | lia | lia | lia].
    rewrite <- Hperm. by rewrite !app_assoc.
Qed.

Lemma phase_inv_busy (i j : nat) (ph : Phase) :
  phase_inv env startIndex conc i j ph ->
  (j < i)%nat -> inflight ph <> [].
Proof.
  intros (fin & Hlen & _ & Hperm & Hnn & Hsum & Hq) Hlt Hnil.
  apply Permutation_length in Hperm.
  rewrite !length_app, length_seq, Hnil in Hperm. simpl in Hperm.
  destruct (waitQueue (sem ph)) as [| w rest] eqn:Hqueue.
  - simpl in Hperm. lia.
  - rewrite Hnil in Hsum. simpl in Hsum.
    assert (permits (sem ph) = 0) by (apply Hq; done). lia.
Qed.

Lemma phase_inv_finish (i j k : nat) (ph : Phase) :
  phase_inv env startIndex conc i j ph ->
  (j < i)%nat ->
  phase_inv env startIndex conc i (S j) (finish_task env startIndex ph k).
Proof.
  intros Hinv Hlt.
  pose proof (phase_inv_busy _ _ _ Hinv Hlt) as Hbusy.
  destruct Hinv as (fin & Hlen & Hres & Hperm & Hnn & Hsum & Hq).
  assert (Hpos : (k mod length (inflight ph) < length (inflight ph))%nat).
  { apply Nat.mod_upper_bound. by destruct (inflight ph). }
  destruct (lookup_lt_is_Some_2 _ _ Hpos) as [t Ht].
  unfold finish_task. rewrite Ht.
  assert (Hdel : length (delete (k mod length (inflight ph))%nat (inflight ph))
                 = (length (inflight ph) - 1)%nat)
    by (apply length_delete; eauto).
  pose proof (delete_Permutation _ _ _ Ht) as Hdp.
  exists (fin ++ [t]). unfold release.
  destruct (waitQueue (sem ph)) as [| w rest] eqn:Hqueue; simpl.
  - rewrite !app_nil_r.
    repeat split;
      [rewrite length_app; simpl; lia | by rewrite Hres, fmap_app
      | | lia | lia | done].
    rewrite <- Hperm, app_nil_r, <- app_assoc. simpl.
    apply Permutation_app_head. by symmetry.
  - assert (Hzero : permits (sem ph) = 0) by (apply Hq; done).
    repeat split;
      [rewrite length_app; simpl; lia | by rewrite Hres, fmap_app
      | | lia | rewrite length_app; simpl; lia | lia].
    rewrite <- Hperm, <- !app_assoc. simpl.
    apply Permutation_app_head.
    rewrite app_comm_cons. apply Permutation_app_tail. by symmetry.
Qed.

Lemma phase_state_S_start (i : nat) :
  phase_state env startIndex conc (S i) 0
  = start_task (phase_state env startIndex conc i 0) i.
Proof.
  unfold phase_state. rewrite seq_S, foldl_snoc. reflexivity.
Qed.

Lemma phase_state_S_finish (i j : nat) :
  phase_state env startIndex conc i (S j)
  = finish_task env startIndex (phase_state env startIndex conc i j)
      (pick env startIndex j).
Proof.
  unfold phase_state. by rewrite seq_S, foldl_snoc.
Qed.

Lemma phase_state_inv (i j : nat) :
  (j <= i)%nat ->
  phase_inv env startIndex conc i j (phase_state env startIndex conc i j).
Proof.
  induction j as [| j IHj].
  - intros _. induction i as [| i IHi].
    + apply phase_inv_new.
    + rewrite phase_state_S_start. by apply phase_inv_start.
  - intros Hle. rewrite phase_state_S_finish.
    apply phase_inv_finish; [apply IHj |]; lia.
Qed.

End Phase.

(** ** Sorting results by index *)

Global Instance by_index_trans : Transitive by_index.
Proof. unfold by_index. intros x y z Hxy Hyz. lia. Qed.

Global Instance by_index_total : Total by_index.
Proof. unfold by_index. intros x y. lia. Qed.

Lemma seqZ_to_nat (m n : Z) : seqZ m n = seqZ m (Z.of_nat (Z.to_nat n)).
Proof. unfold seqZ. by rewrite Nat2Z.id. Qed.

Lemma StronglySorted_seqZ (m n : Z) : StronglySorted Z.le (seqZ m n).
Proof.
  rewrite seqZ_to_nat. generalize (Z.to_nat n) as k. clear n.
  intros k. revert m. induction k as [| k IH]; intros m.
  - constructor.
  - rewrite seqZ_cons by lia. constructor.
    + replace (Z.pred (Z.of_nat (S k))) with (Z.of_nat k) by lia. apply IH.
    + apply Forall_seqZ. intros m' Hm'. lia.
Qed.

Lemma index_result_of_seqZ env (m n : Z) :
  index <$> (result_of env <$> seqZ m n) = seqZ m n.
Proof.
  rewrite <- list_fmap_compose.
  rewrite <- (list_fmap_id (seqZ m n)) at 2.
  apply list_fmap_ext. intros i x _. apply result_of_index.
Qed.

Lemma StronglySorted_result_of env (m n : Z) :
  StronglySorted by_index (result_of env <$> seqZ m n).
Proof.
  apply (StronglySorted_fmap _ Z.le); [| apply StronglySorted_seqZ].
  intros x y Hxy. unfold by_index. by rewrite !result_of_index.
Qed.

(** Two index-sorted arrangements of the same results, no index twice,
    are the same list: the sort of a phase has one possible outcome. *)
Lemma sorted_by_index_unique (l1 l2 : list RequestResult) :
  NoDup (index <$> l1) ->
  StronglySorted by_index l1 ->
  StronglySorted by_index l2 ->
  l1 ≡ₚ l2 ->
  l1 = l2.
Proof.
  revert l2. induction l1 as [| x l1 IH]; intros l2 Hnd Hs1 Hs2 Hperm.
  - symmetry. by apply Permutation_nil.
  - destruct l2 as [| y l2].
    { symmetry in Hperm. by apply Permutation_nil in Hperm. }
    apply StronglySorted_inv in Hs1 as [Hs1 Hx].
    apply StronglySorted_inv in Hs2 as [Hs2 Hy].
    rewrite fmap_cons in Hnd. apply NoDup_cons in Hnd as [Hnotin Hnd].
    assert (Heq : x = y).
    { assert (Hin1 : x ∈ y :: l2) by (rewrite <- Hperm; left).
      assert (Hin2 : y ∈ x :: l1) by (rewrite Hperm; left).
      apply elem_of_cons in Hin1 as [-> | Hin1]; [done |].
      apply elem_of_cons in Hin2 as [-> | Hin2]; [done |].
      rewrite Forall_forall in Hx, Hy.
      pose proof (Hx y Hin2) as Hxy. pose proof (Hy x Hin1) as Hyx.
      unfold by_index in Hxy, Hyx.
      exfalso. apply Hnotin.
      replace (index x) with (index y) by lia.
      by apply list_elem_of_fmap_2. }
    subst y. f_equal. apply IH; try done.
    by apply Permutation_cons_inv in Hperm.
Qed.

Lemma phase_completed env startIndex conc (n : nat) :
  completed (phase_state env startIndex conc n n)
  ≡ₚ result_of env <$> seqZ startIndex (Z.of_nat n).
Proof.
  destruct (phase_state_inv env startIndex conc n n (le_n n))
    as (fin & Hlen & Hres & Hperm & _).
  assert (Hrest : inflight (phase_state env startIndex conc n n)
                  ++ waitQueue (sem (phase_state env startIndex conc n n))
                  = []).
  { apply Permutation_length in Hperm.
    rewrite length_app, length_seq in Hperm.
    apply nil_length_inv. lia. }
  rewrite Hrest, app_nil_r in Hperm.
  rewrite Hres, Hperm. unfold seqZ. rewrite Nat2Z.id.
  rewrite <- list_fmap_compose.
  match goal with |- ?a ≡ₚ ?b => assert (Heq : a = b) end.
  { apply list_fmap_ext. intros i t _. simpl. f_equal. lia. }
  by rewrite Heq.
Qed.

(** Whatever the order of completion, a phase returns the results of the
    indices [startIndex, ..., startIndex + count - 1], in this order. *)
Lemma makeConcurrentRequests_spec env (startIndex count conc : Z) :
  makeConcurrentRequests env startIndex count conc
  = result_of env <$> seqZ startIndex count.
Proof.
  unfold makeConcurrentRequests.
  rewrite (seqZ_to_nat startIndex count).
  apply sorted_by_index_unique.
  - rewrite (merge_sort_Permutation by_index), phase_completed.
    rewrite index_result_of_seqZ. apply NoDup_seqZ.
  - apply (StronglySorted_merge_sort by_index).
  - apply StronglySorted_result_of.
  - rewrite (merge_sort_Permutation by_index). apply phase_completed.
Qed.

(** ** The schedulers: which results a run accumulates *)

Lemma run_phase_results env st (startIndex count conc : Z) :
  results (run_phase env st startIndex count conc)
  = results st ++ (result_of env <$> seqZ startIndex count).
Proof. simpl. by rewrite makeConcurrentRequests_spec. Qed.

Lemma run_phase_covers env st (idx count conc : Z) :
  0 <= idx ->
  results st = result_of env <$> seqZ 0 idx ->
  results (run_phase env st idx count conc)
  = result_of env <$> seqZ 0 (idx + Z.max 0 count).
Proof.
  intros Hidx Hst. rewrite run_phase_results, Hst.
  rewrite seqZ_app by lia. rewrite fmap_app. simpl. do 2 f_equal.
  destruct (Z.le_gt_cases count 0).
  - rewrite !seqZ_nil; [done | lia | lia].
  - by rewrite Z.max_r by lia.
Qed.

Lemma sustained_results env config (bs batches : Z) :
  0 < bs ->
  (batches - 1) * bs < totalRequests config <= batches * bs ->
  forall (n : nat) (b : Z) (st : RunState),
    0 <= b ->
    b + Z.of_nat n = batches ->
    results st
    = result_of env <$> seqZ 0 (Z.min (b * bs) (totalRequests config)) ->
    results (foldl (sustainedBatch env config bs batches) st
                   (seqZ b (Z.of_nat n)))
    = result_of env <$> seqZ 0 (totalRequests config).
Proof.
  intros Hbs Hbatches. induction n as [| n IH]; intros b st Hb Hsum Hst.
  - simpl. rewrite Hst. do 2 f_equal. nia.
  - rewrite seqZ_cons by lia. simpl.
    replace (Z.pred (Z.of_nat (S n))) with (Z.of_nat n) by lia.
    apply IH; [lia | lia |].
    assert (Hlt : b * bs < totalRequests config) by nia.
    rewrite Z.min_l in Hst by lia.
    assert (Hphase :
      results (run_phase env st (b * bs)
                 (Z.min bs (totalRequests config - b * bs))
                 (concurrency config))
      = result_of env
          <$> seqZ 0 (Z.min (Z.succ b * bs) (totalRequests config))).
    { rewrite (run_phase_covers env st) by (try done; nia).
      do 2 f_equal. nia. }
    unfold sustainedBatch.
    destruct (truthy_num (delay config) && (b <? batches - 1)); simpl;
      simpl in Hphase; by rewrite Hphase.
Qed.

(** ** The ramp-up loop *)

Section RampUpLoop.

Variables (env : Env) (total endC stp : Z) (d : Q).

Lemma rampUpLoop_exhausted fuel cur idx st st' :
  total <= idx ->
  rampUpLoop fuel env total endC stp d cur idx st = Done st' ->
  st' = st.
Proof.
  intros Hidx. destruct fuel as [| fuel]; simpl; [done |].
  destruct (Z.ltb_spec idx total); [lia |].
  rewrite andb_false_r. by intros [= ->].
Qed.

Lemma rampUpLoop_S fuel cur idx st :
  rampUpLoop (S fuel) env total endC stp d cur idx st
  = if (cur <=? endC) && (idx <? total) then
      if cur <? endC then
        rampUpLoop fuel env total endC stp d
          (Z.min (cur + stp) endC) (idx + Z.min cur (total - idx))
          (do_sleep (run_phase env st idx (Z.min cur (total - idx)) cur) d)
      else
        rampUpLoop fuel env total endC stp d
          cur (idx + Z.min cur (total - idx))
          (run_phase env st idx (Z.min cur (total - idx)) cur)
    else Done st.
Proof. reflexivity. Qed.

(** With a negative step the concurrency falls; once it is not positive
    the loop dispatches nothing more and never ends. *)
Lemma rampUpLoop_diverges :
  stp < 0 -> 0 < endC ->
  forall fuel cur idx st,
    cur <= 0 -> idx < total ->
    rampUpLoop fuel env total endC stp d cur idx st = OutOfFuel.
Proof.
  intros Hstp Hend. induction fuel as [| fuel IH];
    intros cur idx st Hcur Hidx; [done |].
  rewrite rampUpLoop_S.
  destruct (Z.leb_spec cur endC); [| lia].
  destruct (Z.ltb_spec idx total); [| lia]. simpl.
  destruct (Z.ltb_spec cur endC); [| lia].
  apply IH; lia.
Qed.

Lemma rampUpLoop_stuck :
  stp < 0 -> 0 < endC ->
  forall fuel cur idx st st',
    cur <= 0 -> idx < total ->
    rampUpLoop fuel env total endC stp d cur idx st <> Done st'.
Proof.
  intros Hstp Hend fuel cur idx st st' Hcur Hidx.
  by rewrite rampUpLoop_diverges.
Qed.

(** Whenever the ramp-up loop ends, every index has been dispatched. *)
Lemma rampUpLoop_results :
  0 < endC ->
  forall fuel cur idx st st',
    0 < cur <= endC ->
    0 <= idx <= total ->
    results st = result_of env <$> seqZ 0 idx ->
    rampUpLoop fuel env total endC stp d cur idx st = Done st' ->
    results st' = result_of env <$> seqZ 0 total.
Proof.
  intros Hend. induction fuel as [| fuel IH];
    intros cur idx st st' Hcur Hidx Hst; simpl; [done |].
  destruct (Z.leb_spec cur endC); [| lia].
  destruct (Z.ltb_spec idx total) as [Hlt | Hge]; simpl.
  2: { intros [= <-]. rewrite Hst. do 2 f_equal. lia. }
  set (n := Z.min cur (total - idx)).
  assert (Hn : 0 < n) by lia.
  assert (Hphase : results (run_phase env st idx n cur)
                   = result_of env <$> seqZ 0 (idx + n)).
  { rewrite (run_phase_covers env st) by (try done; lia).
    do 2 f_equal. lia. }
  destruct (Z.ltb_spec cur endC) as [Hclimb | Hhold].
  - destruct (Z.le_gt_cases (Z.min (cur + stp) endC) 0) as [Hneg | Hpos].
    + destruct (Z.le_gt_cases total (idx + n)) as [Hdone | Hmore].
      * intros Hloop. apply rampUpLoop_exhausted in Hloop; [| lia].
        subst st'. simpl. simpl in Hphase. rewrite Hphase.
        do 2 f_equal. lia.
      * intros Hloop. exfalso.
        eapply rampUpLoop_stuck; [| | | | exact Hloop]; lia.
    + apply IH; [lia | lia |]. simpl. simpl in Hphase. by rewrite Hphase.
  - apply IH; [lia | lia | done].
Qed.

(** With a step that is not negative the ramp-up loop ends within
    [total - idx + 1] turns, having followed the ramp-up schedule and
    dispatched every remaining index. *)
Lemma rampUpLoop_schedule :
  0 <= stp ->
  forall fuel cur idx st,
    0 < cur <= endC ->
    0 <= idx ->
    (Z.to_nat (total - idx) < fuel)%nat ->
    exists st' tr,
      rampUpLoop fuel env total endC stp d cur idx st = Done st'
      /\ results st'
         = results st ++ (result_of env <$> seqZ idx (total - idx))
      /\ trace st' = trace st ++ tr
      /\ rampUp_schedule total endC stp d cur idx tr.
Proof.
  intros Hstp. induction fuel as [| fuel IH];
    intros cur idx st Hcur Hidx Hfuel; [lia |].
  simpl. destruct (Z.leb_spec cur endC); [| lia].
  destruct (Z.ltb_spec idx total) as [Hlt | Hge]; simpl.
  2: { exists st, []. rewrite seqZ_nil by lia. simpl.
       rewrite !app_nil_r. repeat split. by constructor. }
  set (n := Z.min cur (total - idx)).
  assert (Hn : 0 < n) by lia.
  assert (Hsplit : seqZ idx (total - idx)
                   = seqZ idx n ++ seqZ (idx + n) (total - (idx + n))).
  { replace (total - idx) with (n + (total - (idx + n))) at 1 by lia.
    apply seqZ_app; lia. }
  destruct (Z.ltb_spec cur endC) as [Hclimb | Hhold].
  - destruct (IH (Z.min (cur + stp) endC) (idx + n)
                (do_sleep (run_phase env st idx n cur) d))
      as (st' & tr & Hloop & Hres & Htr & Hsched); [lia | lia | lia |].
    exists st', (Dispatch idx n cur :: Sleep d :: tr).
    split; [exact Hloop |]. split; [| split].
    + rewrite Hres. simpl. rewrite makeConcurrentRequests_spec.
      by rewrite Hsplit, fmap_app, app_assoc.
    + rewrite Htr. simpl. by rewrite <- !app_assoc.
    + by constructor.
  - assert (cur = endC) by lia. subst cur.
    destruct (IH endC (idx + n) (run_phase env st idx n endC))
      as (st' & tr & Hloop & Hres & Htr & Hsched); [lia | lia | lia |].
    exists st', (Dispatch idx n endC :: tr).
    split; [exact Hloop |]. split; [| split].
    + rewrite Hres. simpl. rewrite makeConcurrentRequests_spec.
      by rewrite Hsplit, fmap_app, app_assoc.
    + rewrite Htr. simpl. by rewrite <- !app_assoc.
    + by constructor.
Qed.

Lemma rampUpLoop_more_fuel :
  forall fuel fuel' cur idx st st',
    (fuel <= fuel')%nat ->
    rampUpLoop fuel env total endC stp d cur idx st = Done st' ->
    rampUpLoop fuel' env total endC stp d cur idx st = Done st'.
Proof.
  induction fuel as [| fuel IH]; intros fuel' cur idx st st' Hle; [done |].
  destruct fuel' as [| fuel']; [lia |]. simpl.
  destruct ((cur <=? endC) && (idx <? total)); [| done].
  destruct (cur <? endC); apply IH; lia.
Qed.

Lemma rampUpLoop_no_throw :
  forall fuel cur idx st msg st',
    rampUpLoop fuel env total endC stp d cur idx st <> Threw msg st'.
Proof.
  induction fuel as [| fuel IH]; intros cur idx st msg st'; simpl; [done |].
  destruct ((cur <=? endC) && (idx <? total)); [| done].
  destruct (cur <? endC); apply IH.
Qed.

End RampUpLoop.

(** ** The schedulers: every pattern dispatches every index *)

Lemma wave_results env config :
  0 <= totalRequests config ->
  results (executeWavePattern env config initializeTest)
  = result_of env <$> seqZ 0 (totalRequests config).
Proof.
  intros Htotal. unfold executeWavePattern.
  change (seqZ 0 3) with [0; 1; 2]. cbn [foldl].
  change (0 =? 3 - 1) with false. change (1 =? 3 - 1) with false.
  change (2 =? 3 - 1) with true.
  change (0 <? 3 - 1) with true. change (1 <? 3 - 1) with true.
  change (2 <? 3 - 1) with false. cbv iota.
  set (w := totalRequests config / 3).
  assert (Hw : 0 <= w /\ 3 * w <= totalRequests config).
  { unfold w. split; [apply Z.div_pos; lia |].
    apply Z.mul_div_le. lia. }
  simpl. rewrite !makeConcurrentRequests_spec.
  rewrite <- !fmap_app. f_equal.
  replace (totalRequests config)
    with (w + (w + (totalRequests config - 2 * w))) at 2 by lia.
  rewrite !seqZ_app by lia. simpl. rewrite <- app_assoc.
  repeat f_equal; lia.
Qed.

Lemma spike_results env config :
  0 < totalRequests config ->
  results (executeSpikePattern env config initializeTest)
  = result_of env <$> seqZ 0 (totalRequests config).
Proof.
  intros Htotal. unfold executeSpikePattern.
  pose proof (floor_mul_0_8_bounds _ Htotal) as Hb.
  set (big := floor_mul_0_8 (totalRequests config)) in *.
  destruct (Z.ltb_spec 0 (totalRequests config - big)); [| lia].
  simpl. rewrite !makeConcurrentRequests_spec.
  rewrite <- fmap_app. f_equal.
  replace (totalRequests config)
    with ((totalRequests config - big) + big) at 3 by lia.
  rewrite seqZ_app by lia. done.
Qed.

Lemma validateConfig_ok config :
  validateConfig config = None ->
  truthy_str (url config) = true
  /\ 0 < concurrency config
  /\ 0 < totalRequests config
  /\ (truthy_num (timeout config) = true -> 0 < or_zero (timeout config)).
Proof.
  unfold validateConfig.
  destruct (truthy_str (url config)); simpl; [| done].
  destruct (Z.leb_spec (concurrency config) 0); [done |].
  destruct (Z.leb_spec (totalRequests config) 0); [done |].
  destruct (truthy_num (timeout config)); simpl; [| by intros _].
  destruct (Z.leb_spec (or_zero (timeout config)) 0); [done |].
  by intros _.
Qed.

Lemma validateRampUpConfig_ok r :
  validateRampUpConfig r = None ->
  0 < startConcurrency r
  /\ startConcurrency r < endConcurrency r
  /\ 0 < rampUpTime r.
Proof.
  unfold validateRampUpConfig.
  destruct (Z.leb_spec (startConcurrency r) 0); simpl; [done |].
  destruct (Z.leb_spec (endConcurrency r) 0); simpl; [done |].
  destruct (Z.leb_spec (endConcurrency r) (startConcurrency r)); [done |].
  destruct (Z.leb_spec (rampUpTime r) 0); [done |].
  intros _. lia.
Qed.

Lemma executeSustainedPattern_results env config :
  0 < concurrency config -> 0 < totalRequests config ->
  results (executeSustainedPattern env config initializeTest)
  = result_of env <$> seqZ 0 (totalRequests config).
Proof.
  intros Hc Ht. unfold executeSustainedPattern.
  set (bs := Z.min (concurrency config) (totalRequests config)).
  assert (Hbs : 0 < bs) by lia.
  pose proof (ceil_div_bounds (totalRequests config) bs Hbs) as Hb.
  pose proof (ceil_div_pos (totalRequests config) bs Hbs Ht) as Hp.
  set (batches := ceil_div (totalRequests config) bs) in *.
  rewrite (seqZ_to_nat 0 batches).
  apply sustained_results; try done; try lia.
  rewrite Z.min_l by lia. reflexivity.
Qed.

(** Every executor that returns has accumulated the results of exactly the
    indices 0, ..., totalRequests - 1, in this order. *)
Lemma executePattern_results env config fuel st :
  validateConfig config = None ->
  executePattern fuel env config initializeTest = Done st ->
  results st = result_of env <$> seqZ 0 (totalRequests config).
Proof.
  intros Hvalid. apply validateConfig_ok in Hvalid as (_ & Hc & Ht & _).
  unfold executePattern.
  destruct (default sustained (pattern config)).
  - intros [= <-]. unfold executeBurstPattern.
    by rewrite run_phase_results.
  - intros [= <-]. by apply executeSustainedPattern_results.
  - unfold executeRampUpPattern.
    destruct (rampUp config) as [r |]; [| done].
    destruct (validateRampUpConfig r) eqn:Hr; [done |].
    apply validateRampUpConfig_ok in Hr as (Hs & He & _).
    apply rampUpLoop_results; [lia | lia | lia | done].
  - intros [= <-]. apply wave_results. lia.
  - intros [= <-]. by apply spike_results.
Qed.

(** ** The schedulers: what a run dispatches, and when *)

Lemma sustained_trace env config (bs batches : Z) :
  bs = Z.min (concurrency config) (totalRequests config) ->
  0 < bs ->
  (batches - 1) * bs < totalRequests config <= batches * bs ->
  forall (n : nat) (b : Z) (st : RunState),
    0 <= b ->
    b + Z.of_nat (S n) = batches ->
    exists tr,
      trace (foldl (sustainedBatch env config bs batches) st
                   (seqZ b (Z.of_nat (S n))))
      = trace st ++ tr
      /\ sustained_schedule (concurrency config) (totalRequests config)
           (sustained_pause config) (b * bs) tr
      /\ length (dispatches tr) = S n.
Proof.
  intros Hbs Hpos Hbatches.
  induction n as [| n IH]; intros b st Hb Hsum.
  - rewrite seqZ_cons by lia. rewrite seqZ_nil by lia. cbn [foldl].
    unfold sustainedBatch.
    destruct (Z.ltb_spec b (batches - 1)); [lia |].
    rewrite andb_false_r. simpl.
    eexists. split; [reflexivity |].
    replace (Z.min bs (totalRequests config - b * bs))
      with (Z.min (concurrency config) (totalRequests config - b * bs))
      by nia.
    split; [| done]. constructor; nia.
  - rewrite seqZ_cons by lia. cbn [foldl].
    replace (Z.pred (Z.of_nat (S (S n)))) with (Z.of_nat (S n)) by lia.
    destruct (IH (Z.succ b) (sustainedBatch env config bs batches st b))
      as (tr & Htr & Hsched & Hlen); [lia | lia |].
    assert (Hconc : bs = concurrency config) by nia.
    assert (Hmin : Z.min bs (totalRequests config - b * bs)
                   = Z.min (concurrency config)
                       (totalRequests config - b * bs)) by nia.
    assert (Hnext : b * bs + Z.min (concurrency config)
                               (totalRequests config - b * bs)
                    = Z.succ b * bs) by nia.
    exists (Dispatch (b * bs)
              (Z.min (concurrency config) (totalRequests config - b * bs))
              (concurrency config)
            :: sustained_pause config ++ tr).
    split; [| split].
    + rewrite Htr. unfold sustainedBatch, sustained_pause.
      destruct (Z.ltb_spec b (batches - 1)); [| lia].
      rewrite andb_true_r, Hmin.
      destruct (truthy_num (delay config)); simpl;
        by rewrite <- !app_assoc.
    + apply sustained_next; [nia |]. by rewrite Hnext.
    + unfold sustained_pause.
      destruct (truthy_num (delay config)); simpl; by rewrite Hlen.
Qed.

Lemma rampUp_schedule_unique total endC stp d cur idx tr1 tr2 :
  rampUp_schedule total endC stp d cur idx tr1 ->
  rampUp_schedule total endC stp d cur idx tr2 ->
  tr1 = tr2.
Proof.
  intros H1. revert tr2.
  induction H1 as [cur idx Hend | cur idx tr Hlt Hclimb _ IH
                  | idx tr Hlt _ IH];
    intros tr2 H2; inversion H2; subst; try lia; try done.
  - do 2 f_equal. by apply IH.
  - f_equal. by apply IH.
Qed.

Lemma executePattern_returns env config :
  validateConfig config = None ->
  schedulable config ->
  exists st, forall fuel,
    (Z.to_nat (totalRequests config) < fuel)%nat ->
    executePattern fuel env config initializeTest = Done st.
Proof.
  intros Hvalid Hsched. unfold schedulable in Hsched.
  unfold executePattern.
  destruct (default sustained (pattern config)); try (eexists; done).
  destruct Hsched as (r & Hr & Hrv & Hstep); [done |].
  unfold executeRampUpPattern. rewrite Hr, Hrv.
  apply validateRampUpConfig_ok in Hrv as (Hs & He & _).
  destruct (rampUpLoop_schedule env (totalRequests config)
              (endConcurrency r) (default 1 (step r)) (stepDuration r)
              Hstep (S (Z.to_nat (totalRequests config)))
              (startConcurrency r) 0 initializeTest)
    as (st & tr & Hloop & _); [lia | lia | lia |].
  exists st. intros fuel Hfuel.
  eapply rampUpLoop_more_fuel; [| exact Hloop]. lia.
Qed.

(** ** The index set of a run *)

(** C1.  For every configuration the constructor accepts and every pattern,
    a run that returns returns the results of the indices
    0, ..., totalRequests - 1, each once and in this order, whatever the
    order in which the requests complete; and the run does return, for
    every pattern, when a ramp-up has valid parameters and a step that is
    not negative. *)
Theorem C1_result_indices (env : Env) (config : StressTestConfig) :
  validateConfig config = None ->
  (forall fuel res tr,
     run fuel env config = Returned res tr ->
     index <$> requests res = seqZ 0 (totalRequests config)
     /\ exact_indices (totalRequests config) (requests res))
  /\ (schedulable config ->
      exists res tr, forall fuel,
        (Z.to_nat (totalRequests config) < fuel)%nat ->
        run fuel env config = Returned res tr).
Proof.
  intros Hvalid. split.
  - intros fuel res tr. unfold run.
    destruct (executePattern fuel env config initializeTest)
      as [st | |] eqn:Hexec; try done.
    intros [= <- <-]. simpl.
    rewrite (executePattern_results env config fuel st Hvalid Hexec).
    rewrite index_result_of_seqZ. unfold exact_indices.
    rewrite index_result_of_seqZ. split; [done |].
    split; [apply NoDup_seqZ |].
    intros i. rewrite elem_of_seqZ. lia.
  - intros Hsched.
    destruct (executePattern_returns env config Hvalid Hsched) as [st Hst].
    exists (finalizeTest env config st), (trace st).
    intros fuel Hfuel. unfold run. by rewrite (Hst fuel Hfuel).
Qed.

Lemma C1_result_indices_witness :
  validateConfig (example_config ramp_up 1000 10) = None
  /\ (forall fuel res tr,
        run fuel example_env (example_config ramp_up 1000 10)
        = Returned res tr ->
        index <$> requests res = seqZ 0 1000
        /\ exact_indices 1000 (requests res))
  /\ (schedulable (example_config ramp_up 1000 10) ->
      exists res tr, forall fuel,
        (Z.to_nat 1000 < fuel)%nat ->
        run fuel example_env (example_config ramp_up 1000 10)
        = Returned res tr).
Proof.
  split; [reflexivity |].
  apply (C1_result_indices example_env (example_config ramp_up 1000 10)).
  reflexivity.
Defined.

Lemma executeSpikePattern_trace env config :
  0 < totalRequests config ->
  trace (executeSpikePattern env config initializeTest) = spike_trace config.
Proof.
  intros Htotal. unfold executeSpikePattern, spike_trace.
  pose proof (floor_mul_0_8_bounds _ Htotal) as Hb.
  destruct (Z.ltb_spec 0
              (totalRequests config - floor_mul_0_8 (totalRequests config)));
    [reflexivity | lia].
Qed.

(** C2, amended.  A spike run has exactly two phases: first the requests
    left over by the 80% share, totalRequests - floor (totalRequests * 0.8)
    of them, at concurrency floor (concurrency * 0.3); then a pause of
    1000; then the floor (totalRequests * 0.8) requests of the spike at
    full concurrency.  For totalRequests = 100 the first phase has 20
    requests and the second has 80. *)
Theorem C2_spike_phases (env : Env) (config : StressTestConfig)
  (fuel : nat) :
  validateConfig config = None ->
  pattern config = Some spike ->
  exists res,
    run fuel env config = Returned res (spike_trace config)
    /\ requests res = result_of env <$> seqZ 0 (totalRequests config)
    /\ (totalRequests config = 100 ->
        dispatches (spike_trace config)
        = [ (0, 20, floor_mul_0_3 (concurrency config));
            (20, 80, concurrency config) ]).
Proof.
  intros Hvalid Hpattern.
  pose proof (validateConfig_ok _ Hvalid) as (_ & _ & Htotal & _).
  exists (finalizeTest env config
            (executeSpikePattern env config initializeTest)).
  split; [| split].
  - unfold run, executePattern. rewrite Hpattern.
    change (default sustained (Some spike)) with spike. cbv iota.
    by rewrite executeSpikePattern_trace.
  - simpl. by apply spike_results.
  - intros H100. unfold spike_trace. rewrite H100. reflexivity.
Qed.

Lemma C2_spike_phases_witness :
  validateConfig (example_config spike 100 10) = None
  /\ pattern (example_config spike 100 10) = Some spike
  /\ exists res,
       run 0 example_env (example_config spike 100 10)
       = Returned res (spike_trace (example_config spike 100 10))
       /\ requests res = result_of example_env <$> seqZ 0 100
       /\ (100 = 100 ->
           dispatches (spike_trace (example_config spike 100 10))
           = [(0, 20, floor_mul_0_3 10); (20, 80, 10)]).
Proof.
  split; [reflexivity |]. split; [reflexivity |].
  apply (C2_spike_phases example_env (example_config spike 100 10) 0);
    reflexivity.
Defined.

(** C2 as stated fails: with totalRequests = 100 and concurrency = 10 the
    first phase has 20 requests and the second 80, where the statement
    has 80 and then 20. *)
Lemma C2_spike_as_stated_counterexample :
  exists res tr,
    run 0 example_env (example_config spike 100 10) = Returned res tr
    /\ dispatches tr = [(0, 20, 3); (20, 80, 10)]
    /\ dispatches (spike_trace_as_stated (example_config spike 100 10))
       = [(0, 80, 3); (80, 20, 10)]
    /\ tr <> spike_trace_as_stated (example_config spike 100 10).
Proof.
  eexists _, _. split; [vm_compute; reflexivity |].
  split; [reflexivity |]. split; [reflexivity |]. discriminate.
Qed.

(** C3, amended.  A ramp-up with valid parameters and a positive step stops
    dispatching when totalRequests is exhausted, and only then: the
    concurrency climbs from startConcurrency by step, capped at
    endConcurrency, and once there the scheduler goes on with plateaus at
    endConcurrency until no request is left.  Each plateau dispatches
    min (currentConcurrency, remaining) requests; a pause of
    rampUpTime / ceil ((endConcurrency - startConcurrency) / step) follows
    each plateau below endConcurrency, and none follows a plateau at
    endConcurrency.  For start = 10, end = 100, step = 10,
    rampUpTime = 9000 and totalRequests = 550 the run traverses exactly the
    10 plateaus 10, 20, ..., 100, with 9 pauses of 1000 between them. *)
Theorem C3_rampUp_schedule (env : Env) (config : StressTestConfig)
  (r : RampUpConfig) :
  validateConfig config = None ->
  pattern config = Some ramp_up ->
  rampUp config = Some r ->
  validateRampUpConfig r = None ->
  0 < default 1 (step r) ->
  exists res tr,
    (forall fuel,
       (Z.to_nat (totalRequests config) < fuel)%nat ->
       run fuel env config = Returned res tr)
    /\ rampUp_schedule (totalRequests config) (endConcurrency r)
         (default 1 (step r)) (stepDuration r) (startConcurrency r) 0 tr
    /\ requests res = result_of env <$> seqZ 0 (totalRequests config)
    /\ (r = example_rampUp -> totalRequests config = 550 ->
        (stepDuration r == inject_Z 1000)%Q
        /\ dispatches tr
           = [ (0, 10, 10); (10, 20, 20); (30, 30, 30); (60, 40, 40);
               (100, 50, 50); (150, 60, 60); (210, 70, 70); (280, 80, 80);
               (360, 90, 90); (450, 100, 100) ]
        /\ pauses tr = replicate 9 (stepDuration r)).
Proof.
  intros Hvalid Hpattern Hr Hrv Hstep.
  pose proof (validateRampUpConfig_ok _ Hrv) as (Hs & He & _).
  destruct (rampUpLoop_schedule env (totalRequests config)
              (endConcurrency r) (default 1 (step r)) (stepDuration r)
              ltac:(lia) (S (Z.to_nat (totalRequests config)))
              (startConcurrency r) 0 initializeTest)
    as (st & tr & Hloop & Hres & Htr & Hsched); [lia | lia | lia |].
  exists (finalizeTest env config st), tr.
  split; [| split; [| split]].
  - intros fuel Hfuel. unfold run, executePattern, executeRampUpPattern.
    rewrite Hpattern, Hr, Hrv. simpl.
    erewrite rampUpLoop_more_fuel; [| | exact Hloop]; [| lia].
    by rewrite Htr.
  - exact Hsched.
  - simpl. rewrite Hres. simpl. do 2 f_equal. lia.
  - intros -> Htotal. rewrite Htotal in Hsched.
    split; [reflexivity |].
    assert (Hex : rampUp_schedule 550 100 10 (stepDuration example_rampUp)
               10 0
               [ Dispatch 0 10 10; Sleep (stepDuration example_rampUp);
                 Dispatch 10 20 20; Sleep (stepDuration example_rampUp);
                 Dispatch 30 30 30; Sleep (stepDuration example_rampUp);
                 Dispatch 60 40 40; Sleep (stepDuration example_rampUp);
                 Dispatch 100 50 50; Sleep (stepDuration example_rampUp);
                 Dispatch 150 60 60; Sleep (stepDuration example_rampUp);
                 Dispatch 210 70 70; Sleep (stepDuration example_rampUp);
                 Dispatch 280 80 80; Sleep (stepDuration example_rampUp);
                 Dispatch 360 90 90; Sleep (stepDuration example_rampUp);
                 Dispatch 450 100 100 ]).
    { repeat first
        [ apply ramp_end; lia
        | apply (ramp_climb 550 100 10); [lia | lia | simpl]
        | apply (ramp_hold 550 100 10); [lia | simpl] ]. }
    rewrite (rampUp_schedule_unique _ _ _ _ _ _ _ _ Hsched Hex).
    split; reflexivity.
Qed.

Lemma C3_rampUp_schedule_witness :
  exists res tr,
    (forall fuel,
       (Z.to_nat 550 < fuel)%nat ->
       run fuel example_env (example_config ramp_up 550 10)
       = Returned res tr)
    /\ length (dispatches tr) = 10%nat
    /\ length (pauses tr) = 9%nat.
Proof.
  destruct (C3_rampUp_schedule example_env (example_config ramp_up 550 10)
              example_rampUp eq_refl eq_refl eq_refl eq_refl eq_refl)
    as (res & tr & Hrun & _ & _ & Hex).
  exists res, tr. split; [exact Hrun |].
  destruct (Hex eq_refl eq_refl) as (_ & Hd & Hp).
  rewrite Hd, Hp. split; reflexivity.
Defined.

(** C3 as stated fails: for start = 10, end = 100, step = 10,
    rampUpTime = 9000 and totalRequests = 1000 the plateau at 100 has run
    once after 550 requests, and the scheduler goes on with five more
    plateaus at 100; there are 15 plateaus, not 9, and 10 levels between 10
    and 100. *)
Lemma C3_rampUp_as_stated_counterexample :
  exists res tr,
    run 1001 example_env (example_config ramp_up 1000 10) = Returned res tr
    /\ dispatches tr
       = [ (0, 10, 10); (10, 20, 20); (30, 30, 30); (60, 40, 40);
           (100, 50, 50); (150, 60, 60); (210, 70, 70); (280, 80, 80);
           (360, 90, 90); (450, 100, 100); (550, 100, 100);
           (650, 100, 100); (750, 100, 100); (850, 100, 100);
           (950, 50, 100) ]
    /\ rampUp_plateaus_as_stated 1001 1000 100 10 10 0
       = [ (0, 10, 10); (10, 20, 20); (30, 30, 30); (60, 40, 40);
           (100, 50, 50); (150, 60, 60); (210, 70, 70); (280, 80, 80);
           (360, 90, 90); (450, 100, 100) ]
    /\ dispatches tr <> rampUp_plateaus_as_stated 1001 1000 100 10 10 0
    /\ length (dispatches tr) <> 9%nat.
Proof.
  eexists _, _. split; [vm_compute; reflexivity |].
  split; [reflexivity |]. split; [reflexivity |].
  split; [discriminate | discriminate].
Qed.

(** ** Configuration errors *)

(** An executor that throws has dispatched nothing: it throws from the
    state it was started in. *)
Lemma executePattern_throw_state fuel env config st msg st' :
  executePattern fuel env config st = Threw msg st' -> st' = st.
Proof.
  unfold executePattern, executeRampUpPattern.
  destruct (default sustained (pattern config)); try done.
  destruct (rampUp config) as [r |]; [| by intros [= _ <-]].
  destruct (validateRampUpConfig r); [by intros [= _ <-] |].
  intros Hloop. by apply rampUpLoop_no_throw in Hloop.
Qed.

Lemma validateConfig_checked config :
  timeout config <> Some 0 ->
  validateConfig config = None
  <-> truthy_str (url config) = true
      /\ 0 < concurrency config
      /\ 0 < totalRequests config
      /\ (forall t, timeout config = Some t -> 0 < t).
Proof.
  intros Htimeout. unfold validateConfig.
  destruct (truthy_str (url config)); simpl; [| by split; [| intros []]].
  destruct (Z.leb_spec (concurrency config) 0);
    [split; [done | intros (_ & ? & _); lia] |].
  destruct (Z.leb_spec (totalRequests config) 0);
    [split; [done | intros (_ & _ & ? & _); lia] |].
  destruct (timeout config) as [t |] eqn:Ht; simpl.
  - destruct (Z.eqb_spec t 0) as [-> | Hne]; [done |]. simpl.
    destruct (Z.leb_spec t 0).
    + split; [done |]. intros (_ & _ & _ & Hpos).
      specialize (Hpos t eq_refl). lia.
    + split; [| done]. intros _. repeat split; try done.
      intros t' [= <-]. lia.
  - split; [| done]. intros _. repeat split; done.
Qed.

Lemma validateRampUpConfig_checked r :
  validateRampUpConfig r = None
  <-> 0 < startConcurrency r
      /\ startConcurrency r < endConcurrency r
      /\ 0 < rampUpTime r.
Proof.
  split; [apply validateRampUpConfig_ok |].
  intros (Hs & He & Ht). unfold validateRampUpConfig.
  destruct (Z.leb_spec (startConcurrency r) 0); [lia |].
  destruct (Z.leb_spec (endConcurrency r) 0); [lia |]. simpl.
  destruct (Z.leb_spec (endConcurrency r) (startConcurrency r)); [lia |].
  destruct (Z.leb_spec (rampUpTime r) 0); [lia | done].
Qed.

Lemma pattern_ramp_up config :
  default sustained (pattern config) = ramp_up
  <-> pattern config = Some ramp_up.
Proof.
  destruct (pattern config) as [p |]; simpl; [| done].
  split; [by intros -> | by intros [= ->]].
Qed.

(** C4, amended.  For a timeout that is not 0, constructing and running a
    tester raises exactly when the configuration is not valid, where valid
    means: url present, concurrency > 0, totalRequests > 0 (a duration does
    not stand in for it), the timeout, when given, > 0, and for
    pattern = ramp-up the ramp-up block present with startConcurrency > 0,
    endConcurrency > startConcurrency and rampUpTime > 0.  The failure
    comes before any dispatch: the state it leaves has no result and no
    event. *)
Theorem C4_configuration_errors (config : StressTestConfig) :
  timeout config <> Some 0 ->
  (forall fuel env,
     (exists msg st, construct_and_run fuel env config = Raised msg st)
     <-> ~ valid_as_checked config)
  /\ (forall fuel env msg st,
        construct_and_run fuel env config = Raised msg st ->
        results st = [] /\ trace st = []).
Proof.
  intros Htimeout. split.
  - intros fuel env.
    pose proof (validateConfig_checked config Htimeout) as Hcheck.
    unfold construct_and_run, new_StressTester, valid_as_checked.
    destruct (validateConfig config) as [msg |] eqn:Hv.
    + split; [| by eauto].
      intros _ (Hu & Hc & Ht & Hto & _).
      assert (Hnone : Some msg = None) by (apply Hcheck; done). done.
    + destruct Hcheck as [Hcheck _].
      destruct (Hcheck eq_refl) as (Hu & Hc & Ht & Hto).
      unfold run, executePattern, executeRampUpPattern.
      rewrite <- pattern_ramp_up.
      destruct (default sustained (pattern config)) eqn:Hp;
        try (split; [by intros (? & ? & ?) | intros Hn; exfalso; apply Hn;
                     repeat split; done]).
      destruct (rampUp config) as [r |] eqn:Hr.
      * pose proof (validateRampUpConfig_checked r) as Hrc.
        destruct (validateRampUpConfig r) as [msg |] eqn:Hrv.
        -- split; [| by eauto].
           intros _ (_ & _ & _ & _ & Hramp).
           destruct (Hramp eq_refl) as (r' & [= <-] & Hr').
           assert (Hnone : Some msg = None) by (apply Hrc; done). done.
        -- split.
           ++ intros (msg & st & Hraised).
              destruct (rampUpLoop fuel env (totalRequests config)
                          (endConcurrency r) (default 1 (step r))
                          (stepDuration r) (startConcurrency r) 0
                          initializeTest) eqn:Hloop; try done.
              by apply rampUpLoop_no_throw in Hloop.
           ++ intros Hn. exfalso. apply Hn. repeat split; try done.
              intros _. exists r. split; [done |]. by apply Hrc.
      * split; [| by eauto].
        intros _ (_ & _ & _ & _ & Hramp).
        by destruct (Hramp eq_refl) as (r' & [=] & _).
  - intros fuel env msg st.
    unfold construct_and_run, new_StressTester.
    destruct (validateConfig config); [by intros [= _ <-] |].
    unfold run.
    destruct (executePattern fuel env config initializeTest)
      as [| msg' st' |] eqn:Hexec; try done.
    intros [= _ <-].
    by rewrite (executePattern_throw_state _ _ _ _ _ _ Hexec).
Qed.

Lemma C4_configuration_errors_witness :
  timeout (example_config ramp_up 550 10) <> Some 0
  /\ (forall fuel env,
        (exists msg st,
           construct_and_run fuel env (example_config ramp_up 550 10)
           = Raised msg st)
        <-> ~ valid_as_checked (example_config ramp_up 550 10))
  /\ (forall fuel env msg st,
        construct_and_run fuel env (example_config ramp_up 550 10)
        = Raised msg st ->
        results st = [] /\ trace st = []).
Proof.
  split; [discriminate |].
  apply (C4_configuration_errors (example_config ramp_up 550 10)).
  discriminate.
Defined.

(** C4 as stated fails: a configuration with a duration of 60000 and no
    request total is valid as stated, and its construction raises. *)
Lemma C4_valid_as_stated_counterexample :
  valid_as_stated example_duration_config
  /\ new_StressTester example_duration_config
     = inl "Total requests must be greater than 0"
  /\ construct_and_run 1 example_env example_duration_config
     = Raised "Total requests must be greater than 0"
         {| results := []; trace := [] |}.
Proof.
  split; [| split; reflexivity].
  unfold valid_as_stated, example_duration_config; simpl.
  repeat split; try lia; try done.
  - right. exists 60000. split; [done | lia].
  - exists 30000. split; [done | lia].
Qed.

(** ** The sustained pattern *)

Lemma dispatches_app tr1 tr2 :
  dispatches (tr1 ++ tr2) = dispatches tr1 ++ dispatches tr2.
Proof. apply omap_app. Qed.

Lemma pauses_app tr1 tr2 : pauses (tr1 ++ tr2) = pauses tr1 ++ pauses tr2.
Proof. apply omap_app. Qed.

(** A sustained schedule ends with a phase, and has one pause less than
    it has phases when a pause is configured. *)
Lemma sustained_schedule_shape conc total pause idx tr :
  dispatches pause = [] ->
  sustained_schedule conc total pause idx tr ->
  (exists s n c, last tr = Some (Dispatch s n c))
  /\ length (pauses tr)
     = (length (pauses pause) * (length (dispatches tr) - 1))%nat.
Proof.
  intros Hpause. induction 1 as [idx Hlt Hle | idx tr Hlt Hsched IH].
  - split; [by eauto |]. simpl. lia.
  - destruct IH as [(s & n & c & Hlast) Hlen]. split.
    + exists s, n, c.
      rewrite app_comm_cons, last_app, Hlast. done.
    + simpl. rewrite pauses_app, dispatches_app, Hpause, !length_app, Hlen.
      simpl.
      assert (0 < length (dispatches tr))%nat.
      { destruct Hsched; simpl; lia. }
      nia.
Qed.

Lemma executeSustainedPattern_trace env config :
  0 < concurrency config -> 0 < totalRequests config ->
  exists tr,
    trace (executeSustainedPattern env config initializeTest) = tr
    /\ sustained_schedule (concurrency config) (totalRequests config)
         (sustained_pause config) 0 tr
    /\ Z.of_nat (length (dispatches tr))
       = ceil_div (totalRequests config) (concurrency config).
Proof.
  intros Hc Ht. unfold executeSustainedPattern.
  set (bs := Z.min (concurrency config) (totalRequests config)).
  assert (Hbs : 0 < bs) by lia.
  pose proof (ceil_div_bounds (totalRequests config) bs Hbs) as Hb.
  pose proof (ceil_div_pos (totalRequests config) bs Hbs Ht) as Hp.
  assert (Hsame : ceil_div (totalRequests config) (concurrency config)
                  = ceil_div (totalRequests config) bs).
  { apply ceil_div_unique; [done |].
    destruct (Z.le_gt_cases (concurrency config) (totalRequests config)).
    - replace (concurrency config) with bs by lia. done.
    - assert (ceil_div (totalRequests config) bs = 1)
        by (apply ceil_div_unique; lia).
      lia. }
  set (batches := ceil_div (totalRequests config) bs) in *.
  destruct (sustained_trace env config bs batches eq_refl Hbs Hb
              (Z.to_nat batches - 1) 0 initializeTest)
    as (tr & Htr & Hsched & Hlen); [lia | lia |].
  replace (Z.of_nat (S (Z.to_nat batches - 1))) with batches in Htr by lia.
  exists tr. split; [by rewrite Htr |]. split; [exact Hsched |].
  rewrite Hlen, Hsame. lia.
Qed.

(** C8.  A sustained run of a valid configuration has exactly
    ceil (totalRequests / concurrency) phases; each phase dispatches
    min (concurrency, remaining) requests, starting where the one before
    ended; a configured delay is awaited between two consecutive phases
    and not after the last one. *)
Theorem C8_sustained_phases (env : Env) (config : StressTestConfig)
  (fuel : nat) :
  validateConfig config = None ->
  default sustained (pattern config) = sustained ->
  exists res tr,
    run fuel env config = Returned res tr
    /\ sustained_schedule (concurrency config) (totalRequests config)
         (sustained_pause config) 0 tr
    /\ Z.of_nat (length (dispatches tr))
       = ceil_div (totalRequests config) (concurrency config)
    /\ (exists s n c, last tr = Some (Dispatch s n c))
    /\ length (pauses tr)
       = (if truthy_num (delay config)
          then length (dispatches tr) - 1 else 0)%nat.
Proof.
  intros Hvalid Hpattern.
  pose proof (validateConfig_ok _ Hvalid) as (_ & Hc & Ht & _).
  destruct (executeSustainedPattern_trace env config Hc Ht)
    as (tr & Htr & Hsched & Hcount).
  exists (finalizeTest env config
            (executeSustainedPattern env config initializeTest)), tr.
  split; [| split; [exact Hsched | split; [exact Hcount |]]].
  - unfold run, executePattern. rewrite Hpattern. by rewrite Htr.
  - assert (Hpause : dispatches (sustained_pause config) = []).
    { unfold sustained_pause. by destruct (truthy_num (delay config)). }
    destruct (sustained_schedule_shape _ _ _ _ _ Hpause Hsched)
      as [Hlast Hlen].
    split; [exact Hlast |]. rewrite Hlen. unfold sustained_pause.
    destruct (truthy_num (delay config)); simpl; lia.
Qed.

Lemma C8_sustained_phases_witness :
  exists res tr,
    run 0 example_env (example_config sustained 25 10) = Returned res tr
    /\ tr = [ Dispatch 0 10 10; Sleep (inject_Z 5);
              Dispatch 10 10 10; Sleep (inject_Z 5);
              Dispatch 20 5 10 ]
    /\ Z.of_nat (length (dispatches tr)) = ceil_div 25 10.
Proof.
  destruct (C8_sustained_phases example_env (example_config sustained 25 10)
              0 eq_refl eq_refl)
    as (res & tr & Hrun & _ & Hcount & _).
  exists res, tr. split; [exact Hrun |]. split; [| exact Hcount].
  vm_compute in Hrun. by injection Hrun as _ <-.
Defined.

(** ** Results of the executor *)

Lemma append_nonempty (s t : string) : s <> "" -> s +:+ t <> "".
Proof. destruct s; [done | discriminate]. Qed.

Lemma truthy_str_Some (s : string) : truthy_str (Some s) = true <-> s <> "".
Proof.
  simpl. destruct (String.eqb_spec s ""); simpl; split; try done.
Qed.

Lemma formatError_nonempty (e : AxiosError) : formatError e <> "".
Proof.
  assert (Hmsg : (if truthy_str (Some (message e)) then message e
                  else "Unknown network error") <> "").
  { simpl. destruct (String.eqb_spec (message e) ""); simpl; done. }
  unfold formatError.
  destruct (truthy_str (code e)) eqn:Htruthy.
  - destruct (code e) as [c |]; [| done].
    apply append_nonempty. simpl. by apply truthy_str_Some.
  - destruct (err_response e); [by apply append_nonempty | exact Hmsg].
Qed.

(** C5.  [makeRequest] is a total function of the transport's outcome: it
    returns a result whether the request resolves or rejects.  A response,
    whatever its status (400 and above included), gives a result with
    that status as [statusCode] and no [error]; a rejection gives a result
    with an [error] and no [statusCode], and the error text starts with
    the reason code when the rejection carries one: refused, host not
    found, timed out, reset and aborted have their own texts. *)
Theorem C5_makeRequest_outcomes (ts i : Z) :
  (forall r,
     index (makeRequest ts (Resolved r) i) = i
     /\ statusCode (makeRequest ts (Resolved r) i) = Some (status r)
     /\ error (makeRequest ts (Resolved r) i) = None)
  /\ (forall e,
        index (makeRequest ts (Rejected e) i) = i
        /\ statusCode (makeRequest ts (Rejected e) i) = None
        /\ error (makeRequest ts (Rejected e) i) = Some (formatError e)
        /\ formatError e <> "")
  /\ (forall e c,
        code e = Some c -> c <> "" ->
        formatError e
        = c +:+ ": " +:+ default (message e) (codeMessages c))
  /\ (forall e c,
        code e = Some c ->
        (c = "ECONNREFUSED" ->
         formatError e = "ECONNREFUSED: Connection refused")
        /\ (c = "ECONNRESET" ->
            formatError e = "ECONNRESET: Connection reset")
        /\ (c = "ECONNABORTED" ->
            formatError e = "ECONNABORTED: Connection aborted")
        /\ (c = "ENOTFOUND" ->
            formatError e = "ENOTFOUND: Host not found")
        /\ (c = "ETIMEDOUT" ->
            formatError e = "ETIMEDOUT: Request timeout")).
Proof.
  split; [by intros r |].
  split; [intros e; repeat split; apply formatError_nonempty |].
  split; [apply formatError_with_code |].
  intros e c Hc.
  repeat split; intros ->;
    by rewrite (formatError_with_code e _ Hc).
Qed.

Lemma C5_makeRequest_outcomes_witness :
  statusCode
    (makeRequest 0
       (Resolved {| status := 503; statusText := "Service Unavailable";
                    resp_responseTime := Some 7; resp_bytes := None |}) 4)
  = Some 503
  /\ error (makeRequest 0 (Rejected example_reset) 5)
     = Some "ECONNRESET: Connection reset".
Proof.
  destruct (C5_makeRequest_outcomes 0 4) as (Hres & _).
  destruct (C5_makeRequest_outcomes 0 5) as (_ & Hrej & _ & Htable).
  split.
  - apply Hres.
  - destruct (Hrej example_reset) as (_ & _ & -> & _).
    destruct (Htable example_reset "ECONNRESET" eq_refl)
      as (_ & Hreset & _).
    by rewrite (Hreset eq_refl).
Defined.

Lemma filter_partition_perm {A} (f g : A -> bool) (l : list A) :
  Forall (fun x => g x = negb (f x)) l ->
  List.filter f l ++ List.filter g l ≡ₚ l.
Proof.
  induction 1 as [| x l Hx _ IH]; [done |].
  simpl. rewrite Hx. destruct (f x); simpl.
  - by rewrite IH.
  - rewrite <- Permutation_middle. by rewrite IH.
Qed.

Lemma is_successful_spec (r : RequestResult) :
  is_successful r = true
  <-> exists c, statusCode r = Some c /\ c <> 0 /\ c < 400.
Proof.
  unfold is_successful. destruct (statusCode r) as [c |]; simpl.
  - destruct (Z.eqb_spec c 0), (Z.ltb_spec c 400); simpl.
    + split; [done |]. intros (c' & [= <-] & ? & _). lia.
    + split; [done |]. intros (c' & [= <-] & ? & _). lia.
    + split; [| done]. intros _. by exists c.
    + split; [done |]. intros (c' & [= <-] & _ & ?). lia.
  - split; [done |]. by intros (c & [=] & _).
Qed.

Lemma is_failed_spec (r : RequestResult) :
  one_outcome r ->
  is_failed r = true
  <-> is_Some (error r)
      \/ exists c, statusCode r = Some c /\ (c = 0 \/ 400 <= c).
Proof.
  unfold one_outcome, is_failed.
  intros [[[c Hc] He] | [Hc [e He]]]; rewrite Hc, He; simpl.
  - rewrite orb_false_r.
    destruct (Z.eqb_spec c 0), (Z.leb_spec 400 c); simpl.
    + split; [| done]. intros _. right. exists c. auto.
    + split; [| done]. intros _. right. exists c. auto.
    + split; [| done]. intros _. right. exists c. auto.
    + split; [done |].
      intros [[? [=]] | (c' & [= <-] & [? | ?])]; lia.
  - split; [| done]. intros _. left. by exists e.
Qed.

(** C10.  Every result of [makeRequest] has exactly one of [statusCode]
    and [error].  The successfulRequests and failedRequests of the
    statistics are the numbers of results that pass the success test and
    the failure test; a result is successful exactly when it has a status
    code below 400 (and other than 0, which the test takes for absent),
    and a result with one outcome is failed exactly when it has an error
    or a status code of 400 or more (or 0).  Over any collection of
    results with one outcome each result passes exactly one of the two
    tests, the successful and the failed results together are the
    collection, and successfulRequests + failedRequests = totalRequests;
    this holds in particular for the statistics of every run that
    returns. *)
Theorem C10_success_failure_partition :
  (forall ts o i, one_outcome (makeRequest ts o i))
  /\ (forall rs startT endT,
        Forall one_outcome rs ->
        Forall (fun r => is_failed r = negb (is_successful r)) rs
        /\ successfulRequests (calculateStats rs startT endT)
           + failedRequests (calculateStats rs startT endT)
           = st_totalRequests (calculateStats rs startT endT))
  /\ (forall fuel env config res tr,
        validateConfig config = None ->
        run fuel env config = Returned res tr ->
        successfulRequests (stats res) + failedRequests (stats res)
        = st_totalRequests (stats res)
        /\ st_totalRequests (stats res) = totalRequests config
        /\ successfulRequests (stats res)
           = count_where is_successful (requests res)
        /\ failedRequests (stats res)
           = count_where is_failed (requests res))
  /\ (forall rs startT endT,
        successfulRequests (calculateStats rs startT endT)
        = count_where is_successful rs
        /\ failedRequests (calculateStats rs startT endT)
           = count_where is_failed rs
        /\ st_totalRequests (calculateStats rs startT endT)
           = Z.of_nat (length rs))
  /\ (forall r,
        is_successful r = true
        <-> exists c, statusCode r = Some c /\ c <> 0 /\ c < 400)
  /\ (forall r,
        one_outcome r ->
        is_failed r = true
        <-> is_Some (error r)
            \/ exists c, statusCode r = Some c /\ (c = 0 \/ 400 <= c))
  /\ (forall rs,
        Forall one_outcome rs ->
        List.filter is_successful rs ++ List.filter is_failed rs ≡ₚ rs
        /\ forall r, r ∈ rs ->
             (is_successful r = true /\ is_failed r = false)
             \/ (is_successful r = false /\ is_failed r = true)).
Proof.
  assert (Hneg : forall rs,
             Forall one_outcome rs ->
             Forall (fun r => is_failed r = negb (is_successful r)) rs).
  { intros rs Hshape. eapply Forall_impl; [exact Hshape |].
    apply failed_not_successful. }
  assert (Hpart : forall rs startT endT,
             Forall one_outcome rs ->
             Forall (fun r => is_failed r = negb (is_successful r)) rs
             /\ successfulRequests (calculateStats rs startT endT)
                + failedRequests (calculateStats rs startT endT)
                = st_totalRequests (calculateStats rs startT endT)).
  { intros rs startT endT Hshape.
    split; [by apply Hneg |]. simpl.
    pose proof (filter_partition_length is_successful is_failed rs
                  (Hneg rs Hshape)).
    lia. }
  split; [apply makeRequest_one_outcome |]. split; [exact Hpart |].
  split.
  { intros fuel env config res tr Hvalid. unfold run.
    destruct (executePattern fuel env config initializeTest)
      as [st | |] eqn:Hexec; try done.
    intros [= <- _].
    pose proof (executePattern_results env config fuel st Hvalid Hexec)
      as Hres.
    pose proof (validateConfig_ok _ Hvalid) as (_ & _ & Htotal & _).
    split.
    - apply Hpart. simpl. rewrite Hres.
      apply Forall_fmap, Forall_forall. intros i _.
      apply makeRequest_one_outcome.
    - split; [| done]. simpl. rewrite Hres, length_fmap, length_seqZ. lia. }
  split; [done |].
  split; [apply is_successful_spec |].
  split; [apply is_failed_spec |].
  intros rs Hshape. split.
  - apply filter_partition_perm. by apply Hneg.
  - intros r Hr. rewrite Forall_forall in Hshape.
    pose proof (failed_not_successful r (Hshape r Hr)) as Hr'.
    rewrite Hr'. destruct (is_successful r); auto.
Qed.

Lemma C10_success_failure_partition_witness :
  Forall one_outcome
    [ makeRequest 0 (Resolved example_response) 0;
      makeRequest 0 (Rejected example_reset) 1 ]
  /\ successfulRequests
       (calculateStats
          [ makeRequest 0 (Resolved example_response) 0;
            makeRequest 0 (Rejected example_reset) 1 ] 0 10)
     + failedRequests
         (calculateStats
            [ makeRequest 0 (Resolved example_response) 0;
              makeRequest 0 (Rejected example_reset) 1 ] 0 10)
     = 2.
Proof.
  destruct C10_success_failure_partition as (Hone & Hpart & _).
  assert (Hshape : Forall one_outcome
            [ makeRequest 0 (Resolved example_response) 0;
              makeRequest 0 (Rejected example_reset) 1 ]).
  { constructor; [apply Hone |]. constructor; [apply Hone |]. constructor. }
  split; [exact Hshape |].
  destruct (Hpart _ 0 10 Hshape) as [_ Hsum]. exact Hsum.
Defined.

(** ** Percentiles *)

Lemma sortedResponseTimes_sorted rs :
  StronglySorted Z.le (sortedResponseTimes rs).
Proof. apply (StronglySorted_merge_sort Z.le). Qed.

Lemma sortedResponseTimes_perm rs :
  sortedResponseTimes rs
  ≡ₚ map responseTime (List.filter (fun r => 0 <? responseTime r) rs).
Proof. apply (merge_sort_Permutation Z.le). Qed.

Lemma sorted_lookup_le (l : list Z) (i j : nat) (x y : Z) :
  StronglySorted Z.le l ->
  l !! i = Some x -> l !! j = Some y -> (i <= j)%nat -> x <= y.
Proof.
  intros Hs Hi Hj Hle.
  destruct (decide (i = j)) as [-> | Hne].
  - rewrite Hi in Hj. injection Hj as ->. lia.
  - rewrite <- (take_drop j l) in Hs.
    eapply (StronglySorted_app_1_elem_of Z.le); [exact Hs | |].
    + apply list_elem_of_lookup. exists i.
      rewrite lookup_take_lt by lia. exact Hi.
    + apply list_elem_of_lookup. exists 0%nat.
      rewrite lookup_drop. by rewrite Nat.add_0_r.
Qed.

(** The array access of [calculatePercentile] is always in range. *)
Lemma percentile_in_range (l : list Z) (p : Z) :
  l <> [] ->
  l !! Z.to_nat (nearest_rank_index (Z.of_nat (length l)) p)
  = Some (calculatePercentile l p).
Proof.
  intros Hne. unfold calculatePercentile, nearest_rank_index.
  assert (Hlen : 1 <= Z.of_nat (length l)).
  { destruct l; [done | simpl; lia]. }
  destruct (Z.eqb_spec (Z.of_nat (length l)) 0); [lia |].
  rewrite clamp_max_min by lia.
  set (k := Z.to_nat _).
  assert (Hk : (k < length l)%nat).
  { unfold k, clamp.
    destruct (Z.ltb_spec (ceil_div (p * Z.of_nat (length l)) 100 - 1) 0);
      [lia |].
    destruct (Z.ltb_spec (Z.of_nat (length l) - 1)
                (ceil_div (p * Z.of_nat (length l)) 100 - 1)); lia. }
  destruct (lookup_lt_is_Some_2 _ _ Hk) as [v Hv]. by rewrite Hv.
Qed.

Lemma nearest_rank_index_mono (n p q : Z) :
  1 <= n -> p <= q ->
  0 <= nearest_rank_index n p <= nearest_rank_index n q
  /\ nearest_rank_index n q <= n - 1.
Proof.
  intros Hn Hpq. unfold nearest_rank_index, clamp.
  assert (ceil_div (p * n) 100 <= ceil_div (q * n) 100)
    by (apply ceil_div_mono; nia).
  destruct (Z.ltb_spec (ceil_div (p * n) 100 - 1) 0),
    (Z.ltb_spec (ceil_div (q * n) 100 - 1) 0),
    (Z.ltb_spec (n - 1) (ceil_div (p * n) 100 - 1)),
    (Z.ltb_spec (n - 1) (ceil_div (q * n) 100 - 1)); lia.
Qed.

Lemma calculatePercentile_mono (l : list Z) (p q : Z) :
  StronglySorted Z.le l -> p <= q ->
  calculatePercentile l p <= calculatePercentile l q.
Proof.
  intros Hs Hpq. destruct l as [| x l]; [done |].
  assert (Hne : x :: l <> []) by done.
  pose proof (percentile_in_range (x :: l) p Hne) as Hp.
  pose proof (percentile_in_range (x :: l) q Hne) as Hq.
  assert (Hn : 1 <= Z.of_nat (length (x :: l))) by (simpl; lia).
  pose proof (nearest_rank_index_mono _ p q Hn Hpq) as Hidx.
  eapply sorted_lookup_le; [exact Hs | exact Hp | exact Hq | lia].
Qed.

Lemma calculatePercentile_le_last (l : list Z) (p : Z) :
  StronglySorted Z.le l ->
  calculatePercentile l p
  <= or_zero (l !! Z.to_nat (Z.of_nat (length l) - 1)).
Proof.
  intros Hs. destruct l as [| x l]; [done |].
  assert (Hne : x :: l <> []) by done.
  pose proof (percentile_in_range (x :: l) p Hne) as Hp.
  assert (Hn : 1 <= Z.of_nat (length (x :: l))) by (simpl; lia).
  pose proof (nearest_rank_index_mono _ p p Hn ltac:(lia)) as Hidx.
  assert (Hk : (Z.to_nat (Z.of_nat (length (x :: l)) - 1)
                < length (x :: l))%nat) by lia.
  destruct (lookup_lt_is_Some_2 _ _ Hk) as [v Hv]. rewrite Hv. simpl.
  eapply sorted_lookup_le; [exact Hs | exact Hp | exact Hv | lia].
Qed.

Lemma count_le_app (v : Z) (l1 l2 : list Z) :
  count_le v (l1 ++ l2) = count_le v l1 + count_le v l2.
Proof.
  unfold count_le. rewrite List.filter_app, length_app. lia.
Qed.

Lemma count_le_all (v : Z) (l : list Z) :
  Forall (fun x => x <= v) l -> count_le v l = Z.of_nat (length l).
Proof.
  unfold count_le. induction 1 as [| x l Hx _ IH]; [done |]. simpl.
  destruct (Z.leb_spec x v); [| lia]. simpl. lia.
Qed.

Lemma count_le_none (v : Z) (l : list Z) :
  Forall (fun x => v < x) l -> count_le v l = 0.
Proof.
  unfold count_le. induction 1 as [| x l Hx _ IH]; [done |]. simpl.
  destruct (Z.leb_spec x v); [lia | done].
Qed.

Lemma count_le_bounds (v : Z) (l : list Z) :
  0 <= count_le v l <= Z.of_nat (length l).
Proof.
  unfold count_le. split; [lia |].
  induction l as [| x l IH]; simpl; [lia |].
  destruct (x <=? v); simpl; lia.
Qed.

(** In a sorted sample the element at position [i] has at least [i + 1]
    elements at or below it, and a smaller value has at most [i]. *)
Lemma count_le_sorted (l : list Z) (i : nat) (v : Z) :
  StronglySorted Z.le l ->
  l !! i = Some v ->
  Z.of_nat (S i) <= count_le v l
  /\ forall u, u < v -> count_le u l <= Z.of_nat i.
Proof.
  intros Hs Hi.
  assert (Hlt : (i < length l)%nat) by (by eapply lookup_lt_Some).
  split.
  - rewrite <- (take_drop (S i) l), count_le_app.
    rewrite count_le_all.
    + rewrite length_take. pose proof (count_le_bounds v (drop (S i) l)).
      lia.
    + apply Forall_forall. intros x Hx.
      apply list_elem_of_lookup in Hx as [j Hj].
      assert (j < S i)%nat by (apply lookup_lt_Some in Hj;
                               rewrite length_take in Hj; lia).
      rewrite lookup_take_lt in Hj by lia.
      eapply sorted_lookup_le; [exact Hs | exact Hj | exact Hi | lia].
  - intros u Hu.
    rewrite <- (take_drop i l), count_le_app.
    rewrite (count_le_none u (drop i l)).
    + pose proof (count_le_bounds u (take i l)) as Hb.
      rewrite length_take in Hb. lia.
    + apply Forall_forall. intros y Hy.
      apply list_elem_of_lookup in Hy as [j Hj].
      rewrite lookup_drop in Hj.
      assert (v <= y)
        by (eapply sorted_lookup_le; [exact Hs | exact Hi | exact Hj | lia]).
      lia.
Qed.

(** C6.  The percentiles are nearest-rank, without interpolation.  The
    sample is the elapsed times > 0 of the results, sorted ascending; over
    an empty sample the percentile is 0; over a sample of size n > 0 it is
    the element of the sample at index ceil (p / 100 * n) - 1 clamped to
    [0, n - 1], an index that is always in range.  For 0 < p <= 100 this
    is the nearest rank: at least p% of the sample is at or below it, and
    less than p% is at or below any smaller value.  The statistics take
    their p50, p95 and p99 this way. *)
Theorem C6_nearest_rank_percentile (rs : list RequestResult) (p : Z) :
  Sorted Z.le (sortedResponseTimes rs)
  /\ sortedResponseTimes rs
     ≡ₚ map responseTime (List.filter (fun r => 0 <? responseTime r) rs)
  /\ (sortedResponseTimes rs = [] ->
      calculatePercentile (sortedResponseTimes rs) p = 0)
  /\ (sortedResponseTimes rs <> [] ->
      sortedResponseTimes rs
        !! Z.to_nat (nearest_rank_index
                       (Z.of_nat (length (sortedResponseTimes rs))) p)
      = Some (calculatePercentile (sortedResponseTimes rs) p))
  /\ (sortedResponseTimes rs <> [] -> 0 < p <= 100 ->
      p * Z.of_nat (length (sortedResponseTimes rs))
      <= 100 * count_le (calculatePercentile (sortedResponseTimes rs) p)
                 (sortedResponseTimes rs)
      /\ forall u,
           u < calculatePercentile (sortedResponseTimes rs) p ->
           100 * count_le u (sortedResponseTimes rs)
           < p * Z.of_nat (length (sortedResponseTimes rs)))
  /\ (forall startT endT,
        p50ResponseTime (calculateStats rs startT endT)
        = calculatePercentile (sortedResponseTimes rs) 50
        /\ p95ResponseTime (calculateStats rs startT endT)
           = calculatePercentile (sortedResponseTimes rs) 95
        /\ p99ResponseTime (calculateStats rs startT endT)
           = calculatePercentile (sortedResponseTimes rs) 99).
Proof.
  pose proof (sortedResponseTimes_sorted rs) as Hs.
  split; [by apply StronglySorted_Sorted |].
  split; [apply sortedResponseTimes_perm |].
  split; [by intros -> |].
  split; [apply percentile_in_range |].
  split; [| done].
  intros Hne Hp.
  pose proof (percentile_in_range _ p Hne) as Hlookup.
  set (l := sortedResponseTimes rs) in *.
  set (n := Z.of_nat (length l)) in *.
  assert (Hn : 1 <= n) by (unfold n; destruct l; [done | simpl; lia]).
  pose proof (ceil_div_bounds (p * n) 100 ltac:(lia)) as Hc.
  assert (Hidx : nearest_rank_index n p = ceil_div (p * n) 100 - 1).
  { unfold nearest_rank_index, clamp.
    destruct (Z.ltb_spec (ceil_div (p * n) 100 - 1) 0); [nia |].
    destruct (Z.ltb_spec (n - 1) (ceil_div (p * n) 100 - 1)); [nia | done]. }
  assert (Hnn : 0 <= nearest_rank_index n p) by (rewrite Hidx; nia).
  destruct (count_le_sorted l _ _ Hs Hlookup) as [Hge Hlt].
  split.
  - lia.
  - intros u Hu. specialize (Hlt u Hu). lia.
Qed.

Lemma C6_nearest_rank_percentile_witness :
  calculatePercentile
    (sortedResponseTimes
       [ makeRequest 0 (Resolved example_response) 0;
         makeRequest 0 (Rejected example_reset) 1;
         makeRequest 0 (Resolved example_response) 2 ]) 50
  = 12
  /\ sortedResponseTimes
       [ makeRequest 0 (Resolved example_response) 0;
         makeRequest 0 (Rejected example_reset) 1;
         makeRequest 0 (Resolved example_response) 2 ]
       !! Z.to_nat (nearest_rank_index 3 50)
     = Some 12.
Proof.
  destruct (C6_nearest_rank_percentile
              [ makeRequest 0 (Resolved example_response) 0;
                makeRequest 0 (Rejected example_reset) 1;
                makeRequest 0 (Resolved example_response) 2 ] 50)
    as (_ & _ & _ & Hlookup & _).
  split; [reflexivity |].
  exact (Hlookup ltac:(discriminate)).
Defined.

(** C7.  The statistics of any result collection, and so of any
    non-empty response-time sample, have
    p50ResponseTime <= p95ResponseTime <= p99ResponseTime
    <= maxResponseTime. *)
Theorem C7_percentile_monotone (rs : list RequestResult)
  (startT endT : Z) :
  p50ResponseTime (calculateStats rs startT endT)
  <= p95ResponseTime (calculateStats rs startT endT)
  /\ p95ResponseTime (calculateStats rs startT endT)
     <= p99ResponseTime (calculateStats rs startT endT)
  /\ p99ResponseTime (calculateStats rs startT endT)
     <= maxResponseTime (calculateStats rs startT endT).
Proof.
  pose proof (sortedResponseTimes_sorted rs) as Hs. simpl.
  split; [apply calculatePercentile_mono; [done | lia] |].
  split; [apply calculatePercentile_mono; [done | lia] |].
  by apply calculatePercentile_le_last.
Qed.

(** ** The semaphore in a phase *)

Lemma start_task_view ph g (i : nat) :
  phase_view ph g -> phase_view (start_task ph i) (ghost_acquire i g).
Proof.
  intros [Hsem Hhold]. unfold phase_view, start_task, ghost_acquire.
  rewrite Hsem, Hhold. by destruct (acquire i (sem ph)) as [s []].
Qed.

Lemma finish_task_view env startIndex ph g (k : nat) :
  phase_view ph g ->
  finish_task env startIndex ph k = ph
  \/ exists pos t,
       holders g !! pos = Some t
       /\ phase_view (finish_task env startIndex ph k) (ghost_release pos g).
Proof.
  intros [Hsem Hhold]. unfold finish_task.
  destruct (inflight ph !! (k mod length (inflight ph))%nat) as [t |] eqn:Ht;
    [right | by left].
  exists (k mod length (inflight ph))%nat, t.
  split; [by rewrite Hhold |].
  unfold phase_view, ghost_release. rewrite Hsem, Hhold.
  by destruct (release (sem ph)) as [s w].
Qed.

(** Every state of a phase is a state of the semaphore protocol. *)
Lemma phase_reachable env startIndex conc (i j : nat) :
  exists g,
    sem_reachable conc g
    /\ phase_view (phase_state env startIndex conc i j) g.
Proof.
  induction j as [| j IHj].
  - induction i as [| i IHi].
    + exists (sem_init conc). split; [apply rtc_refl | done].
    + destruct IHi as (g & Hreach & Hview).
      exists (ghost_acquire i g). split.
      * eapply rtc_r; [exact Hreach | constructor].
      * rewrite phase_state_S_start. by apply start_task_view.
  - destruct IHj as (g & Hreach & Hview).
    rewrite phase_state_S_finish.
    destruct (finish_task_view env startIndex _ g
                (pick env startIndex j) Hview)
      as [Hsame | (pos & t & Hpos & Hview')].
    + exists g. by rewrite Hsame.
    + exists (ghost_release pos g). split; [| done].
      eapply rtc_r; [exact Hreach | by econstructor].
Qed.

Lemma phase_inflight_bound env startIndex conc (i j : nat) :
  Z.of_nat (length (inflight (phase_state env startIndex conc i j)))
  <= Z.max 1 conc.
Proof.
  destruct (phase_reachable env startIndex conc i j)
    as (g & Hreach & _ & Hhold).
  apply sem_reachable_inv in Hreach as (Hnn & Hsum & _).
  rewrite <- Hhold. lia.
Qed.

(** C9.  In every state that the acquire/release steps of a semaphore
    created with C permits can reach, at most max (1, C) callers hold a
    permit, and the callers still waiting are those suspended and not yet
    resumed, in the order of their suspension.  When somebody waits,
    [release] passes the permit to the caller at the head of the queue,
    the one waiting longest, and the counter stays at 0, so that a caller
    that acquires afterwards is queued behind the others.  Every state of
    a phase is such a state; in particular a burst with concurrency
    C >= 1 never has more than C requests unresolved. *)
Theorem C9_semaphore_bound_fifo :
  (forall p g,
     sem_reachable p g ->
     Z.of_nat (length (holders g)) <= Z.max 1 p
     /\ suspended g = resumed g ++ waitQueue (g_sem g)
     /\ forall w rest k late,
          waitQueue (g_sem g) = w :: rest ->
          holders (ghost_release k g) = delete k (holders g) ++ [w]
          /\ resumed (ghost_release k g) = resumed g ++ [w]
          /\ waitQueue (g_sem (ghost_release k g)) = rest
          /\ permits (g_sem (ghost_release k g)) = 0
          /\ acquire late (g_sem (ghost_release k g))
             = ({| permits := 0; waitQueue := rest ++ [late] |}, false))
  /\ (forall env startIndex conc i j,
        (exists g,
           sem_reachable conc g
           /\ phase_view (phase_state env startIndex conc i j) g)
        /\ Z.of_nat
             (length (inflight (phase_state env startIndex conc i j)))
           <= Z.max 1 conc)
  /\ (forall env config j,
        1 <= concurrency config ->
        Z.of_nat
          (length
             (inflight
                (phase_state env 0 (concurrency config)
                   (Z.to_nat (totalRequests config)) j)))
        <= concurrency config).
Proof.
  split; [| split].
  - intros p g Hreach.
    apply sem_reachable_inv in Hreach as (Hnn & Hsum & Hq & Hlog).
    split; [lia |]. split; [exact Hlog |].
    intros w rest k late Hqueue.
    assert (Hzero : permits (g_sem g) = 0) by (apply Hq; by rewrite Hqueue).
    unfold ghost_release, release, acquire. rewrite Hqueue. simpl.
    rewrite Hzero. simpl. done.
  - intros env startIndex conc i j.
    split; [apply phase_reachable | apply phase_inflight_bound].
  - intros env config j Hc.
    pose proof (phase_inflight_bound env 0 (concurrency config)
                  (Z.to_nat (totalRequests config)) j).
    lia.
Qed.

Lemma C9_semaphore_bound_fifo_witness :
  sem_reachable 2
    (ghost_acquire 2 (ghost_acquire 1 (ghost_acquire 0 (sem_init 2))))
  /\ Z.of_nat
       (length
          (holders
             (ghost_acquire 2
                (ghost_acquire 1 (ghost_acquire 0 (sem_init 2))))))
     <= Z.max 1 2
  /\ holders
       (ghost_release 0
          (ghost_acquire 2 (ghost_acquire 1 (ghost_acquire 0 (sem_init 2)))))
     = [1; 2]%nat.
Proof.
  assert (Hreach : sem_reachable 2
            (ghost_acquire 2
               (ghost_acquire 1 (ghost_acquire 0 (sem_init 2))))).
  { unfold sem_reachable.
    eapply rtc_l; [apply step_acquire |].
    eapply rtc_l; [apply step_acquire |].
    eapply rtc_l; [apply step_acquire |].
    apply rtc_refl. }
  destruct C9_semaphore_bound_fifo as (Hsem & _).
  destruct (Hsem 2 _ Hreach) as (Hbound & _ & Hfifo).
  split; [exact Hreach |]. split; [exact Hbound |].
  destruct (Hfifo 2%nat [] 0%nat 3%nat eq_refl) as (Hhold & _).
  exact Hhold.
Defined.

(** ** Arithmetic conventions

    The integer expressions of this file against the binary64 evaluation
    of the source, over the ranges a machine check covers.  Percentiles are
    taken at 50, 95 and 99 only ([calculatePercentile] is private and these
    are its three call sites); at other percentiles the float product can
    land just above an integer (7% of 100 samples is one), which the exact
    product does not. *)

Lemma agree_upto_spec (bound : Z) (f : Z -> option Z) (g : Z -> Z) :
  agree_upto bound f g = true ->
  forall n, 0 <= n <= bound -> f n = Some (g n).
Proof.
  unfold agree_upto. rewrite forallb_forall. intros Hall n Hn.
  eapply bool_decide_eq_true_1, Hall.
  apply list_elem_of_In, elem_of_seqZ. lia.
Qed.

Lemma floor_mul_0_8_binary64 (n : Z) :
  0 <= n <= 2000 -> js_floor_mul_0_8 n = Some (floor_mul_0_8 n).
Proof. apply agree_upto_spec. vm_compute. reflexivity. Qed.

Lemma floor_mul_0_3_binary64 (c : Z) :
  0 <= c <= 2000 -> js_floor_mul_0_3 c = Some (floor_mul_0_3 c).
Proof. apply agree_upto_spec. vm_compute. reflexivity. Qed.

Lemma percentile_rank_binary64 (len : Z) :
  0 <= len <= 2000 ->
  js_percentile_rank 50 len = Some (ceil_div (50 * len) 100)
  /\ js_percentile_rank 95 len = Some (ceil_div (95 * len) 100)
  /\ js_percentile_rank 99 len = Some (ceil_div (99 * len) 100).
Proof.
  intros Hlen. repeat split.
  - revert len Hlen.
    apply (agree_upto_spec 2000 (js_percentile_rank 50)
             (fun len => ceil_div (50 * len) 100)).
    vm_compute. reflexivity.
  - revert len Hlen.
    apply (agree_upto_spec 2000 (js_percentile_rank 95)
             (fun len => ceil_div (95 * len) 100)).
    vm_compute. reflexivity.
  - revert len Hlen.
    apply (agree_upto_spec 2000 (js_percentile_rank 99)
             (fun len => ceil_div (99 * len) 100)).
    vm_compute. reflexivity.
Qed.

Lemma ceil_quotient_binary64 (a b : Z) :
  0 <= a <= 100 -> 1 <= b <= 20 ->
  js_ceil_quotient a b = Some (ceil_div a b).
Proof.
  intros Ha Hb.
  assert (Hall : forallb
            (fun b => agree_upto 100 (fun a => js_ceil_quotient a b)
                        (fun a => ceil_div a b))
            (seqZ 1 20) = true) by (vm_compute; reflexivity).
  rewrite forallb_forall in Hall.
  apply (agree_upto_spec 100 (fun a => js_ceil_quotient a b)
           (fun a => ceil_div a b)); [| done].
  apply Hall, list_elem_of_In, elem_of_seqZ. lia.
Qed.

(** At percentile 7 the float and the exact rank differ. *)
Example percentile_rank_binary64_other :
  js_percentile_rank 7 100 = Some 8 /\ ceil_div (7 * 100) 100 = 7.
Proof. split; vm_compute; reflexivity. Qed.

(** ** Worked examples *)

(** A burst of five requests at concurrency 2: results come back in index
    order although the requests complete as 1, 0, 3, 2, 4. *)
Example burst_example :
  index <$> completed (phase_state example_env 0 2 5 5) = [1; 0; 3; 2; 4]
  /\ index <$> makeConcurrentRequests example_env 0 5 2 = [0; 1; 2; 3; 4]
  /\ statusCode <$> makeConcurrentRequests example_env 0 5 2
     = [Some 200; None; Some 200; None; Some 200].
Proof. repeat split; vm_compute; reflexivity. Qed.

(** Three waves of 8, 8 and 9 requests, 2000 apart. *)
Example wave_example :
  exists res,
    run 0 example_env (example_config wave 25 10)
    = Returned res
        [ Dispatch 0 8 10; Sleep (inject_Z 2000);
          Dispatch 8 8 10; Sleep (inject_Z 2000);
          Dispatch 16 9 10 ]
    /\ successfulRequests (stats res) = 13
    /\ failedRequests (stats res) = 12
    /\ p50ResponseTime (stats res) = 12
    /\ maxResponseTime (stats res) = 12.
Proof. eexists. split; [vm_compute; reflexivity | done]. Qed.

Example calculatePercentile_example :
  calculatePercentile [10; 20; 30; 40] 50 = 20
  /\ calculatePercentile [10; 20; 30; 40] 95 = 40
  /\ calculatePercentile [10; 20; 30; 40] 99 = 40
  /\ calculatePercentile [] 50 = 0.
Proof. repeat split. Qed.

(** The constructor lets a timeout of 0 through, and rejects a negative
    one. *)
Example validateConfig_timeout_example :
  validateConfig
    {| url := Some "http://localhost:3000"; concurrency := 1;
       totalRequests := 1; duration := None; delay := None;
       timeout := Some 0; pattern := None; rampUp := None |}
  = None
  /\ validateConfig
       {| url := Some "http://localhost:3000"; concurrency := 1;
          totalRequests := 1; duration := None; delay := None;
          timeout := Some (-1); pattern := None; rampUp := None |}
     = Some "Timeout must be greater than 0".
Proof. split; reflexivity. Qed.

(** A ramp-up whose step is negative: after plateaus of 10 and 5 requests
    the concurrency is 0, and the loop turns without dispatching and
    without end; no amount of fuel makes the run return. *)
Example rampUp_negative_step_example (fuel : nat) :
  run fuel example_env example_falling_config = NoReturn.
Proof.
  assert (Hloop : forall st,
             rampUpLoop fuel example_env 100 20 (-5)
               (stepDuration example_falling_rampUp) 10 0 st
             = OutOfFuel).
  { intros st. destruct fuel as [| [| fuel']]; try reflexivity.
    rewrite rampUpLoop_S.
    change ((10 <=? 20) && (0 <? 100)) with true.
    change (10 <? 20) with true. cbv iota.
    rewrite rampUpLoop_S.
    change ((Z.min (10 + -5) 20 <=? 20)
            && (0 + Z.min 10 (100 - 0) <? 100)) with true.
    change (Z.min (10 + -5) 20 <? 20) with true. cbv iota.
    apply rampUpLoop_diverges; lia. }
  change (match
            rampUpLoop fuel example_env 100 20 (-5)
              (stepDuration example_falling_rampUp) 10 0 initializeTest
          with
          | Done st =>
              Returned (finalizeTest example_env example_falling_config st)
                (trace st)
          | Threw msg st => Raised msg st
          | OutOfFuel => NoReturn
          end = NoReturn).
  by rewrite Hloop.
Qed.

(** * More of the code *)

(** ** Waves, and the phases of every pattern *)

Lemma executeWavePattern_trace env config :
  trace (executeWavePattern env config initializeTest) = wave_trace config.
Proof.
  unfold executeWavePattern, wave_trace.
  change (seqZ 0 3) with [0; 1; 2]. cbn [foldl].
  change (0 =? 3 - 1) with false. change (1 =? 3 - 1) with false.
  change (2 =? 3 - 1) with true.
  change (0 <? 3 - 1) with true. change (1 <? 3 - 1) with true.
  change (2 <? 3 - 1) with false. cbv iota.
  rewrite Z.mul_0_l, Z.mul_1_l. reflexivity.
Qed.

(** X1.  A wave run has three waves whatever the total: the first two
    dispatch floor (totalRequests / 3) requests each and the third what is
    left, which is at least as much and at most 2 more; 2000 is awaited
    after the first and after the second wave, not after the third.  With
    fewer than 3 requests the first two waves are dispatched empty, and
    the two pauses are still awaited. *)
Theorem X1_wave_schedule (env : Env) (config : StressTestConfig)
  (fuel : nat) :
  validateConfig config = None ->
  pattern config = Some wave ->
  exists res,
    run fuel env config = Returned res (wave_trace config)
    /\ totalRequests config / 3
       <= totalRequests config - 2 * (totalRequests config / 3)
       <= totalRequests config / 3 + 2
    /\ (totalRequests config < 3 ->
        dispatches (wave_trace config)
        = [ (0, 0, concurrency config); (0, 0, concurrency config);
            (0, totalRequests config, concurrency config) ]).
Proof.
  intros Hvalid Hpattern.
  pose proof (validateConfig_ok _ Hvalid) as (_ & _ & Htotal & _).
  exists (finalizeTest env config
            (executeWavePattern env config initializeTest)).
  split; [| split].
  - unfold run, executePattern. rewrite Hpattern.
    change (default sustained (Some wave)) with wave. cbv iota.
    by rewrite executeWavePattern_trace.
  - pose proof (Z.div_mod (totalRequests config) 3 ltac:(lia)).
    pose proof (Z.mod_pos_bound (totalRequests config) 3 ltac:(lia)).
    lia.
  - intros Hsmall. unfold wave_trace.
    rewrite (Z.div_small (totalRequests config) 3) by lia.
    simpl. by rewrite Z.sub_0_r.
Qed.

Lemma X1_wave_schedule_witness :
  exists res,
    run 0 example_env (example_config wave 2 10)
    = Returned res
        [ Dispatch 0 0 10; Sleep (inject_Z 2000);
          Dispatch 0 0 10; Sleep (inject_Z 2000);
          Dispatch 0 2 10 ].
Proof.
  destruct (X1_wave_schedule example_env (example_config wave 2 10) 0
              eq_refl eq_refl) as (res & Hrun & _).
  exists res. exact Hrun.
Defined.

Lemma phases_from_app idx ds1 ds2 mid stop :
  phases_from idx ds1 mid ->
  phases_from mid ds2 stop ->
  phases_from idx (ds1 ++ ds2) stop.
Proof.
  revert idx. induction ds1 as [| [[s n] c] ds1 IH]; intros idx; simpl.
  - by intros ->.
  - intros (Hs & Hn & Hrest) Hmid. repeat split; try done. by apply IH.
Qed.

Lemma sustained_schedule_phases conc total pause idx tr :
  0 < conc ->
  dispatches pause = [] ->
  sustained_schedule conc total pause idx tr ->
  phases_from idx (dispatches tr) total.
Proof.
  intros Hconc Hpause.
  induction 1 as [idx Hlt Hle | idx tr Hlt Hsched IH]; simpl.
  - repeat split; lia.
  - rewrite dispatches_app, Hpause. simpl. repeat split; [lia | exact IH].
Qed.

Section RampUpPhases.

Variables (env : Env) (total endC stp : Z) (d : Q).

(** Whenever the ramp-up loop ends, the phases it dispatched follow one
    another up to [total]. *)
Lemma rampUpLoop_phases :
  0 < endC ->
  forall fuel cur idx st st',
    0 < cur <= endC ->
    idx <= total ->
    rampUpLoop fuel env total endC stp d cur idx st = Done st' ->
    exists tr,
      trace st' = trace st ++ tr
      /\ phases_from idx (dispatches tr) total.
Proof.
  intros Hend. induction fuel as [| fuel IH];
    intros cur idx st st' Hcur Hidx; [done |].
  rewrite rampUpLoop_S.
  destruct (Z.leb_spec cur endC); [| lia].
  destruct (Z.ltb_spec idx total) as [Hlt | Hge]; simpl.
  2: { intros [= <-]. exists []. rewrite app_nil_r. simpl.
       split; [done | lia]. }
  set (n := Z.min cur (total - idx)).
  assert (Hn : 0 < n) by lia.
  destruct (Z.ltb_spec cur endC) as [Hclimb | Hhold].
  - destruct (Z.le_gt_cases (Z.min (cur + stp) endC) 0) as [Hneg | Hpos].
    + destruct (Z.le_gt_cases total (idx + n)) as [Hdone | Hmore].
      * intros Hloop. apply rampUpLoop_exhausted in Hloop; [| lia].
        subst st'. exists [Dispatch idx n cur; Sleep d]. simpl.
        split; [by rewrite <- app_assoc |]. repeat split; lia.
      * intros Hloop. exfalso.
        eapply rampUpLoop_stuck; [| | | | exact Hloop]; lia.
    + intros Hloop.
      apply IH in Hloop as (tr & Htr & Hphases); [| lia | lia].
      exists (Dispatch idx n cur :: Sleep d :: tr). simpl.
      split; [rewrite Htr; simpl; by rewrite <- !app_assoc |].
      repeat split; [lia | exact Hphases].
  - intros Hloop.
    apply IH in Hloop as (tr & Htr & Hphases); [| lia | lia].
    exists (Dispatch idx n cur :: tr). simpl.
    split; [rewrite Htr; simpl; by rewrite <- !app_assoc |].
    repeat split; [lia | exact Hphases].
Qed.

End RampUpPhases.

(** X2.  Whatever the pattern, the phases of a run that returns follow one
    another without gap or overlap: the first starts at index 0, each
    next one starts where the one before ended, none has a negative size,
    and the last ends at totalRequests. *)
Theorem X2_phases_contiguous (env : Env) (config : StressTestConfig)
  (fuel : nat) (res : StressTestResult) (tr : list Event) :
  validateConfig config = None ->
  run fuel env config = Returned res tr ->
  phases_from 0 (dispatches tr) (totalRequests config).
Proof.
  intros Hvalid.
  pose proof (validateConfig_ok _ Hvalid) as (_ & Hc & Ht & _).
  unfold run, executePattern.
  destruct (default sustained (pattern config)).
  - intros [= _ <-]. simpl. repeat split; lia.
  - intros [= _ <-].
    destruct (executeSustainedPattern_trace env config Hc Ht)
      as (tr' & -> & Hsched & _).
    eapply sustained_schedule_phases; [exact Hc | | exact Hsched].
    unfold sustained_pause. by destruct (truthy_num (delay config)).
  - unfold executeRampUpPattern.
    destruct (rampUp config) as [r |]; [| done].
    destruct (validateRampUpConfig r) eqn:Hr; [done |].
    apply validateRampUpConfig_ok in Hr as (Hs & He & _).
    destruct (rampUpLoop fuel env (totalRequests config) (endConcurrency r)
                (default 1 (step r)) (stepDuration r) (startConcurrency r)
                0 initializeTest) as [st | |] eqn:Hloop; try done.
    intros [= _ <-].
    destruct (rampUpLoop_phases env (totalRequests config)
                (endConcurrency r) (default 1 (step r)) (stepDuration r)
                ltac:(lia) fuel (startConcurrency r) 0 initializeTest st
                ltac:(lia) ltac:(lia) Hloop) as (tr' & Htr & Hphases).
    by rewrite Htr.
  - intros [= _ <-].
    simpl.
    assert (0 <= totalRequests config / 3) by (apply Z.div_pos; lia).
    pose proof (Z.mul_div_le (totalRequests config) 3 ltac:(lia)).
    repeat split; lia.
  - intros Hrun.
    assert (Htr : tr = trace (executeSpikePattern env config initializeTest))
      by congruence.
    rewrite Htr, executeSpikePattern_trace by done.
    pose proof (floor_mul_0_8_bounds _ Ht).
    unfold spike_trace. simpl. repeat split; lia.
Qed.

Lemma X2_phases_contiguous_witness :
  exists res tr,
    run 101 example_env (example_config ramp_up 100 10) = Returned res tr
    /\ dispatches tr
       = [ (0, 10, 10); (10, 20, 20); (30, 30, 30); (60, 40, 40) ]
    /\ phases_from 0 (dispatches tr) 100.
Proof.
  eexists _, _. split; [vm_compute; reflexivity |].
  split; [reflexivity |].
  eapply (X2_phases_contiguous example_env (example_config ramp_up 100 10)
            101); [reflexivity |].
  vm_compute. reflexivity.
Defined.

(** ** The distributions *)

Lemma count_where_filter {A} (f g : A -> bool) (l : list A) :
  count_where g (List.filter f l) = count_where (fun x => f x && g x) l.
Proof.
  unfold count_where. induction l as [| x l IH]; [done |]. simpl.
  destruct (f x); simpl; [| exact IH].
  destruct (g x); simpl; lia.
Qed.

Lemma count_where_cons {A} (f : A -> bool) (x : A) (l : list A) :
  count_where f (x :: l) = (if f x then 1 else 0) + count_where f l.
Proof. unfold count_where. simpl. destruct (f x); simpl; lia. Qed.

Lemma count_where_bounds {A} (f : A -> bool) (l : list A) :
  0 <= count_where f l <= Z.of_nat (length l).
Proof.
  unfold count_where. split; [lia |].
  induction l as [| x l IH]; simpl; [lia |].
  destruct (f x); simpl; lia.
Qed.

Lemma count_where_all {A} (f : A -> bool) (l : list A) :
  Forall (fun x => f x = true) l -> count_where f l = Z.of_nat (length l).
Proof.
  unfold count_where. induction 1 as [| x l Hx _ IH]; [done |].
  simpl. rewrite Hx. simpl. lia.
Qed.

Lemma count_where_none {A} (f : A -> bool) (l : list A) :
  Forall (fun x => f x = false) l -> count_where f l = 0.
Proof.
  unfold count_where. induction 1 as [| x l Hx _ IH]; [done |].
  simpl. by rewrite Hx.
Qed.

Lemma count_where_ext {A} (f g : A -> bool) (l : list A) :
  Forall (fun x => f x = g x) l -> count_where f l = count_where g l.
Proof.
  unfold count_where. induction 1 as [| x l Hx _ IH]; [done |].
  simpl. rewrite Hx. destruct (g x); simpl; lia.
Qed.

(** What a tally that starts from [d] holds at [key] in the end. *)
Lemma calculateErrorDistribution_fold (l : list RequestResult)
  (d : gmap string Z) (key : string) :
  foldl
    (fun (distribution : gmap string Z) r =>
       <[error_key r := or_zero (distribution !! error_key r) + 1]>
         distribution)
    d l !! key
  = if count_where (fun r => String.eqb (error_key r) key) l =? 0
    then d !! key
    else Some (or_zero (d !! key)
               + count_where (fun r => String.eqb (error_key r) key) l).
Proof.
  revert d. induction l as [| r l IH]; intros d; [done |].
  cbn [foldl]. rewrite IH. clear IH. rewrite count_where_cons.
  pose proof (count_where_bounds
                (fun r => String.eqb (error_key r) key) l) as Hb.
  destruct (String.eqb_spec (error_key r) key) as [-> | Hne].
  - rewrite lookup_insert_eq. simpl or_zero.
    destruct (Z.eqb_spec
                (count_where (fun r => String.eqb (error_key r) key) l) 0),
      (Z.eqb_spec
         (1 + count_where (fun r => String.eqb (error_key r) key) l) 0);
      try lia; f_equal; lia.
  - rewrite lookup_insert_ne by done. by rewrite Z.add_0_l.
Qed.

Lemma calculateErrorDistribution_lookup (l : list RequestResult)
  (key : string) :
  calculateErrorDistribution l !! key
  = if count_where (fun r => String.eqb (error_key r) key) l =? 0
    then None
    else Some (count_where (fun r => String.eqb (error_key r) key) l).
Proof.
  unfold calculateErrorDistribution.
  change (foldl _ ∅ l) with
    (foldl
       (fun (distribution : gmap string Z) r =>
          <[error_key r := or_zero (distribution !! error_key r) + 1]>
            distribution) ∅ l).
  rewrite calculateErrorDistribution_fold, lookup_empty. simpl.
  by destruct (_ =? 0).
Qed.

Lemma calculateStatusCodeDistribution_fold (l : list RequestResult)
  (d : gmap Z Z) (c : Z) :
  foldl
    (fun (distribution : gmap Z Z) r =>
       if truthy_num (statusCode r) then
         <[or_zero (statusCode r)
           := or_zero (distribution !! or_zero (statusCode r)) + 1]>
           distribution
       else distribution)
    d l !! c
  = if count_where
         (fun r => truthy_num (statusCode r)
                   && (or_zero (statusCode r) =? c)) l =? 0
    then d !! c
    else Some (or_zero (d !! c)
               + count_where
                   (fun r => truthy_num (statusCode r)
                             && (or_zero (statusCode r) =? c)) l).
Proof.
  revert d. induction l as [| r l IH]; intros d; [done |].
  cbn [foldl]. rewrite IH. clear IH. rewrite count_where_cons.
  set (f := fun r => truthy_num (statusCode r)
                     && (or_zero (statusCode r) =? c)).
  pose proof (count_where_bounds f l) as Hb.
  destruct (truthy_num (statusCode r)); [| by rewrite Z.add_0_l].
  rewrite andb_true_l.
  destruct (Z.eqb_spec (or_zero (statusCode r)) c) as [-> | Hne].
  - rewrite lookup_insert_eq. simpl or_zero.
    destruct (Z.eqb_spec (count_where f l) 0),
      (Z.eqb_spec (1 + count_where f l) 0);
      try lia; f_equal; lia.
  - rewrite lookup_insert_ne by done. by rewrite Z.add_0_l.
Qed.

Lemma calculateStatusCodeDistribution_lookup (l : list RequestResult)
  (c : Z) :
  calculateStatusCodeDistribution l !! c
  = if count_where
         (fun r => truthy_num (statusCode r)
                   && (or_zero (statusCode r) =? c)) l =? 0
    then None
    else Some (count_where
                 (fun r => truthy_num (statusCode r)
                           && (or_zero (statusCode r) =? c)) l).
Proof.
  unfold calculateStatusCodeDistribution.
  rewrite calculateStatusCodeDistribution_fold, lookup_empty. simpl.
  by destruct (_ =? 0).
Qed.

(** X3.  The error distribution files every failed result under its error
    text, or under "Unknown error" when it has none: the entry of a key is
    the number of failed results filed under it, and a key nobody is filed
    under has no entry.  A response with a status of 400 or more carries no
    error text, so it is counted under "Unknown error"; a rejected request
    is counted under its formatted error. *)
Theorem X3_error_distribution (rs : list RequestResult)
  (startT endT : Z) (key : string) :
  errorDistribution (calculateStats rs startT endT) !! key
  = (if count_where
          (fun r => is_failed r && String.eqb (error_key r) key) rs =? 0
     then None
     else Some (count_where
                  (fun r => is_failed r && String.eqb (error_key r) key)
                  rs))
  /\ (forall ts resp i,
        400 <= status resp ->
        is_failed (makeRequest ts (Resolved resp) i) = true
        /\ error_key (makeRequest ts (Resolved resp) i) = "Unknown error")
  /\ (forall ts e i,
        is_failed (makeRequest ts (Rejected e) i) = true
        /\ error_key (makeRequest ts (Rejected e) i) = formatError e).
Proof.
  split; [| split].
  - simpl. rewrite calculateErrorDistribution_lookup.
    by rewrite count_where_filter.
  - intros ts resp i Hstatus. split; [| done].
    unfold is_failed. simpl.
    destruct (Z.leb_spec 400 (status resp)); [| lia].
    by rewrite orb_true_r.
  - intros ts e i. split; [done |].
    unfold error_key. simpl.
    pose proof (formatError_nonempty e) as Hne.
    by destruct (String.eqb_spec (formatError e) "").
Qed.

Lemma X3_error_distribution_witness :
  errorDistribution
    (calculateStats
       [ makeRequest 0
           (Resolved {| status := 500; statusText := "Internal Server Error";
                        resp_responseTime := Some 7; resp_bytes := None |})
           0;
         makeRequest 0 (Rejected example_reset) 1;
         makeRequest 0 (Resolved example_response) 2 ] 0 10)
    !! "Unknown error"
  = Some 1.
Proof.
  destruct (X3_error_distribution
              [ makeRequest 0
                  (Resolved {| status := 500;
                               statusText := "Internal Server Error";
                               resp_responseTime := Some 7;
                               resp_bytes := None |}) 0;
                makeRequest 0 (Rejected example_reset) 1;
                makeRequest 0 (Resolved example_response) 2 ]
              0 10 "Unknown error") as [Hlookup _].
  rewrite Hlookup. reflexivity.
Defined.

(** X4.  The status code distribution counts, under each status code, the
    results that carry it: the entry of a code is that number, and a code
    no result carries has no entry.  Results without a status (rejected
    requests) are counted nowhere, and there is never an entry for 0. *)
Theorem X4_status_code_distribution (rs : list RequestResult)
  (startT endT : Z) (c : Z) :
  statusCodeDistribution (calculateStats rs startT endT) !! c
  = (if count_where
          (fun r => truthy_num (statusCode r)
                    && (or_zero (statusCode r) =? c)) rs =? 0
     then None
     else Some (count_where
                  (fun r => truthy_num (statusCode r)
                            && (or_zero (statusCode r) =? c)) rs))
  /\ statusCodeDistribution (calculateStats rs startT endT) !! 0 = None
  /\ (c <> 0 ->
      count_where
        (fun r => truthy_num (statusCode r)
                  && (or_zero (statusCode r) =? c)) rs
      = count_where (fun r => bool_decide (statusCode r = Some c)) rs).
Proof.
  split; [| split].
  - simpl. apply calculateStatusCodeDistribution_lookup.
  - simpl. rewrite calculateStatusCodeDistribution_lookup.
    rewrite count_where_none; [done |].
    apply Forall_forall. intros r _.
    destruct (statusCode r) as [s |]; simpl; [| done].
    destruct (Z.eqb_spec s 0) as [-> | Hne]; simpl; [done |].
    by destruct (Z.eqb_spec s 0).
  - intros Hc. apply count_where_ext, Forall_forall. intros r _.
    case_bool_decide as Hd.
    + rewrite Hd. simpl. destruct (Z.eqb_spec c 0); [done |].
      simpl. apply Z.eqb_refl.
    + destruct (statusCode r) as [s |]; [| done]. simpl.
      destruct (Z.eqb_spec s c) as [-> | Hne]; [done |].
      apply andb_false_r.
Qed.

Lemma X4_status_code_distribution_witness :
  200 <> 0
  /\ statusCodeDistribution
       (calculateStats
          [ makeRequest 0 (Resolved example_response) 0;
            makeRequest 0 (Rejected example_reset) 1;
            makeRequest 0 (Resolved example_response) 2 ] 0 10)
       !! 200
     = Some 2
  /\ count_where (fun r => bool_decide (statusCode r = Some 200))
       [ makeRequest 0 (Resolved example_response) 0;
         makeRequest 0 (Rejected example_reset) 1;
         makeRequest 0 (Resolved example_response) 2 ]
     = 2.
Proof.
  split; [discriminate |].
  destruct (X4_status_code_distribution
              [ makeRequest 0 (Resolved example_response) 0;
                makeRequest 0 (Rejected example_reset) 1;
                makeRequest 0 (Resolved example_response) 2 ] 0 10 200)
    as (Hlookup & _ & Hcount).
  split; [rewrite Hlookup; reflexivity |].
  rewrite <- Hcount by discriminate. reflexivity.
Defined.

(** ** The summary figures *)

Lemma run_requests env config fuel res tr :
  validateConfig config = None ->
  run fuel env config = Returned res tr ->
  requests res = result_of env <$> seqZ 0 (totalRequests config)
  /\ stats res = calculateStats (requests res) (startTime env) (endTime env).
Proof.
  intros Hvalid. unfold run.
  destruct (executePattern fuel env config initializeTest)
    as [st | |] eqn:Hexec; try done.
  intros [= <- _]. split; [| done]. simpl.
  by eapply executePattern_results.
Qed.

Lemma successRate_value (rs : list RequestResult) (startT endT : Z) :
  rs <> [] ->
  (successRate (calculateStats rs startT endT)
   == inject_Z (100 * count_where is_successful rs)
      / inject_Z (Z.of_nat (length rs)))%Q.
Proof.
  intros Hne. simpl.
  assert (Hlen : 0 < Z.of_nat (length rs))
    by (destruct rs; [done | simpl; lia]).
  destruct (Z.ltb_spec 0 (Z.of_nat (length rs))); [| lia].
  fold (count_where is_successful rs).
  rewrite inject_Z_mult. field.
  intros H0. apply (Qlt_irrefl 0). rewrite <- H0 at 2.
  change 0%Q with (inject_Z 0). by rewrite <- Zlt_Qlt.
Qed.

Lemma Qdiv_inject_Z_le (a b n : Z) :
  0 < n ->
  (inject_Z a / inject_Z n <= inject_Z b)%Q <-> a <= b * n.
Proof.
  intros Hn. destruct n as [| p | p]; try lia.
  unfold Qdiv, Qinv, inject_Z, Qmult, Qle. simpl. lia.
Qed.

Lemma Qdiv_inject_Z_ge (a b n : Z) :
  0 < n ->
  (inject_Z b <= inject_Z a / inject_Z n)%Q <-> b * n <= a.
Proof.
  intros Hn. destruct n as [| p | p]; try lia.
  unfold Qdiv, Qinv, inject_Z, Qmult, Qle. simpl. lia.
Qed.

Lemma Qdiv_inject_Z_eq (a b n : Z) :
  0 < n ->
  (inject_Z a / inject_Z n == inject_Z b)%Q <-> a = b * n.
Proof.
  intros Hn. destruct n as [| p | p]; try lia.
  unfold Qdiv, Qinv, inject_Z, Qmult, Qeq. simpl. lia.
Qed.

Lemma count_where_all_inv {A} (f : A -> bool) (l : list A) :
  count_where f l = Z.of_nat (length l) -> Forall (fun x => f x = true) l.
Proof.
  induction l as [| x l IH]; [done |]. rewrite count_where_cons.
  pose proof (count_where_bounds f l). simpl length.
  destruct (f x) eqn:Hx; [| lia].
  intros Hall. constructor; [done |]. apply IH. lia.
Qed.

Lemma count_where_none_inv {A} (f : A -> bool) (l : list A) :
  count_where f l = 0 -> Forall (fun x => f x = false) l.
Proof.
  induction l as [| x l IH]; [done |]. rewrite count_where_cons.
  pose proof (count_where_bounds f l).
  destruct (f x) eqn:Hx; [lia |].
  intros Hnone. constructor; [done |]. apply IH. lia.
Qed.

(** X6.  The success rate is a percentage: it lies between 0 and 100, it
    is 0 for an empty collection, 100 exactly when every result is
    successful, and 0 exactly when none is. *)
Theorem X6_success_rate (rs : list RequestResult) (startT endT : Z) :
  (0 <= successRate (calculateStats rs startT endT) <= inject_Z 100)%Q
  /\ (rs = [] -> successRate (calculateStats rs startT endT) = 0%Q)
  /\ (rs <> [] ->
      ((successRate (calculateStats rs startT endT) == inject_Z 100)%Q
       <-> Forall (fun r => is_successful r = true) rs)
      /\ ((successRate (calculateStats rs startT endT) == 0)%Q
          <-> Forall (fun r => is_successful r = false) rs)).
Proof.
  assert (Hval : rs <> [] ->
            0 < Z.of_nat (length rs)
            /\ 0 <= count_where is_successful rs <= Z.of_nat (length rs)
            /\ (successRate (calculateStats rs startT endT)
                == inject_Z (100 * count_where is_successful rs)
                   / inject_Z (Z.of_nat (length rs)))%Q).
  { intros Hne. split; [destruct rs; [done | simpl; lia] |].
    split; [apply count_where_bounds | by apply successRate_value]. }
  split; [| split].
  - destruct rs as [| r rs'] eqn:Hrs; [done |]. rewrite <- Hrs in *.
    destruct (Hval ltac:(by rewrite Hrs)) as (Hlen & Hcount & ->).
    change 0%Q with (inject_Z 0). split.
    + apply Qdiv_inject_Z_ge; [done | lia].
    + apply Qdiv_inject_Z_le; [done | lia].
  - by intros ->.
  - intros Hne. destruct (Hval Hne) as (Hlen & Hcount & Hrate).
    rewrite Hrate. change 0%Q with (inject_Z 0).
    rewrite !Qdiv_inject_Z_eq by done. split; split.
    + intros Heq. apply count_where_all_inv. nia.
    + intros Hall. rewrite (count_where_all _ _ Hall). lia.
    + intros Heq. apply count_where_none_inv. nia.
    + intros Hnone. rewrite (count_where_none _ _ Hnone). lia.
Qed.

Lemma X6_success_rate_witness :
  (successRate
     (calculateStats
        [ makeRequest 0 (Resolved example_response) 0;
          makeRequest 0 (Resolved example_response) 1 ] 0 10)
   == inject_Z 100)%Q.
Proof.
  destruct (X6_success_rate
              [ makeRequest 0 (Resolved example_response) 0;
                makeRequest 0 (Resolved example_response) 1 ] 0 10)
    as (_ & _ & Hrate).
  destruct (Hrate ltac:(discriminate)) as [Hfull _].
  apply Hfull. repeat constructor.
Defined.

Lemma foldl_add_bounds (l : list Z) (lo hi acc : Z) :
  Forall (fun x => lo <= x <= hi) l ->
  acc + lo * Z.of_nat (length l) <= foldl Z.add acc l
  <= acc + hi * Z.of_nat (length l).
Proof.
  intros Hall. revert acc.
  induction Hall as [| x l Hx _ IH]; intros acc; simpl; [lia |].
  specialize (IH (acc + x)). lia.
Qed.

Lemma sortedResponseTimes_elem (rs : list RequestResult) (t : Z) :
  t ∈ sortedResponseTimes rs
  <-> exists r, r ∈ rs /\ responseTime r = t /\ 0 < t.
Proof.
  rewrite sortedResponseTimes_perm, list_elem_of_In, in_map_iff.
  split.
  - intros (r & <- & Hin). apply filter_In in Hin as [Hin Hpos].
    exists r. split; [by apply list_elem_of_In |]. split; [done |].
    by apply Z.ltb_lt.
  - intros (r & Hin & <- & Hpos). exists r. split; [done |].
    apply filter_In. split; [by apply list_elem_of_In |].
    by apply Z.ltb_lt.
Qed.

(** X7.  The response-time figures are taken over the elapsed times that
    are > 0 only.  When there is none they are all 0.  Otherwise the
    minimum and the maximum are the least and the greatest of them (so
    both are > 0, and a result with elapsed time 0 does not lower the
    minimum), the median is at least the minimum, and the average lies
    between the minimum and the maximum. *)
Theorem X7_response_time_summary (rs : list RequestResult)
  (startT endT : Z) :
  (sortedResponseTimes rs = [] ->
   minResponseTime (calculateStats rs startT endT) = 0
   /\ maxResponseTime (calculateStats rs startT endT) = 0
   /\ avgResponseTime (calculateStats rs startT endT) = 0%Q
   /\ p50ResponseTime (calculateStats rs startT endT) = 0
   /\ p99ResponseTime (calculateStats rs startT endT) = 0)
  /\ (sortedResponseTimes rs <> [] ->
      0 < minResponseTime (calculateStats rs startT endT)
      /\ minResponseTime (calculateStats rs startT endT)
         <= p50ResponseTime (calculateStats rs startT endT)
      /\ (inject_Z (minResponseTime (calculateStats rs startT endT))
          <= avgResponseTime (calculateStats rs startT endT)
          <= inject_Z (maxResponseTime (calculateStats rs startT endT)))%Q
      /\ (exists r, r ∈ rs
                    /\ responseTime r
                       = minResponseTime (calculateStats rs startT endT))
      /\ (exists r, r ∈ rs
                    /\ responseTime r
                       = maxResponseTime (calculateStats rs startT endT))
      /\ forall r, r ∈ rs -> 0 < responseTime r ->
           minResponseTime (calculateStats rs startT endT)
           <= responseTime r
           <= maxResponseTime (calculateStats rs startT endT)).
Proof.
  split.
  - intros Hnil. simpl. rewrite Hnil. done.
  - intros Hne. simpl.
    pose proof (sortedResponseTimes_sorted rs) as Hs.
    pose proof (sortedResponseTimes_elem rs) as Helem.
    set (l := sortedResponseTimes rs) in *.
    assert (Hlen : (0 < length l)%nat) by (destruct l; [done | simpl; lia]).
    destruct (lookup_lt_is_Some_2 l 0%nat Hlen) as [lo Hlo].
    assert (Hk : (Z.to_nat (Z.of_nat (length l) - 1) < length l)%nat) by lia.
    destruct (lookup_lt_is_Some_2 l _ Hk) as [hi Hhi].
    rewrite Hlo, Hhi. simpl or_zero.
    assert (Hrange : forall t, t ∈ l -> lo <= t <= hi).
    { intros t Ht. apply list_elem_of_lookup in Ht as [i Hi].
      pose proof (lookup_lt_Some _ _ _ Hi). split.
      - eapply sorted_lookup_le; [exact Hs | exact Hlo | exact Hi | lia].
      - eapply sorted_lookup_le; [exact Hs | exact Hi | exact Hhi | lia]. }
    assert (Hlo_in : lo ∈ l) by (eapply list_elem_of_lookup_2; exact Hlo).
    assert (Hhi_in : hi ∈ l) by (eapply list_elem_of_lookup_2; exact Hhi).
    split; [apply Helem in Hlo_in as (r & _ & _ & Hpos); exact Hpos |].
    split.
    { pose proof (percentile_in_range l 50 Hne) as Hp.
      apply Hrange. eapply list_elem_of_lookup_2. exact Hp. }
    split.
    { unfold calculateAverage.
      destruct (Z.ltb_spec 0 (Z.of_nat (length l))); [| lia].
      pose proof (foldl_add_bounds l lo hi 0
                    ltac:(apply Forall_forall; exact Hrange)).
      split.
      - apply Qdiv_inject_Z_ge; [lia | lia].
      - apply Qdiv_inject_Z_le; [lia | lia]. }
    split.
    { apply Helem in Hlo_in as (r & Hin & Hr & _). by exists r. }
    split.
    { apply Helem in Hhi_in as (r & Hin & Hr & _). by exists r. }
    intros r Hin Hpos. apply Hrange, Helem. by exists r.
Qed.

Lemma X7_response_time_summary_witness :
  0 < minResponseTime
        (calculateStats
           [ makeRequest 0 (Resolved example_response) 0;
             makeRequest 0 (Rejected example_reset) 1 ] 0 10)
  /\ minResponseTime
       (calculateStats
          [ makeRequest 0 (Resolved example_response) 0;
            makeRequest 0 (Rejected example_reset) 1 ] 0 10)
     <= p50ResponseTime
          (calculateStats
             [ makeRequest 0 (Resolved example_response) 0;
               makeRequest 0 (Rejected example_reset) 1 ] 0 10).
Proof.
  destruct (X7_response_time_summary
              [ makeRequest 0 (Resolved example_response) 0;
                makeRequest 0 (Rejected example_reset) 1 ] 0 10)
    as [_ Hsome].
  destruct (Hsome ltac:(discriminate)) as (Hpos & Hmed & _).
  split; [exact Hpos | exact Hmed].
Defined.

(** ** A transport that always fails the same way *)

Lemma stats_all_rejected (rs : list RequestResult) (startT endT : Z)
  (msg : string) :
  msg <> "" ->
  rs <> [] ->
  Forall (fun r => statusCode r = None /\ error r = Some msg
                   /\ responseSize r = None) rs ->
  successfulRequests (calculateStats rs startT endT) = 0
  /\ failedRequests (calculateStats rs startT endT) = Z.of_nat (length rs)
  /\ (successRate (calculateStats rs startT endT) == 0)%Q
  /\ errorDistribution (calculateStats rs startT endT)
     = {[ msg := Z.of_nat (length rs) ]}
  /\ statusCodeDistribution (calculateStats rs startT endT) = ∅
  /\ totalDataTransferred (calculateStats rs startT endT) = 0.
Proof.
  intros Hmsg Hne Hall.
  assert (Hlen : 0 < Z.of_nat (length rs))
    by (destruct rs; [done | simpl; lia]).
  assert (Hfail : Forall (fun r => is_failed r = true) rs).
  { eapply Forall_impl; [exact Hall |]. intros r (Hs & _).
    unfold is_failed. by rewrite Hs. }
  assert (Hsucc : Forall (fun r => is_successful r = false) rs).
  { eapply Forall_impl; [exact Hall |]. intros r (Hs & _).
    unfold is_successful. by rewrite Hs. }
  assert (Hcount0 : count_where is_successful rs = 0)
    by (by apply count_where_none).
  split; [exact Hcount0 |].
  split; [by apply (count_where_all is_failed) |].
  split.
  { rewrite successRate_value by done. change 0%Q with (inject_Z 0).
    apply Qdiv_inject_Z_eq; [done |]. rewrite Hcount0. lia. }
  split.
  { apply map_eq. intros key. simpl.
    rewrite calculateErrorDistribution_lookup, count_where_filter.
    destruct (decide (key = msg)) as [-> | Hkey].
    - rewrite lookup_singleton_eq.
      rewrite (count_where_all _ rs).
      + destruct (Z.eqb_spec (Z.of_nat (length rs)) 0); [lia | done].
      + eapply Forall_impl; [exact Hall |]. intros r (Hs & He & _).
        unfold is_failed, error_key. rewrite Hs, He. simpl.
        destruct (String.eqb_spec msg ""); [done |]. simpl.
        apply String.eqb_refl.
    - rewrite lookup_singleton_ne by done.
      rewrite (count_where_none _ rs); [done |].
      eapply Forall_impl; [exact Hall |]. intros r (Hs & He & _).
      unfold is_failed, error_key. rewrite Hs, He. simpl.
      destruct (String.eqb_spec msg ""); [done |]. simpl.
      by destruct (String.eqb_spec msg key). }
  split.
  { apply map_eq. intros c. simpl.
    rewrite calculateStatusCodeDistribution_lookup, lookup_empty.
    rewrite (count_where_none _ rs); [done |].
    eapply Forall_impl; [exact Hall |]. intros r (Hs & _).
    by rewrite Hs. }
  simpl. clear -Hall.
  assert (Hgen : forall acc,
            foldl (fun sum r => sum + or_zero (responseSize r)) acc rs = acc).
  { induction Hall as [| r rs (_ & _ & Hsize) _ IH]; intros acc; [done |].
    simpl. rewrite Hsize. simpl. rewrite Z.add_0_r. apply IH. }
  apply Hgen.
Qed.

(** X5.  When the transport rejects every request with the same error, the
    statistics of a run say so: no request is successful, all
    totalRequests are failed, the success rate is 0, the error
    distribution has the one entry of that error with count totalRequests,
    the status code distribution is empty and no data is counted as
    transferred. *)
Theorem X5_uniform_transport_error (env : Env) (config : StressTestConfig)
  (fuel : nat) (e : AxiosError) (res : StressTestResult)
  (tr : list Event) :
  validateConfig config = None ->
  (forall i, send env i = Rejected e) ->
  run fuel env config = Returned res tr ->
  successfulRequests (stats res) = 0
  /\ failedRequests (stats res) = totalRequests config
  /\ (successRate (stats res) == 0)%Q
  /\ errorDistribution (stats res)
     = {[ formatError e := totalRequests config ]}
  /\ statusCodeDistribution (stats res) = ∅
  /\ totalDataTransferred (stats res) = 0.
Proof.
  intros Hvalid Hsend Hrun.
  pose proof (validateConfig_ok _ Hvalid) as (_ & _ & Htotal & _).
  destruct (run_requests _ _ _ _ _ Hvalid Hrun) as [Hreq ->].
  assert (Hlen : Z.of_nat (length (requests res)) = totalRequests config).
  { rewrite Hreq, length_fmap, length_seqZ. lia. }
  rewrite <- Hlen.
  apply stats_all_rejected.
  - apply formatError_nonempty.
  - intros Hnil. rewrite Hnil in Hlen. simpl in Hlen. lia.
  - rewrite Hreq. apply Forall_fmap, Forall_forall. intros i _.
    unfold result_of. simpl. by rewrite Hsend.
Qed.

Lemma X5_uniform_transport_error_witness :
  exists res tr,
    run 0 {| send := fun _ => Rejected example_reset;
             clock := fun i => i; pick := fun _ k => k;
             startTime := 0; endTime := 100 |}
      (example_config burst 7 3)
    = Returned res tr
    /\ errorDistribution (stats res)
       = {[ "ECONNRESET: Connection reset" := 7 ]}.
Proof.
  eexists _, _. split; [reflexivity |].
  eapply (X5_uniform_transport_error
            {| send := fun _ => Rejected example_reset;
               clock := fun i => i; pick := fun _ k => k;
               startTime := 0; endTime := 100 |}
            (example_config burst 7 3) 0 example_reset);
    [reflexivity | reflexivity | reflexivity].
Defined.

(** ** Progress reports and logging *)

Lemma count_where_le {A} (f g : A -> bool) (l : list A) :
  Forall (fun x => f x = true -> g x = true) l ->
  count_where f l <= count_where g l.
Proof.
  induction 1 as [| x l Hx _ IH]; [done |].
  rewrite !count_where_cons.
  destruct (f x); [rewrite Hx by done |]; destruct (g x); lia.
Qed.

Lemma progress_error_failed (r : RequestResult) :
  is_progress_error r = true -> is_failed r = true.
Proof.
  unfold is_progress_error, is_failed.
  destruct (truthy_str (error r)); [by rewrite orb_true_r |].
  destruct (truthy_num (statusCode r)); simpl; [| done].
  by rewrite orb_false_r.
Qed.

Lemma failed_progress_error (r : RequestResult) :
  truthy_num (statusCode r) = true \/ truthy_str (error r) = true ->
  is_failed r = is_progress_error r.
Proof.
  unfold is_progress_error, is_failed.
  intros [Hs | He].
  - rewrite Hs. simpl. apply orb_comm.
  - rewrite He. simpl. by rewrite orb_true_r.
Qed.

Lemma length_slice_last {A} (n : nat) (l : list A) :
  length (slice_last n l) = Nat.min n (length l).
Proof. unfold slice_last. rewrite length_drop. lia. Qed.

Lemma slice_last_suffix {A} (n : nat) (l : list A) :
  l = take (length l - n) l ++ slice_last n l.
Proof. unfold slice_last. by rewrite take_drop. Qed.

Lemma foldl_responseTime (l : list RequestResult) (a : Z) :
  foldl (fun sum r => sum + responseTime r) a l
  = a + foldr Z.add 0 (responseTime <$> l).
Proof.
  revert a. induction l as [| r l IH]; intros a; [simpl; lia |].
  rewrite fmap_cons. cbn [foldl foldr]. rewrite IH. lia.
Qed.

(** X8.  A progress report counts every result so far as completed and
    passes the total on.  Its error count never exceeds the number of
    failed results of the statistics, and equals it when every result has a
    non-zero status or an error text, as the results of the executor have
    whenever no response has status 0.  The recent results are the last
    100 results, or all of them when there are fewer.  The current rate is
    their number divided by the seconds since the start, whatever their
    own age, so it is at most 100 results per elapsed time; it is
    [Infinity] when the report is made in the millisecond of the start,
    and 0 when there is no result or the start time is not positive.  The
    average response time is the sum of the response times of the recent
    results divided by their number, and 0 when there is none.  The
    percentage is 100 times the completed results over the total, 0 for a
    total that is not positive, and so 100 when all totalRequests are
    completed. *)
Theorem X8_progress_report (rs : list RequestResult)
  (total startT now : Z) (info : ProgressInfo) :
  reportProgress true rs total startT now = Some info ->
  pi_completed info = Z.of_nat (length rs)
  /\ pi_errors info <= failedRequests (calculateStats rs startT now)
  /\ (Forall (fun r => truthy_num (statusCode r) = true
                       \/ truthy_str (error r) = true) rs ->
      pi_errors info = failedRequests (calculateStats rs startT now))
  /\ (forall ts o i,
        (forall resp, o = Resolved resp -> status resp <> 0) ->
        truthy_num (statusCode (makeRequest ts o i)) = true
        \/ truthy_str (error (makeRequest ts o i)) = true)
  /\ (forall q,
        pi_currentRps info = Finite q -> startT < now ->
        (q * inject_Z (now - startT) <= inject_Z 100000)%Q)
  /\ (pi_currentRps info = Infinity
      <-> rs <> [] /\ 0 < startT /\ now = startT)
  /\ (0 < total -> Z.of_nat (length rs) = total ->
      (pi_percentage info == inject_Z 100)%Q)
  /\ pi_total info = total
  /\ pi_errors info = count_where is_progress_error rs
  /\ (0 < total ->
      (pi_percentage info * inject_Z total
       == inject_Z (100 * Z.of_nat (length rs)))%Q)
  /\ (total <= 0 -> pi_percentage info = 0%Q)
  /\ (exists older recentResults,
        rs = older ++ recentResults
        /\ length recentResults = Nat.min 100 (length rs)
        /\ (rs <> [] -> 0 < startT -> now <> startT ->
            exists q,
              pi_currentRps info = Finite q
              /\ (q * inject_Z (now - startT)
                  == inject_Z (1000 * Z.of_nat (length recentResults)))%Q)
        /\ (rs = [] \/ startT <= 0 -> pi_currentRps info = Finite 0%Q)
        /\ (rs <> [] ->
            (pi_avgResponseTime info
             * inject_Z (Z.of_nat (length recentResults))
             == inject_Z (foldr Z.add 0%Z (responseTime <$> recentResults)))%Q)
        /\ (rs = [] -> pi_avgResponseTime info = 0%Q)).
Proof.
  unfold reportProgress. cbn [negb]. intros [= <-]. cbn [pi_completed
    pi_errors pi_currentRps pi_percentage pi_total pi_avgResponseTime].
  split; [done |].
  split.
  { simpl. apply (count_where_le is_progress_error is_failed).
    apply Forall_forall. intros r _. apply progress_error_failed. }
  split.
  { intros Hall. simpl. symmetry.
    apply (count_where_ext is_failed is_progress_error).
    eapply Forall_impl; [exact Hall |]. apply failed_progress_error. }
  split.
  { intros ts o i Hstatus. destruct o as [resp | e]; simpl.
    - left. specialize (Hstatus resp eq_refl).
      by destruct (Z.eqb_spec (status resp) 0).
    - right. pose proof (formatError_nonempty e).
      by destruct (String.eqb_spec (formatError e) ""). }
  pose proof (length_slice_last 100 rs) as Hwin.
  set (recent := Z.of_nat (length (slice_last 100 rs))).
  assert (Hrecent : 0 <= recent <= 100) by lia.
  assert (Hnil : 0 < recent <-> rs <> []).
  { unfold recent. rewrite Hwin. destruct rs; simpl; [| split; [done |]; lia].
    split; [lia | done]. }
  split.
  { intros q Hq Hlt.
    destruct ((0 <? recent) && (0 <? startT)).
    - destruct (Z.eqb_spec (now - startT) 0); [lia |].
      injection Hq as <-.
      assert (Hne : ~ (inject_Z (now - startT) == 0)%Q).
      { change 0%Q with (inject_Z 0). rewrite inject_Z_injective. lia. }
      assert (Heq : (inject_Z recent
                     / (inject_Z (now - startT) / inject_Z 1000)
                     * inject_Z (now - startT)
                     == inject_Z (recent * 1000))%Q).
      { rewrite inject_Z_mult. field. exact Hne. }
      rewrite Heq. rewrite <- Zle_Qle. lia.
    - injection Hq as <-. rewrite Qmult_0_l.
      change 0%Q with (inject_Z 0). rewrite <- Zle_Qle. lia. }
  split.
  { destruct (Z.ltb_spec 0 recent) as [Hr | Hr];
      destruct (Z.ltb_spec 0 startT) as [Hs | Hs]; simpl.
    - destruct (Z.eqb_spec (now - startT) 0).
      + split; [intros _ | done]. split; [by apply Hnil | lia].
      + split; [done |]. intros (_ & _ & ?). lia.
    - split; [done |]. intros (_ & ? & _). lia.
    - split; [done |]. intros (Hne & _). apply Hnil in Hne. lia.
    - split; [done |]. intros (_ & ? & _). lia. }
  split.
  { intros Htotal Hlen.
    destruct (Z.ltb_spec 0 total); [| lia]. rewrite Hlen.
    assert (Hne : ~ (inject_Z total == 0)%Q).
    { change 0%Q with (inject_Z 0). rewrite inject_Z_injective. lia. }
    field. exact Hne. }
  split; [done |].
  split; [done |].
  split.
  { intros Htotal. destruct (Z.ltb_spec 0 total); [| lia].
    assert (Hne : ~ (inject_Z total == 0)%Q).
    { change 0%Q with (inject_Z 0). rewrite inject_Z_injective. lia. }
    rewrite inject_Z_mult. field. exact Hne. }
  split.
  { intros Htotal. by destruct (Z.ltb_spec 0 total); [lia |]. }
  exists (take (length rs - 100) rs), (slice_last 100 rs).
  split; [apply slice_last_suffix |].
  split; [exact Hwin |].
  fold recent.
  split.
  { intros Hne Hs Hnow. apply Hnil in Hne.
    destruct (Z.ltb_spec 0 recent); [| lia].
    destruct (Z.ltb_spec 0 startT); [| lia]. cbn [andb].
    destruct (Z.eqb_spec (now - startT) 0); [lia |].
    eexists. split; [reflexivity |].
    assert (Hne' : ~ (inject_Z (now - startT) == 0)%Q).
    { change 0%Q with (inject_Z 0). rewrite inject_Z_injective. lia. }
    rewrite inject_Z_mult. field. exact Hne'. }
  split.
  { intros [-> | Hs].
    - done.
    - destruct (Z.ltb_spec 0 startT); [lia |]. by rewrite andb_false_r. }
  split.
  { intros Hne. apply Hnil in Hne.
    destruct (Z.ltb_spec 0 recent); [| lia].
    rewrite foldl_responseTime, Z.add_0_l.
    assert (Hne' : ~ (inject_Z recent == 0)%Q).
    { change 0%Q with (inject_Z 0). rewrite inject_Z_injective. lia. }
    field. exact Hne'. }
  by intros ->.
Qed.

Lemma X8_progress_report_witness :
  exists info,
    reportProgress true
      [ makeRequest 0 (Resolved example_response) 0;
        makeRequest 0 (Rejected example_reset) 1 ] 2 1000 1500
    = Some info
    /\ pi_completed info = 2
    /\ pi_errors info = 1
    /\ (pi_percentage info == inject_Z 100)%Q.
Proof.
  eexists. split; [reflexivity |].
  destruct (X8_progress_report
              [ makeRequest 0 (Resolved example_response) 0;
                makeRequest 0 (Rejected example_reset) 1 ] 2 1000 1500
              _ eq_refl) as (Hc & _ & _ & _ & _ & _ & Hp & _).
  split; [exact Hc |]. split; [reflexivity |].
  apply Hp; [lia | reflexivity].
Defined.

(** X9.  Whether a message is logged grows with its level: when a message
    of some level is written, so is a message of any higher level under
    the same options.  An error message is always written; a debug message
    is written only when the tester is verbose and its log level is debug.
    With the options the command line builds, everything from info up is
    written, and debug messages exactly when the run is verbose. *)
Theorem X9_log_levels (verbose : bool) (logLevel : option LogLevel)
  (timestamp message : string) :
  (forall level level',
     levels level <= levels level' ->
     is_Some (log verbose logLevel timestamp level message) ->
     is_Some (log verbose logLevel timestamp level' message))
  /\ is_Some (log verbose logLevel timestamp lvl_error message)
  /\ (is_Some (log verbose logLevel timestamp lvl_debug message)
      <-> verbose = true /\ logLevel = Some lvl_debug)
  /\ (forall level,
        is_Some (log (fst (buildTestOptions verbose))
                   (snd (buildTestOptions verbose)) timestamp level message)
        <-> (level = lvl_debug -> verbose = true)).
Proof.
  split; [| split; [| split]].
  - intros level level' Hle.
    destruct verbose, logLevel as [[] |], level, level';
      simpl in Hle; try lia; simpl; intros [x Hx]; try done; by eexists.
  - destruct verbose, logLevel as [[] |]; simpl; by eexists.
  - destruct verbose, logLevel as [[] |]; simpl;
      (split; [intros [x Hx]; try done | intros [? ?]; try done]);
      by eexists.
  - intros level. destruct verbose, level; simpl;
      (split; [intros [x Hx] Hl; try done | intros Hl]);
      try (by eexists); try (by specialize (Hl eq_refl)).
Qed.

Lemma X9_log_levels_witness :
  is_Some (log false (Some lvl_warn) "2024-01-01T00:00:00.000Z" lvl_error
             "Test failed")
  /\ log false (Some lvl_warn) "2024-01-01T00:00:00.000Z" lvl_info
       "Starting" = None.
Proof.
  destruct (X9_log_levels false (Some lvl_warn) "2024-01-01T00:00:00.000Z"
              "Test failed") as (Hmono & Herr & _).
  split; [| reflexivity].
  apply (Hmono lvl_warn lvl_error); [simpl; lia | by eexists].
Defined.

(** ** The sequential path of the HTTP client *)

Lemma seqZ_singleton (m : Z) : seqZ m 1 = [m].
Proof. done. Qed.

Lemma makeRequestsWithDelay_prefix env (startIndex count delay : Z) (n : nat) :
  foldl
    (fun (acc : list RequestResult * list HttpEvent) i =>
       let result :=
         makeRequest (clock env (startIndex + i)) (send env (startIndex + i))
           (startIndex + i) in
       let results := fst acc ++ [result] in
       let events := snd acc ++ [Requested (startIndex + i)] in
       if (i <? count - 1) && (0 <? delay)
       then (results, events ++ [Slept delay])
       else (results, events))
    ([], []) (seqZ 0 (Z.of_nat n))
  = (result_of env <$> seqZ startIndex (Z.of_nat n),
     mjoin ((fun i =>
               Requested (startIndex + i)
               :: (if (i <? count - 1) && (0 <? delay)
                   then [Slept delay] else []))
            <$> seqZ 0 (Z.of_nat n))).
Proof.
  induction n as [|n IH]; first done.
  rewrite Nat2Z.inj_succ, <- Z.add_1_r.
  rewrite !seqZ_app by lia.
  rewrite foldl_app, IH. clear IH.
  rewrite !fmap_app, join_app.
  rewrite !Z.add_0_l.
  rewrite !seqZ_singleton. simpl.
  unfold result_of.
  destruct ((Z.of_nat n <? count - 1) && (0 <? delay)); simpl.
  - by rewrite <- app_assoc.
  - done.
Qed.

Lemma requested_join (f : Z -> list HttpEvent) (g : Z -> Z) l :
  (forall i, requested (f i) = [g i]) ->
  requested (mjoin (f <$> l)) = g <$> l.
Proof.
  intros Hf. induction l as [|i l IH]; first done.
  change (mjoin (f <$> i :: l)) with (f i ++ mjoin (f <$> l)).
  unfold requested in *. rewrite omap_app, IH, Hf. done.
Qed.

Lemma slept_join_length (f : Z -> list HttpEvent) (b : Z -> bool) l :
  (forall i, length (slept (f i)) = if b i then 1%nat else 0%nat) ->
  Z.of_nat (length (slept (mjoin (f <$> l)))) = count_where b l.
Proof.
  intros Hf. induction l as [|i l IH]; first done.
  change (mjoin (f <$> i :: l)) with (f i ++ mjoin (f <$> l)).
  unfold slept in *. rewrite omap_app, length_app, Nat2Z.inj_add.
  rewrite IH, Hf, count_where_cons. destruct (b i); lia.
Qed.

Lemma count_where_seqZ_below (m n : Z) :
  0 <= m <= n ->
  count_where (fun i => i <? m) (seqZ 0 n) = m.
Proof.
  intros Hm.
  replace n with (m + (n - m)) by lia.
  rewrite seqZ_app by lia.
  unfold count_where. rewrite List.filter_app, length_app, Nat2Z.inj_add.
  fold (count_where (fun i => i <? m) (seqZ 0 m)).
  fold (count_where (fun i => i <? m) (seqZ (0 + m) (n - m))).
  rewrite count_where_all, count_where_none.
  - rewrite length_seqZ. lia.
  - apply Forall_forall. intros i Hi. apply elem_of_seqZ in Hi. lia.
  - apply Forall_forall. intros i Hi. apply elem_of_seqZ in Hi. lia.
Qed.

(** X10.  [makeRequestsWithDelay (startIndex, count, delay)] returns the
    results of the indices [startIndex, ..., startIndex + count - 1] in
    this order, the very list a concurrent phase over the same indices
    returns whatever its limit; it issues the requests one after the other
    in index order; with a positive delay it sleeps [count - 1] times,
    each time for [delay] milliseconds, with no sleep after the last
    request; with a delay of zero or less it never sleeps. *)
Theorem X10_sequential_requests env (startIndex count delay conc : Z) :
  0 <= count ->
  let r := makeRequestsWithDelay env startIndex count delay in
  fst r = makeConcurrentRequests env startIndex count conc
  /\ requested (snd r) = seqZ startIndex count
  /\ Z.of_nat (length (slept (snd r)))
     = (if 0 <? delay then Z.max 0 (count - 1) else 0)
  /\ (forall ms, ms ∈ slept (snd r) -> ms = delay)
  /\ (0 < count -> last (snd r) = Some (Requested (startIndex + count - 1))).
Proof.
  intros Hcount r.
  assert (Hr : r = (result_of env <$> seqZ startIndex count,
                    mjoin ((fun i =>
                              Requested (startIndex + i)
                              :: (if (i <? count - 1) && (0 <? delay)
                                  then [Slept delay] else []))
                           <$> seqZ 0 count))).
  { pose proof (makeRequestsWithDelay_prefix env startIndex count delay
                  (Z.to_nat count)) as H.
    rewrite Z2Nat.id in H by lia. exact H. }
  rewrite Hr. clear r Hr. simpl fst. simpl snd.
  split; [by rewrite makeConcurrentRequests_spec |].
  split.
  { rewrite (requested_join _ (fun i => startIndex + i)).
    - change (fun i => startIndex + i) with (Z.add startIndex).
      by rewrite fmap_add_seqZ, Z.add_0_r.
    - intros i. simpl. by destruct ((i <? count - 1) && (0 <? delay)). }
  split.
  { rewrite (slept_join_length _
               (fun i => (i <? count - 1) && (0 <? delay))).
    - destruct (0 <? delay) eqn:Hd.
      + rewrite (count_where_ext _ (fun i => i <? count - 1))
          by (apply Forall_forall; intros; apply andb_true_r).
        destruct (Z.eq_dec count 0) as [-> | Hne]; first done.
        rewrite count_where_seqZ_below by lia. lia.
      + rewrite (count_where_ext _ (fun _ => false))
          by (apply Forall_forall; intros; apply andb_false_r).
        apply count_where_none. by apply Forall_forall.
    - intros i. simpl. by destruct ((i <? count - 1) && (0 <? delay)). }
  split.
  { intros ms Hms. unfold slept in Hms.
    apply list_elem_of_omap in Hms as (e & He & Hsome).
    apply list_elem_of_join in He as (l & He & Hl).
    apply list_elem_of_fmap in Hl as (i & -> & _).
    destruct e as [|ms']; first done. injection Hsome as ->.
    apply elem_of_cons in He as [He | He]; first done.
    destruct ((i <? count - 1) && (0 <? delay)).
    - apply list_elem_of_singleton in He. congruence.
    - by apply elem_of_nil in He. }
  intros Hpos.
  replace count with ((count - 1) + 1) at 1 by lia.
  rewrite seqZ_app by lia. rewrite fmap_app, join_app.
  rewrite seqZ_singleton. simpl.
  rewrite Z.ltb_irrefl. simpl.
  rewrite last_app. simpl. f_equal. f_equal. lia.
Qed.

Lemma X10_sequential_requests_witness :
  let r := makeRequestsWithDelay example_env 0 3 50 in
  fst r = makeConcurrentRequests example_env 0 3 2
  /\ requested (snd r) = seqZ 0 3
  /\ Z.of_nat (length (slept (snd r))) = (if 0 <? 50 then Z.max 0 (3 - 1) else 0)
  /\ (forall ms, ms ∈ slept (snd r) -> ms = 50)
  /\ (0 < 3 -> last (snd r) = Some (Requested (0 + 3 - 1))).
Proof. apply (X10_sequential_requests example_env 0 3 50 2). lia. Defined.

(** ** The instance and its interceptors *)

Lemma js_round_bounds (q : Q) :
  (inject_Z (js_round q) - (1 # 2) <= q < inject_Z (js_round q) + (1 # 2))%Q.
Proof.
  unfold js_round.
  pose proof (Qfloor_le (q + (1 # 2))) as Hle.
  pose proof (Qlt_floor (q + (1 # 2))) as Hlt.
  rewrite inject_Z_plus in Hlt. change (inject_Z 1) with 1%Q in Hlt.
  set (f := inject_Z (Qfloor (q + (1 # 2)))) in *. clearbody f.
  split; lra.
Qed.

Lemma js_round_nonneg (q : Q) : (0 <= q)%Q -> 0 <= js_round q.
Proof.
  intros Hq. unfold js_round.
  change 0 with (Qfloor 0). apply Qfloor_resp_le. lra.
Qed.

Lemma js_round_small (q : Q) : (0 <= q < 1 # 2)%Q -> js_round q = 0.
Proof.
  intros [H0 Hhalf].
  pose proof (js_round_bounds q) as [Hlo Hhi].
  pose proof (js_round_nonneg q H0) as Hnn.
  destruct (Z.eq_dec (js_round q) 0) as [| Hne]; [done |].
  assert (H1 : 1 <= js_round q) by lia.
  rewrite Zle_Qle in H1. change (inject_Z 1) with 1%Q in H1.
  set (f := inject_Z (js_round q)) in *. clearbody f. lra.
Qed.

Lemma responseTime_timed (startTime : option Q) (endTime : Q) ts o i :
  responseTime (makeRequest ts (timed_outcome startTime endTime o) i)
  = measured_responseTime startTime endTime.
Proof. by destruct o. Qed.

Lemma sortedResponseTimes_skip (r : RequestResult) rs :
  responseTime r <= 0 ->
  sortedResponseTimes (r :: rs) = sortedResponseTimes rs.
Proof.
  intros Hr. unfold sortedResponseTimes. simpl.
  by replace (0 <? responseTime r) with false by (symmetry; lia).
Qed.

(** X11.  For a configuration the constructor accepts, the timeout the
    instance is created with, [config.timeout || 30000], is positive: it
    is 30000 when no timeout or a timeout of 0 is given, and the given
    timeout otherwise; and the constructor raises the timeout error only
    for a negative timeout. *)
Theorem X11_instance_timeout (config : StressTestConfig) :
  (validateConfig config = None ->
   0 < axios_timeout config
   /\ (timeout config = None \/ timeout config = Some 0 ->
       axios_timeout config = 30000)
   /\ (forall t, timeout config = Some t -> t <> 0 ->
       axios_timeout config = t))
  /\ (validateConfig config = Some "Timeout must be greater than 0" ->
      exists t, timeout config = Some t /\ t < 0).
Proof.
  unfold validateConfig, axios_timeout.
  destruct (truthy_str (url config)); simpl;
    [| split; intros [=]].
  destruct (concurrency config <=? 0); [split; intros [=] |].
  destruct (totalRequests config <=? 0); [split; intros [=] |].
  destruct (timeout config) as [t|]; simpl.
  - destruct (Z.eqb_spec t 0) as [-> | Hne]; simpl.
    + split; [| intros [=]]. intros _. split; [lia |].
      split; [done |]. by intros t [= <-].
    + destruct (Z.leb_spec t 0) as [Hle | Hlt].
      * split; [intros [=] |]. intros _. exists t. split; [done | lia].
      * split; [| intros [=]]. intros _. split; [done |].
        split; [by intros [[=] | [= ->]] |]. by intros t' [= <-].
  - split; [| intros [=]]. intros _. split; [lia |]. split; [done |].
    by intros t [=].
Qed.



(** ** A phase keeps every permit busy and gives all of them back *)

(** X13.  In a phase of [makeConcurrentRequests], after [i] tasks were
    started and [j <= i] of their requests completed, the number of
    requests in flight is the smaller of the limit [max (1, concurrency)]
    and the [i - j] tasks that are not completed: no permit is idle while a
    task waits.  The other tasks wait in the queue, and the free permits
    are the limit less the requests in flight; so when every started task
    has completed, nothing is in flight or queued and the semaphore holds
    all its permits again. *)
Theorem X13_phase_work_conserving (env : Env) (startIndex conc : Z)
  (i j : nat) :
  (j <= i)%nat ->
  let ph := phase_state env startIndex conc i j in
  Z.of_nat (length (inflight ph))
  = Z.min (Z.max 1 conc) (Z.of_nat (i - j))
  /\ Z.of_nat (length (waitQueue (sem ph)))
     = Z.of_nat (i - j) - Z.min (Z.max 1 conc) (Z.of_nat (i - j))
  /\ permits (sem ph)
     = Z.max 1 conc - Z.min (Z.max 1 conc) (Z.of_nat (i - j))
  /\ (i = j ->
      inflight ph = [] /\ waitQueue (sem ph) = []
      /\ permits (sem ph) = Z.max 1 conc).
Proof.
  intros Hle ph.
  destruct (phase_state_inv env startIndex conc i j Hle)
    as (fin & Hlen & _ & Hperm & Hnn & Hsum & Hq).
  fold ph in Hperm, Hnn, Hsum, Hq.
  apply Permutation_length in Hperm.
  rewrite !length_app, length_seq in Hperm.
  assert (Hcases : Z.of_nat (length (inflight ph))
                   = Z.min (Z.max 1 conc) (Z.of_nat (i - j))).
  { destruct (waitQueue (sem ph)) as [| w q] eqn:Hqueue.
    - simpl in Hperm. lia.
    - rewrite Hq in Hsum by done. simpl in Hperm. lia. }
  split; [exact Hcases |].
  split; [lia |].
  split; [lia |].
  intros ->.
  assert (Hin : length (inflight ph) = 0%nat) by lia.
  assert (Hw : length (waitQueue (sem ph)) = 0%nat) by lia.
  split; [by apply nil_length_inv |].
  split; [by apply nil_length_inv |]. lia.
Qed.

Lemma X13_phase_work_conserving_witness :
  let ph := phase_state example_env 0 2 5 1 in
  Z.of_nat (length (inflight ph)) = Z.min (Z.max 1 2) (Z.of_nat (5 - 1))
  /\ Z.of_nat (length (waitQueue (sem ph)))
     = Z.of_nat (5 - 1) - Z.min (Z.max 1 2) (Z.of_nat (5 - 1))
  /\ permits (sem ph) = Z.max 1 2 - Z.min (Z.max 1 2) (Z.of_nat (5 - 1))
  /\ (5%nat = 1%nat ->
      inflight ph = [] /\ waitQueue (sem ph) = []
      /\ permits (sem ph) = Z.max 1 2).
Proof. apply (X13_phase_work_conserving example_env 0 2 5 1). lia. Defined.

(** ** The convenience function *)

Lemma or_default_cases (d : Z) (o : option Z) :
  ((o = None \/ o = Some 0) /\ or_default d o = d)
  \/ (exists x, o = Some x /\ x <> 0 /\ or_default d o = x).
Proof.
  unfold or_default. destruct o as [x |]; simpl; [| left; auto].
  destruct (Z.eqb_spec x 0) as [-> | Hne]; simpl; [left; auto |].
  right. by exists x.
Qed.

Lemma or_default_pos (d : Z) (o : option Z) :
  0 < d ->
  0 < or_default d o <-> (forall x, o = Some x -> 0 <= x).
Proof.
  intros Hd.
  destruct (or_default_cases d o) as [[[-> | ->] ->] | (x & -> & Hne & ->)].
  - split; [by intros _ x [=] | done].
  - split; [intros _ x [= <-]; lia | done].
  - split; [intros Hx y [= <-]; lia |].
    intros Hx. specialize (Hx x eq_refl). lia.
Qed.

(** A run with a pattern other than ramp-up returns, whatever the fuel. *)
Lemma executePattern_done fuel env config :
  default sustained (pattern config) <> ramp_up ->
  exists st, executePattern fuel env config initializeTest = Done st.
Proof.
  unfold executePattern.
  destruct (default sustained (pattern config)); intros Hp;
    [by eexists | by eexists | done | by eexists | by eexists].
Qed.

(** X14.  [stressTest (url, options)] replaces a concurrency, a request
    total or a timeout that is absent or 0 by 10, 100 and 30000, keeps one
    that is given and not 0, keeps the url and the duration, takes
    sustained for a pattern that is absent, and never sets a delay or a
    ramp-up block.  So the tester accepts the
    configuration exactly when the url is not empty and none of the three
    numbers is negative (a 0 is not refused, it becomes the default); an
    accepted call with a pattern other than ramp-up returns the results of
    the indices 0, ..., totalRequests - 1; and an accepted call with
    pattern ramp-up always raises, before any dispatch, for want of the
    ramp-up block. *)
Theorem X14_stressTest_defaults (u : string) (o : QuickOptions) :
  let config := stressTest_config u o in
  (validateConfig config = None
   <-> u <> ""
       /\ (forall c, opt_concurrency o = Some c -> 0 <= c)
       /\ (forall n, opt_totalRequests o = Some n -> 0 <= n)
       /\ (forall t, opt_timeout o = Some t -> 0 <= t))
  /\ (opt_concurrency o = None \/ opt_concurrency o = Some 0 ->
      concurrency config = 10)
  /\ (opt_totalRequests o = None \/ opt_totalRequests o = Some 0 ->
      totalRequests config = 100)
  /\ (opt_timeout o = None \/ opt_timeout o = Some 0 ->
      timeout config = Some 30000)
  /\ (forall fuel env,
        validateConfig config = None ->
        opt_pattern o <> Some ramp_up ->
        exists res tr,
          stressTest fuel env u o = Returned res tr
          /\ requests res = result_of env <$> seqZ 0 (totalRequests config))
  /\ (forall fuel env,
        validateConfig config = None ->
        opt_pattern o = Some ramp_up ->
        stressTest fuel env u o
        = Raised "Ramp-up configuration is required for ramp-up pattern"
            {| results := []; trace := [] |})
  /\ delay config = None
  /\ rampUp config = None
  /\ url config = Some u
  /\ duration config = opt_duration o
  /\ pattern config = Some (default sustained (opt_pattern o))
  /\ (forall c, opt_concurrency o = Some c -> c <> 0 ->
      concurrency config = c)
  /\ (forall n, opt_totalRequests o = Some n -> n <> 0 ->
      totalRequests config = n)
  /\ (forall t, opt_timeout o = Some t -> t <> 0 ->
      timeout config = Some t).
Proof.
  intros config.
  assert (Hvalid : validateConfig config = None
          <-> u <> ""
              /\ (forall c, opt_concurrency o = Some c -> 0 <= c)
              /\ (forall n, opt_totalRequests o = Some n -> 0 <= n)
              /\ (forall t, opt_timeout o = Some t -> 0 <= t)).
  { assert (Hto : timeout config <> Some 0).
    { simpl. intros [= H].
      assert (0 < or_default 30000 (opt_timeout o)); [| lia].
      destruct (or_default_cases 30000 (opt_timeout o))
        as [[_ Hd] | (x & _ & Hne & Hd)]; lia. }
    rewrite (validateConfig_checked config Hto).
    unfold config, stressTest_config.
    cbn [url concurrency totalRequests timeout].
    rewrite truthy_str_Some.
    rewrite (or_default_pos 10) by lia.
    rewrite (or_default_pos 100) by lia.
    split.
    - intros (Hu & Hc & Hn & Ht). repeat split; try done.
      apply (or_default_pos 30000); [lia |]. by apply Ht.
    - intros (Hu & Hc & Hn & Ht). repeat split; try done.
      intros t [= <-]. apply (or_default_pos 30000); [lia | done]. }
  split; [exact Hvalid |].
  split.
  { intros H. simpl.
    destruct (or_default_cases 10 (opt_concurrency o))
      as [[_ Hd] | (x & Hx & Hne & _)]; [done |].
    destruct H as [H | H]; congruence. }
  split.
  { intros H. simpl.
    destruct (or_default_cases 100 (opt_totalRequests o))
      as [[_ Hd] | (x & Hx & Hne & _)]; [done |].
    destruct H as [H | H]; congruence. }
  split.
  { intros H. simpl. f_equal.
    destruct (or_default_cases 30000 (opt_timeout o))
      as [[_ Hd] | (x & Hx & Hne & _)]; [done |].
    destruct H as [H | H]; congruence. }
  split.
  { intros fuel env Hv Hp.
    unfold stressTest, construct_and_run, new_StressTester.
    fold config. rewrite Hv. unfold run.
    destruct (executePattern_done fuel env config) as [st Hst].
    { simpl. destruct (opt_pattern o) as [[] |]; simpl; congruence. }
    rewrite Hst. eexists _, _. split; [done |].
    cbn [finalizeTest requests].
    exact (executePattern_results env config fuel st Hv Hst). }
  split.
  { intros fuel env Hv Hp.
    unfold stressTest, construct_and_run, new_StressTester.
    fold config. rewrite Hv. unfold run, executePattern.
    simpl. rewrite Hp. done. }
  do 5 (split; [done |]).
  unfold config, stressTest_config. cbn [concurrency totalRequests timeout].
  split; [| split].
  - intros c Hc Hne.
    destruct (or_default_cases 10 (opt_concurrency o))
      as [[[H | H] _] | (x & Hx & _ & ->)]; congruence.
  - intros n Hn Hne.
    destruct (or_default_cases 100 (opt_totalRequests o))
      as [[[H | H] _] | (x & Hx & _ & ->)]; congruence.
  - intros t Ht Hne. f_equal.
    destruct (or_default_cases 30000 (opt_timeout o))
      as [[[H | H] _] | (x & Hx & _ & ->)]; congruence.
Qed.

(** ** The utilities *)

Lemma createConfig_complete (c : StressTestConfig) :
  truthy_str (url c) = true ->
  createConfig (to_partial c) no_overrides
  = inr {| url := url c;
           concurrency := concurrency c;
           totalRequests := totalRequests c;
           duration := duration c;
           delay := delay c;
           timeout := Some (default 30000 (timeout c));
           pattern := Some (default sustained (pattern c));
           rampUp := rampUp c |}.
Proof.
  intros Hu. unfold createConfig, to_partial, no_overrides. simpl.
  by rewrite Hu.
Qed.


Lemma utils_validateConfig_nil (parses : string -> bool)
  (p : PartialConfig) :
  utils_validateConfig parses p = [] ->
  truthy_str (p_url p) = true
  /\ parses (default "" (p_url p)) = true
  /\ (forall c, p_concurrency p = Some c -> 0 < c)
  /\ (forall n, p_totalRequests p = Some n -> 0 < n)
  /\ (forall t, p_timeout p = Some t -> 0 < t)
  /\ (forall d, p_delay p = Some d -> 0 <= d).
Proof.
  unfold utils_validateConfig. intros H.
  apply app_eq_nil in H as [Hu H].
  apply app_eq_nil in H as [Hc H].
  apply app_eq_nil in H as [Hn H].
  apply app_eq_nil in H as [Ht Hd].
  destruct (truthy_str (p_url p)); simpl in Hu; [| done].
  destruct (parses (default "" (p_url p))); [| done].
  repeat split; try done.
  - intros c Hx. rewrite Hx in Hc.
    by destruct (Z.leb_spec c 0).
  - intros n Hx. rewrite Hx in Hn.
    by destruct (Z.leb_spec n 0).
  - intros t Hx. rewrite Hx in Ht.
    by destruct (Z.leb_spec t 0).
  - intros d Hx. rewrite Hx in Hd.
    by destruct (Z.ltb_spec d 0).
Qed.

(** X16.  [StressTestUtils.validateConfig] asks for more than the tester
    does.  A partial configuration for which it returns no message is
    completed by [createConfig] into a configuration the tester accepts,
    with the same url, a url that parses, and no negative delay; and for
    a complete configuration, the message the tester raises is among the
    messages of the utility, while the utility also reports a timeout of
    0, which the tester lets through. *)
Theorem X16_utils_validateConfig (parses : string -> bool) :
  (forall p,
     utils_validateConfig parses p = [] ->
     exists c,
       createConfig p no_overrides = inr c
       /\ validateConfig c = None
       /\ url c = p_url p
       /\ parses (default "" (url c)) = true
       /\ (forall d, delay c = Some d -> 0 <= d))
  /\ (forall c msg,
        validateConfig c = Some msg ->
        msg ∈ utils_validateConfig parses (to_partial c))
  /\ (forall c,
        timeout c = Some 0 ->
        "Timeout must be greater than 0"
          ∈ utils_validateConfig parses (to_partial c)
        /\ validateConfig c <> Some "Timeout must be greater than 0").
Proof.
  split; [| split].
  - intros p Hnil.
    apply utils_validateConfig_nil in Hnil
      as (Hu & Hparse & Hc & Hn & Ht & Hd).
    unfold createConfig, no_overrides. simpl. rewrite Hu. simpl.
    eexists. split; [done |]. simpl.
    split.
    { unfold validateConfig. simpl. rewrite Hu. simpl.
      destruct (p_concurrency p) as [c |] eqn:Ec; simpl.
      - specialize (Hc c eq_refl).
        destruct (Z.leb_spec c 0); [lia |].
        destruct (p_totalRequests p) as [n |] eqn:En; simpl.
        + specialize (Hn n eq_refl). destruct (Z.leb_spec n 0); [lia |].
          destruct (p_timeout p) as [t |] eqn:Et; simpl; [| done].
          specialize (Ht t eq_refl).
          destruct (Z.eqb_spec t 0); [done |]. simpl.
          by destruct (Z.leb_spec t 0); [lia |].
        + destruct (p_timeout p) as [t |] eqn:Et; simpl; [| done].
          specialize (Ht t eq_refl).
          destruct (Z.eqb_spec t 0); [done |]. simpl.
          by destruct (Z.leb_spec t 0); [lia |].
      - destruct (p_totalRequests p) as [n |] eqn:En; simpl.
        + specialize (Hn n eq_refl). destruct (Z.leb_spec n 0); [lia |].
          destruct (p_timeout p) as [t |] eqn:Et; simpl; [| done].
          specialize (Ht t eq_refl).
          destruct (Z.eqb_spec t 0); [done |]. simpl.
          by destruct (Z.leb_spec t 0); [lia |].
        + destruct (p_timeout p) as [t |] eqn:Et; simpl; [| done].
          specialize (Ht t eq_refl).
          destruct (Z.eqb_spec t 0); [done |]. simpl.
          by destruct (Z.leb_spec t 0); [lia |]. }
    split; [done |]. split; [done |]. exact Hd.
  - intros c msg. unfold validateConfig, utils_validateConfig, to_partial.
    simpl.
    destruct (truthy_str (url c)); simpl.
    + destruct (concurrency c <=? 0); simpl.
      { intros [= <-]. apply elem_of_app. right. apply elem_of_cons. by left. }
      destruct (totalRequests c <=? 0); simpl.
      { intros [= <-]. apply elem_of_app. right. apply elem_of_cons. by left. }
      destruct (timeout c) as [t |]; simpl; [| done].
      destruct (negb (t =? 0)); simpl; [| done].
      destruct (t <=? 0); [| done].
      intros [= <-]. apply elem_of_app. right. apply elem_of_cons. by left.
    + intros [= <-]. apply elem_of_cons. by left.
  - intros c Ht. split.
    + unfold utils_validateConfig, to_partial. simpl. rewrite Ht. simpl.
      rewrite !elem_of_app. right. right. right.
      apply elem_of_cons. by left.
    + unfold validateConfig. rewrite Ht. simpl.
      destruct (truthy_str (url c)); simpl; [| done].
      destruct (concurrency c <=? 0); [done |].
      by destruct (totalRequests c <=? 0).
Qed.

(** ** The presets and the sequence of tests *)

Lemma construct_and_run_returns env config :
  validateConfig config = None ->
  schedulable config ->
  exists res tr,
    (forall fuel,
       (Z.to_nat (totalRequests config) < fuel)%nat ->
       construct_and_run fuel env config = Returned res tr)
    /\ res_config res = config
    /\ requests res = result_of env <$> seqZ 0 (totalRequests config).
Proof.
  intros Hvalid Hsched.
  destruct (executePattern_returns env config Hvalid Hsched) as [st Hst].
  exists (finalizeTest env config st), (trace st).
  split; [| split; [done |]].
  - intros fuel Hfuel.
    unfold construct_and_run, new_StressTester. rewrite Hvalid.
    unfold run. by rewrite (Hst fuel Hfuel).
  - simpl. eapply (executePattern_results env config _ st Hvalid).
    apply (Hst (S (Z.to_nat (totalRequests config)))). lia.
Qed.

(** X17.  Each of the twelve presets, and so each of the eight that the
    [preset] command offers by name, given a url that is not empty, is a
    configuration the tester accepts and the utility validation has no
    message for (when the url parses); its timeout is positive; a preset
    with pattern ramp-up brings a ramp-up block that is valid and has a
    positive step; and its run returns, with the results of the indices
    0, ..., totalRequests - 1. *)
Theorem X17_presets_run (parses : string -> bool) (name : string)
  (preset : string -> StressTestConfig) (u : string) (env : Env) :
  (name, preset) ∈ AttackPresets.all ++ getPresetMap ->
  u <> "" ->
  validateConfig (preset u) = None
  /\ (parses u = true ->
      utils_validateConfig parses (to_partial (preset u)) = [])
  /\ 0 < axios_timeout (preset u)
  /\ (pattern (preset u) = Some ramp_up ->
      exists r, rampUp (preset u) = Some r
                /\ validateRampUpConfig r = None
                /\ 0 < default 1 (step r))
  /\ exists res tr,
       (forall fuel,
          (Z.to_nat (totalRequests (preset u)) < fuel)%nat ->
          construct_and_run fuel env (preset u) = Returned res tr)
       /\ res_config res = preset u
       /\ requests res
          = result_of env <$> seqZ 0 (totalRequests (preset u)).
Proof.
  intros Hin Hu.
  assert (Htr : truthy_str (Some u) = true) by by apply truthy_str_Some.
  simpl in Htr.
  unfold AttackPresets.all, getPresetMap in Hin. cbn [app] in Hin.
  assert (Hvalid : validateConfig (preset u) = None).
  { repeat (apply elem_of_cons in Hin as [[= -> ->] | Hin];
            [unfold validateConfig; simpl; by rewrite Htr |]).
    by apply elem_of_nil in Hin. }
  assert (Hblock : pattern (preset u) = Some ramp_up ->
                   exists r, rampUp (preset u) = Some r
                             /\ validateRampUpConfig r = None
                             /\ 0 < default 1 (step r)).
  { repeat (apply elem_of_cons in Hin as [[= -> ->] | Hin];
            [first [ by intros [=]
                   | intros _; eexists; split; [done |];
                     split; [done | simpl; lia] ] |]).
    by apply elem_of_nil in Hin. }
  assert (Hsched : schedulable (preset u)).
  { intros Hp. apply pattern_ramp_up in Hp.
    destruct (Hblock Hp) as (r & Hr & Hrv & Hstep).
    exists r. split; [done |]. split; [done | lia]. }
  split; [exact Hvalid |].
  split.
  { intros Hparse.
    repeat (apply elem_of_cons in Hin as [[= -> ->] | Hin];
            [unfold utils_validateConfig; simpl; by rewrite Htr, Hparse |]).
    by apply elem_of_nil in Hin. }
  split.
  { repeat (apply elem_of_cons in Hin as [[= -> ->] | Hin]; [done |]).
    by apply elem_of_nil in Hin. }
  split; [exact Hblock |].
  by apply construct_and_run_returns.
Qed.

Lemma X17_presets_run_witness :
  validateConfig (AttackPresets.waveAttack "http://localhost:3000") = None
  /\ exists res tr,
       (forall fuel,
          (Z.to_nat (totalRequests
                       (AttackPresets.waveAttack "http://localhost:3000"))
           < fuel)%nat ->
          construct_and_run fuel example_env
            (AttackPresets.waveAttack "http://localhost:3000")
          = Returned res tr)
       /\ res_config res = AttackPresets.waveAttack "http://localhost:3000"
       /\ requests res
          = result_of example_env
              <$> seqZ 0 (totalRequests
                            (AttackPresets.waveAttack
                               "http://localhost:3000")).
Proof.
  destruct (X17_presets_run (fun _ => true) "waveAttack"
              AttackPresets.waveAttack "http://localhost:3000" example_env)
    as (Hv & _ & _ & _ & Hrun).
  - unfold AttackPresets.all, getPresetMap. cbn [app].
    do 6 (apply elem_of_cons; right).
    apply elem_of_cons. by left.
  - done.
  - split; [exact Hv | exact Hrun].
Defined.

(** A test can be run when the tester accepts its configuration, its
    schedule comes to an end, and the fuel covers its requests. *)
Lemma runSequentialTests_from_all fuel envs d configs rs waits :
  Forall (fun c => validateConfig c = None /\ schedulable c
                   /\ (Z.to_nat (totalRequests c) < fuel)%nat) configs ->
  exists rs',
    runSequentialTests_from fuel envs d configs rs waits
    = AllReturned (rs ++ rs')
        (waits ++ (if truthy_num d
                   then replicate (length configs - 1) (or_zero d)
                   else []))
    /\ res_config <$> rs' = configs
    /\ forall k r,
         rs' !! k = Some r ->
         requests r
         = result_of (envs (length rs + k)%nat)
             <$> seqZ 0 (totalRequests (res_config r)).
Proof.
  intros Hall. revert rs waits.
  induction Hall as [| c configs (Hv & Hs & Hf) _ IH]; intros rs waits.
  - exists []. simpl.
    split; [destruct (truthy_num d); simpl; by rewrite !app_nil_r |].
    split; [done |].
    intros k r Hk. by rewrite lookup_nil in Hk.
  - simpl.
    destruct (construct_and_run_returns (envs (length rs)) c Hv Hs)
      as (res & tr & Hrun & Hcfg & Hreq).
    rewrite (Hrun fuel Hf).
    destruct (IH (rs ++ [res])
                 (if truthy_num d && negb (bool_decide (configs = []))
                  then waits ++ [or_zero d] else waits))
      as (rs' & Hout & Hcfgs & Hreqs).
    exists (res :: rs'). rewrite Hout. split; [| split].
    + f_equal; [by rewrite <- app_assoc |].
      destruct (truthy_num d); simpl; [| by rewrite !app_nil_r].
      destruct configs as [| c' configs']; simpl.
      * by rewrite !app_nil_r.
      * rewrite Nat.sub_0_r. by rewrite <- app_assoc.
    + rewrite fmap_cons. by rewrite Hcfg, Hcfgs.
    + intros [| k] r Hk; simpl in Hk.
      * injection Hk as <-. rewrite Nat.add_0_r, Hcfg. exact Hreq.
      * rewrite (Hreqs k r Hk). rewrite length_app. simpl length.
        by replace (length rs + 1 + k)%nat with (length rs + S k)%nat
          by lia.
Qed.

Lemma runSequentialTests_from_stops fuel envs d good bad rest rs waits msg st :
  Forall (fun c => validateConfig c = None /\ schedulable c
                   /\ (Z.to_nat (totalRequests c) < fuel)%nat) good ->
  construct_and_run fuel (envs (length rs + length good)%nat) bad
  = Raised msg st ->
  exists rs',
    runSequentialTests_from fuel envs d (good ++ bad :: rest) rs waits
    = SequenceRaised msg (rs ++ rs')
    /\ length rs' = length good.
Proof.
  intros Hall. revert rs waits.
  induction Hall as [| c configs (Hv & Hs & Hf) _ IH]; intros rs waits Hbad.
  - exists []. simpl in *. rewrite Nat.add_0_r in Hbad.
    by rewrite Hbad, app_nil_r.
  - simpl.
    destruct (construct_and_run_returns (envs (length rs)) c Hv Hs)
      as (res & tr & Hrun & _).
    rewrite (Hrun fuel Hf).
    edestruct (IH (rs ++ [res])) as (rs' & Hout & Hlen).
    { rewrite length_app. simpl.
      replace (length rs + 1 + length configs)%nat
        with (length rs + S (length configs))%nat by lia.
      exact Hbad. }
    exists (res :: rs'). rewrite Hout. split.
    + by rewrite <- app_assoc.
    + simpl. by rewrite Hlen.
Qed.

(** X18.  [runSequentialTests] runs the configurations one after the
    other.  When every configuration can be run, it returns one result per
    configuration, in the order given, each with the results of the indices
    0, ..., totalRequests - 1 of its own test; with a delay that is neither
    absent nor 0 it pauses once between two tests, so one time fewer than
    there are tests, and never after the last.  When a configuration
    cannot be run, the call raises the error of the first such
    configuration, after it has run all the tests before it; the tests
    after it are not run, and the caller gets no result at all. *)
Theorem X18_runSequentialTests (fuel : nat) (envs : nat -> Env)
  (d : option Z) (good : list StressTestConfig) :
  Forall (fun c => validateConfig c = None /\ schedulable c
                   /\ (Z.to_nat (totalRequests c) < fuel)%nat) good ->
  (exists rs,
     runSequentialTests fuel envs d good
     = AllReturned rs
         (if truthy_num d then replicate (length good - 1) (or_zero d)
          else [])
     /\ res_config <$> rs = good
     /\ forall k r,
          rs !! k = Some r ->
          requests r
          = result_of (envs k) <$> seqZ 0 (totalRequests (res_config r)))
  /\ (forall bad rest msg st,
        construct_and_run fuel (envs (length good)) bad = Raised msg st ->
        exists rs,
          runSequentialTests fuel envs d (good ++ bad :: rest)
          = SequenceRaised msg rs
          /\ length rs = length good).
Proof.
  intros Hall. split.
  - destruct (runSequentialTests_from_all fuel envs d good [] [] Hall)
      as (rs & Hout & Hcfg & Hreq).
    exists rs. split; [exact Hout |]. split; [exact Hcfg | exact Hreq].
  - intros bad rest msg st Hbad.
    destruct (runSequentialTests_from_stops fuel envs d good bad rest [] []
                msg st Hall Hbad) as (rs & Hout & Hlen).
    exists rs. split; [exact Hout | exact Hlen].
Qed.

Lemma X18_runSequentialTests_witness :
  exists rs,
    runSequentialTests 3001 (fun _ => example_env) (Some 500)
      [AttackPresets.lightLoad "http://localhost:3000";
       AttackPresets.waveAttack "http://localhost:3000"]
    = AllReturned rs [500]
    /\ res_config <$> rs
       = [AttackPresets.lightLoad "http://localhost:3000";
          AttackPresets.waveAttack "http://localhost:3000"].
Proof.
  destruct (X18_runSequentialTests 3001 (fun _ => example_env) (Some 500)
              [AttackPresets.lightLoad "http://localhost:3000";
               AttackPresets.waveAttack "http://localhost:3000"])
    as [(rs & Hout & Hcfg & _) _].
  - repeat (apply Forall_cons; split; [split; [done | split] |]);
      [by intros [=] | | by intros [=] | | apply Forall_nil];
      unfold AttackPresets.lightLoad, AttackPresets.waveAttack;
      cbn [totalRequests]; lia.
  - exists rs. split; [exact Hout | exact Hcfg].
Defined.

(** ** The command line *)

Lemma bind_throw_inr {A B} (x : string + A) (f : A -> string + B) (b : B) :
  bind_throw x f = inr b -> exists a, x = inr a /\ f a = inr b.
Proof. destruct x as [msg | a]; [done |]. intros H. by exists a. Qed.

Lemma parsePositiveInteger_inr (h : Host) (value fieldName : string) (n : Z) :
  parsePositiveInteger h value fieldName = inr n ->
  parseInt10 h value = Some n /\ 0 < n.
Proof.
  unfold parsePositiveInteger.
  destruct (parseInt10 h value) as [x |]; [| done].
  destruct (Z.leb_spec x 0); [done |]. by intros [= <-].
Qed.

Lemma validateAttackPattern_inr (s : string) (p : AttackPattern) :
  validateAttackPattern s = inr p ->
  (p = ramp_up <-> s = "ramp-up").
Proof.
  unfold validateAttackPattern.
  destruct (String.eqb_spec s "burst") as [-> |];
    [by intros [= <-] |].
  destruct (String.eqb_spec s "sustained") as [-> |];
    [by intros [= <-] |].
  destruct (String.eqb_spec s "ramp-up") as [-> |];
    [by intros [= <-] |].
  destruct (String.eqb_spec s "wave") as [-> |];
    [by intros [= <-] |].
  destruct (String.eqb_spec s "spike") as [-> |];
    [by intros [= <-] |].
  done.
Qed.

(** X19.  A configuration that [buildConfigFromOptions] builds from the
    options of the [test] command has a positive concurrency, request
    total and timeout, a delay only when it is positive, a duration that is
    a positive number of whole seconds, and never a ramp-up block.  So the
    tester accepts it exactly when the url is not empty; with a url, a
    pattern other than ramp-up gives a run that returns the results of the
    indices 0, ..., totalRequests - 1, and the pattern ramp-up always
    raises, before any dispatch, for want of the ramp-up block. *)
Theorem X19_buildConfigFromOptions (h : Host) (o : CliOptions)
  (config : StressTestConfig) :
  buildConfigFromOptions h o = inr config ->
  0 < concurrency config
  /\ 0 < totalRequests config
  /\ (exists t, timeout config = Some t /\ 0 < t /\ axios_timeout config = t)
  /\ (forall d, delay config = Some d -> 0 < d)
  /\ (forall d, duration config = Some d -> exists s, 0 < s /\ d = s * 1000)
  /\ rampUp config = None
  /\ (validateConfig config = None <-> cli_url o <> "")
  /\ (forall fuel env,
        cli_url o <> "" ->
        (cli_pattern o = "ramp-up" ->
         construct_and_run fuel env config
         = Raised "Ramp-up configuration is required for ramp-up pattern"
             {| results := []; trace := [] |})
        /\ (cli_pattern o <> "ramp-up" ->
            exists res tr,
              construct_and_run fuel env config = Returned res tr
              /\ requests res
                 = result_of env <$> seqZ 0 (totalRequests config))).
Proof.
  unfold buildConfigFromOptions. intros H.
  apply bind_throw_inr in H as (m & _ & H).
  apply bind_throw_inr in H as (c & Hc & H).
  apply bind_throw_inr in H as (n & Hn & H).
  apply bind_throw_inr in H as (p & Hp & H).
  apply bind_throw_inr in H as (t & Ht & H).
  apply bind_throw_inr in H as (hs & _ & H).
  apply bind_throw_inr in H as (d & Hd & H).
  apply bind_throw_inr in H as ([] & _ & H).
  injection H as <-.
  apply parsePositiveInteger_inr in Hc as [_ Hc].
  apply parsePositiveInteger_inr in Hn as [_ Hn].
  apply parsePositiveInteger_inr in Ht as [_ Ht].
  apply validateAttackPattern_inr in Hp.
  cbn [concurrency totalRequests timeout delay duration rampUp].
  assert (Hvalid : validateConfig
                     {| url := Some (cli_url o); concurrency := c;
                        totalRequests := n; duration := d;
                        delay :=
                          if truthy_str (cli_delay o)
                          then match parseInt h (default "" (cli_delay o)) with
                               | Some x => if 0 <? x then Some x else None
                               | None => None
                               end
                          else None;
                        timeout := Some t; pattern := Some p;
                        rampUp := None |} = None
                   <-> cli_url o <> "").
  { rewrite validateConfig_checked by (cbn [timeout]; intros [= ->]; lia).
    cbn [url concurrency totalRequests timeout].
    rewrite truthy_str_Some. split; [by intros [? _] |].
    intros Hu. repeat split; try done. by intros t' [= <-]. }
  split; [done |]. split; [done |].
  split.
  { exists t. split; [done |]. split; [done |].
    unfold axios_timeout. simpl.
    destruct (Z.eqb_spec t 0); [lia | done]. }
  split.
  { intros x. destruct (truthy_str (cli_delay o)); [| done].
    destruct (parseInt h (default "" (cli_delay o))) as [y |]; [| done].
    destruct (Z.ltb_spec 0 y); [| done]. intros [= <-]. done. }
  split.
  { intros x Hx. subst d.
    destruct (truthy_str (cli_duration o)); [| done].
    apply bind_throw_inr in Hd as (s & Hs & [= <-]).
    apply parsePositiveInteger_inr in Hs as [_ Hs]. by exists s. }
  split; [done |].
  split; [exact Hvalid |].
  intros fuel env Hu. apply Hvalid in Hu.
  unfold construct_and_run, new_StressTester. rewrite Hu. split.
  - intros Hr. apply Hp in Hr as ->. done.
  - intros Hr.
    match goal with
    | |- context [run fuel env ?cfg] =>
        destruct (executePattern_done fuel env cfg) as [st Hst]
    end.
    { simpl. intros ->. by apply Hr, Hp. }
    unfold run. rewrite Hst. eexists _, _. split; [done |].
    cbn [finalizeTest requests].
    exact (executePattern_results env _ fuel st Hu Hst).
Qed.

Lemma X19_buildConfigFromOptions_witness :
  exists config,
    buildConfigFromOptions example_host (example_options "ramp-up")
    = inr config
    /\ validateConfig config = None
    /\ construct_and_run 10 example_env config
       = Raised "Ramp-up configuration is required for ramp-up pattern"
           {| results := []; trace := [] |}.
Proof.
  eexists. split; [reflexivity |].
  match goal with
  | |- validateConfig ?cfg = None /\ _ =>
      destruct (X19_buildConfigFromOptions example_host
                  (example_options "ramp-up") cfg eq_refl)
        as (_ & _ & _ & _ & _ & _ & Hv & Hrun)
  end.
  split.
  - by apply Hv.
  - by apply (Hrun 10%nat example_env).
Defined.

Lemma split_colon_first (k v : string) :
  (forall a b, k <> a +:+ ":" +:+ b) ->
  split_colon (k +:+ ":" +:+ v) = Some (k, v).
Proof.
  induction k as [| c k IH]; intros Hk; [done |].
  simpl. destruct (Ascii.eqb_spec c (Ascii.ascii_of_nat 58)) as [-> | Hc].
  - exfalso. by apply (Hk "" k).
  - rewrite IH; [done |]. intros a b ->. by apply (Hk (String c a) b).
Qed.

Lemma split_colon_Some (s k v : string) :
  split_colon s = Some (k, v) ->
  s = k +:+ ":" +:+ v /\ (forall a b, k <> a +:+ ":" +:+ b).
Proof.
  revert k v. induction s as [| c s IH]; intros k v; [done |].
  simpl. destruct (Ascii.eqb_spec c (Ascii.ascii_of_nat 58)) as [-> | Hc].
  - intros [= <- <-]. split; [done |]. by intros [].
  - destruct (split_colon s) as [[k' v'] |]; [| done].
    intros [= <- <-]. destruct (IH k' v' eq_refl) as [-> Hk'].
    split; [done |]. intros [| a0 a] b; simpl; intros [= ? ?].
    + by apply Hc.
    + by eapply Hk'.
Qed.

Lemma split_colon_None (s : string) :
  split_colon s = None <-> (forall a b, s <> a +:+ ":" +:+ b).
Proof.
  split.
  - intros Hs a b ->.
    induction a as [| c a IH]; simpl in Hs.
    + done.
    + destruct (Ascii.eqb c (Ascii.ascii_of_nat 58)); [done |].
      destruct (split_colon (a +:+ ":" +:+ b)) as [[] |]; [done |].
      by apply IH.
  - intros Hs. destruct (split_colon s) as [[k v] |] eqn:E; [| done].
    apply split_colon_Some in E as [-> _]. by destruct (Hs k v).
Qed.

Lemma parseHeaders_from_snoc (h : Host) (hs : list string) (s : string)
  (m0 m : gmap string string) (key value : string) :
  parseHeaders_from h hs m0 = inr m ->
  header_ok h s key value ->
  parseHeaders_from h (hs ++ [s]) m0 = inr (set_header m key value).
Proof.
  intros Hhs (k & v & Hsplit & -> & -> & Hk & Hv).
  revert m0 Hhs. induction hs as [| s' hs IH]; intros m0 Hhs.
  - cbn [parseHeaders_from app] in *. injection Hhs as <-. rewrite Hsplit.
    apply truthy_str_Some in Hk, Hv. by rewrite Hk, Hv.
  - cbn [parseHeaders_from app] in *.
    change ((s' :: hs) ++ [s]) with (s' :: (hs ++ [s])).
    cbn [parseHeaders_from].
    destruct (split_colon s') as [[k' v'] |]; [| done].
    destruct (negb (truthy_str (Some (trim h k')))
              || negb (truthy_str (Some (trim h v')))); [done |].
    by apply IH.
Qed.

Lemma parseHeaders_from_entries (h : Host) (hs : list string)
  (m0 m : gmap string string) :
  parseHeaders_from h hs m0 = inr m ->
  Forall (fun s => exists key value, header_ok h s key value) hs
  /\ forall key value,
       m !! key = Some value ->
       m0 !! key = Some value
       \/ (key <> "__proto__"
           /\ exists s, s ∈ hs /\ header_ok h s key value).
Proof.
  revert m0. induction hs as [| s hs IH]; intros m0.
  - simpl. intros [= <-]. split; [constructor |]. auto.
  - cbn [parseHeaders_from].
    destruct (split_colon s) as [[k v] |] eqn:Hsplit; [| done].
    destruct (truthy_str (Some (trim h k))) eqn:Hk; cbn [negb orb];
      [| done].
    destruct (truthy_str (Some (trim h v))) eqn:Hv; cbn [negb orb];
      [| done].
    intros Hrest. apply IH in Hrest as [Hall Hm].
    apply truthy_str_Some in Hk, Hv.
    assert (Hok : header_ok h s (trim h k) (trim h v)).
    { by exists k, v. }
    split; [constructor; [by eexists _, _ | done] |].
    intros key value Hlook.
    destruct (Hm key value Hlook) as [H0 | (Hne & s' & Hin & Hs')].
    + unfold set_header in H0.
      destruct (String.eqb_spec (trim h k) "__proto__") as [Hp | Hp];
        [by left |].
      destruct (decide (trim h k = key)) as [<- | Hkey].
      * rewrite lookup_insert_eq in H0. injection H0 as <-.
        right. split; [done |]. exists s. split; [| done].
        apply elem_of_cons. by left.
      * rewrite lookup_insert_ne in H0 by done. by left.
    + right. split; [done |]. exists s'. split; [| done].
      apply elem_of_cons. by right.
Qed.

(** X20.  [parseHeaders] splits each header at its first colon, so a value
    may hold colons, and trims both sides.  When it returns, every header
    had a colon with a key and a value that are not empty, and each entry
    of the result is the trimmed key and value of one of the headers; a
    header that repeats a key replaces the earlier value; and the key
    [__proto__] never becomes an entry.  It raises for a header without a
    colon. *)
Theorem X20_parseHeaders (h : Host) (hs : list string) :
  (forall m,
     parseHeaders h hs = inr m ->
     Forall (fun s => exists key value, header_ok h s key value) hs
     /\ m !! "__proto__" = None
     /\ (forall key value,
           m !! key = Some value ->
           exists s, s ∈ hs /\ header_ok h s key value)
     /\ (forall s key value,
           header_ok h s key value ->
           key <> "__proto__" ->
           parseHeaders h (hs ++ [s]) = inr (<[key := value]> m)))
  /\ (forall k v,
        (forall a b, k <> a +:+ ":" +:+ b) ->
        split_colon (k +:+ ":" +:+ v) = Some (k, v))
  /\ (forall s,
        s ∈ hs ->
        (forall a b, s <> a +:+ ":" +:+ b) ->
        exists msg, parseHeaders h hs = inl msg).
Proof.
  split; [| split].
  - intros m Hm. unfold parseHeaders in *.
    destruct (parseHeaders_from_entries h hs ∅ m Hm) as [Hall Hent].
    split; [exact Hall |].
    split.
    { destruct (m !! "__proto__") as [v |] eqn:Hp; [| done].
      destruct (Hent _ _ Hp) as [H0 | [Hne _]]; [| done].
      by rewrite lookup_empty in H0. }
    split.
    { intros key value Hlook.
      destruct (Hent _ _ Hlook) as [H0 | [_ Hs]]; [| exact Hs].
      by rewrite lookup_empty in H0. }
    intros s key value Hok Hne.
    rewrite (parseHeaders_from_snoc h hs s ∅ m key value Hm Hok).
    unfold set_header.
    by destruct (String.eqb_spec key "__proto__").
  - apply split_colon_first.
  - intros s Hin Hs. unfold parseHeaders.
    destruct (parseHeaders_from h hs ∅) as [msg | m] eqn:Hm;
      [by exists msg |].
    apply parseHeaders_from_entries in Hm as [Hall _].
    rewrite Forall_forall in Hall.
    destruct (Hall s Hin) as (key & value & k & v & Hsplit & _).
    apply split_colon_None in Hs. congruence.
Qed.

(** X21.  For a run with results, [handleTestCompletion] ends the process
    with code 1 exactly when fewer than half of the results are successful,
    that is, have a status code that is not 0 and below 400; with half of
    them or more it lets the process end by itself. *)
Theorem X21_exit_code (env : Env) (config : StressTestConfig)
  (st : RunState) :
  results st <> [] ->
  let successes := count_where is_successful (results st) in
  let total := Z.of_nat (length (results st)) in
  (handleTestCompletion (finalizeTest env config st) = Some 1
   <-> 2 * successes < total)
  /\ (handleTestCompletion (finalizeTest env config st) = None
      <-> total <= 2 * successes).
Proof.
  intros Hne successes total.
  assert (Hlen : 0 < total)
    by (subst total; destruct (results st); [done | simpl; lia]).
  unfold handleTestCompletion, finalizeTest. cbn [stats].
  pose proof (successRate_value (results st) (startTime env) (endTime env)
                Hne) as Hrate.
  fold successes in Hrate. fold total in Hrate.
  clearbody successes total.
  destruct (Qlt_le_dec _ _) as [Hlt | Hge].
  - rewrite Hrate in Hlt.
    assert (2 * successes < total).
    { destruct (Z.lt_ge_cases (2 * successes) total) as [| Hc]; [done |].
      exfalso. apply (Qlt_not_le _ _ Hlt).
      apply (Qdiv_inject_Z_ge (100 * successes) 50 total Hlen). lia. }
    split; split; try done; intros; first [lia | exfalso; lia].
  - rewrite Hrate in Hge.
    apply (Qdiv_inject_Z_ge (100 * successes) 50 total Hlen) in Hge.
    split; split; try done; intros; first [lia | exfalso; lia].
Qed.

Lemma X21_exit_code_witness :
  handleTestCompletion
    (finalizeTest example_env (example_config burst 4 2)
       (executeBurstPattern example_env (example_config burst 4 2)
          initializeTest))
  = None.
Proof.
  apply (X21_exit_code example_env (example_config burst 4 2)
           (executeBurstPattern example_env (example_config burst 4 2)
              initializeTest)).
  - vm_compute. discriminate.
  - vm_compute. discriminate.
Defined.

(** ** The report *)

Lemma string_app_cons (c : Ascii.ascii) (s t : string) :
  String c s +:+ t = String c (s +:+ t).
Proof. done. Qed.

Lemma string_app_nil_l (s : string) : "" +:+ s = s.
Proof. done. Qed.

Lemma string_app_nil_r (s : string) : s +:+ "" = s.
Proof.
  induction s as [| c s IH]; [done |]. by rewrite string_app_cons, IH.
Qed.

Lemma string_app_assoc (a b c : string) : (a +:+ b) +:+ c = a +:+ (b +:+ c).
Proof.
  induction a as [| x a IH]; [done |]. by rewrite !string_app_cons, IH.
Qed.

(** Reading an escaped cell up to its closing quote gives the cell. *)
Lemma read_cells_escaped (f cur : string) (cells : list string)
  (tail : string) :
  read_cells InCell cur cells (escapeCsvField f +:+ String dquote_char tail)
  = read_cells QuoteSeen (cur +:+ f) cells tail.
Proof.
  revert cur. induction f as [| c f IH]; intros cur.
  - simpl. by rewrite string_app_nil_r.
  - simpl. destruct (Ascii.eqb_spec c dquote_char) as [-> | Hc].
    + simpl. rewrite IH. by rewrite string_app_assoc.
    + simpl. destruct (Ascii.eqb_spec c dquote_char) as [| _]; [done |].
      rewrite IH. by rewrite string_app_assoc.
Qed.

Lemma read_cells_open (cells : list string) (rest : string) :
  read_cells CellStart "" cells (String dquote_char rest)
  = read_cells InCell "" cells rest.
Proof. done. Qed.

Lemma read_cells_comma (cur : string) (cells : list string) (rest : string) :
  read_cells QuoteSeen cur cells (String (Ascii.ascii_of_nat 44) rest)
  = read_cells CellStart "" (cells ++ [cur]) rest.
Proof. done. Qed.

Lemma csv_line_one (x : string) :
  csv_line [x] = String dquote_char (x +:+ String dquote_char "").
Proof. done. Qed.

Lemma concat_cons_cons (sep a b : string) (l : list string) :
  String.concat sep (a :: b :: l)
  = a +:+ sep +:+ String.concat sep (b :: l).
Proof. done. Qed.

Lemma csv_line_cons (x y : string) (row : list string) :
  csv_line (x :: y :: row)
  = String dquote_char
      (x +:+ String dquote_char
               (String (Ascii.ascii_of_nat 44) (csv_line (y :: row)))).
Proof.
  unfold csv_line. rewrite !fmap_cons, concat_cons_cons.
  match goal with
  | |- context [String.concat ?sep ?l] => generalize (String.concat sep l)
  end.
  intros rest. unfold dquote.
  rewrite !string_app_cons, !string_app_nil_l. f_equal.
  by rewrite string_app_assoc, string_app_cons, string_app_nil_l.
Qed.

Lemma read_cells_line (row cells : list string) :
  row <> [] ->
  read_cells CellStart "" cells (csv_line (escapeCsvField <$> row))
  = Some (cells ++ row).
Proof.
  revert cells. induction row as [| f row IH]; intros cells Hne; [done |].
  destruct row as [| g row].
  - rewrite fmap_cons, fmap_nil, csv_line_one, read_cells_open.
    by rewrite read_cells_escaped.
  - rewrite fmap_cons.
    change (escapeCsvField <$> g :: row)
      with (escapeCsvField g :: (escapeCsvField <$> row)).
    rewrite csv_line_cons, read_cells_open, read_cells_escaped.
    rewrite read_cells_comma.
    change (escapeCsvField g :: (escapeCsvField <$> row))
      with (escapeCsvField <$> g :: row).
    rewrite IH by done. by rewrite <- app_assoc.
Qed.

Lemma escapeCsvField_quote_free (s : string) :
  quote_free s -> escapeCsvField s = s.
Proof.
  induction s as [| c s IH]; [done |]. simpl. intros [Hc Hs].
  destruct (Ascii.eqb_spec c dquote_char); [done |]. by rewrite IH.
Qed.

Lemma quote_free_pretty_N_go (x : N) (s : string) :
  quote_free s -> quote_free (pretty_N_go x s).
Proof.
  revert s. induction (N.lt_wf_0 x) as [x _ IH]; intros s Hs.
  assert (x = 0 \/ 0 < x)%N as [-> | Hx] by lia.
  - by rewrite pretty_N_go_0.
  - rewrite pretty_N_go_step by done. apply IH.
    + by apply N.div_lt.
    + split; [| done]. unfold pretty_N_char. by repeat case_match.
Qed.

Lemma quote_free_pretty_Z (z : Z) : quote_free (pretty z).
Proof.
  assert (Hpos : forall p, quote_free (pretty (N.pos p))).
  { intros p.
    change (quote_free (if decide (N.pos p = 0)%N then "0"
                        else pretty_N_go (N.pos p) "")).
    destruct (decide (N.pos p = 0)%N); [done |].
    by apply quote_free_pretty_N_go. }
  destruct z as [| p | p]; [done | apply Hpos |].
  change (quote_free ("-" +:+ pretty (N.pos p))).
  rewrite string_app_cons, string_app_nil_l. split; [done | apply Hpos].
Qed.

(** X22.  A line of [exportToCsv] reads back as the cells it was made of.
    [escapeCsvField] doubles the double quotes of the error text and the
    line wraps every cell in double quotes, so a reader of quoted cells
    gets the error text back unchanged, whatever it holds (quotes, commas,
    line breaks); the five other cells are numbers and the ISO time, which
    hold no double quote and are their own escaped form.  The row of a
    request has six cells: index, time, status code or nothing, response
    time, size or nothing, error text or nothing. *)
Theorem X22_csv_round_trip (toISOString : Z -> string)
  (req : RequestResult) :
  quote_free (toISOString (timestamp req)) ->
  read_line (csv_line (csv_row toISOString req))
  = Some [ pretty (index req);
           toISOString (timestamp req);
           from_option pretty "" (statusCode req);
           pretty (responseTime req);
           from_option pretty "" (responseSize req);
           if truthy_str (error req) then default "" (error req) else "" ]
  /\ (forall row, row <> [] ->
        read_line (csv_line (escapeCsvField <$> row)) = Some row)
  /\ (forall s, quote_free s -> escapeCsvField s = s).
Proof.
  intros Hiso.
  split; [| split].
  - unfold read_line, csv_row.
    set (e := if truthy_str (error req) then default "" (error req) else "").
    rewrite <- (escapeCsvField_quote_free (pretty (index req)))
      by apply quote_free_pretty_Z.
    rewrite <- (escapeCsvField_quote_free (toISOString (timestamp req)))
      by done.
    rewrite <- (escapeCsvField_quote_free (pretty (responseTime req)))
      by apply quote_free_pretty_Z.
    assert (Hst : match statusCode req with
                  | Some c => pretty c
                  | None => ""
                  end
                  = escapeCsvField (from_option pretty "" (statusCode req))).
    { destruct (statusCode req) as [c |]; simpl; [| done].
      symmetry. apply escapeCsvField_quote_free, quote_free_pretty_Z. }
    assert (Hsz : match responseSize req with
                  | Some n => pretty n
                  | None => ""
                  end
                  = escapeCsvField (from_option pretty "" (responseSize req))).
    { destruct (responseSize req) as [n |]; simpl; [| done].
      symmetry. apply escapeCsvField_quote_free, quote_free_pretty_Z. }
    rewrite Hst, Hsz.
    change [escapeCsvField ?a; escapeCsvField ?b; escapeCsvField ?c;
            escapeCsvField ?d; escapeCsvField ?f; escapeCsvField ?g]
      with (escapeCsvField <$> [a; b; c; d; f; g]).
    rewrite read_cells_line by done. simpl.
    rewrite !(escapeCsvField_quote_free (pretty _))
      by apply quote_free_pretty_Z.
    by rewrite (escapeCsvField_quote_free _ Hiso).
  - intros row Hrow. unfold read_line. by rewrite read_cells_line.
  - apply escapeCsvField_quote_free.
Qed.

Lemma X22_csv_round_trip_witness :
  let req := makeRequest 0 (Rejected example_reset) 3 in
  read_line (csv_line (csv_row (fun _ => "2026-01-01T00:00:00.000Z") req))
  = Some [ pretty (index req);
           "2026-01-01T00:00:00.000Z";
           from_option pretty "" (statusCode req);
           pretty (responseTime req);
           from_option pretty "" (responseSize req);
           if truthy_str (error req) then default "" (error req) else "" ].
Proof.
  intros req.
  apply (X22_csv_round_trip (fun _ => "2026-01-01T00:00:00.000Z") req).
  vm_compute. repeat split; discriminate.
Defined.

(** X23.  [formatDuration] splits a duration of a minute or more into
    whole hours, minutes and seconds: the minutes and the seconds it prints
    are below 60, the hours are printed from one hour on, and the parts add
    up to the duration, less the milliseconds that do not make a second.
    Below a second, the milliseconds are printed as they are. *)
Theorem X23_formatDuration (toFixed1 : Q -> string) (ms : Z) :
  (ms < 1000 -> formatDuration toFixed1 ms = pretty ms +:+ "ms")
  /\ (60000 <= ms < 3600000 ->
      exists m s,
        formatDuration toFixed1 ms = pretty m +:+ "m " +:+ pretty s +:+ "s"
        /\ 1 <= m < 60 /\ 0 <= s < 60
        /\ m * 60000 + s * 1000 <= ms < m * 60000 + s * 1000 + 1000)
  /\ (3600000 <= ms ->
      exists h m s,
        formatDuration toFixed1 ms
        = pretty h +:+ "h " +:+ pretty m +:+ "m " +:+ pretty s +:+ "s"
        /\ 1 <= h /\ 0 <= m < 60 /\ 0 <= s < 60
        /\ h * 3600000 + m * 60000 + s * 1000 <= ms
           < h * 3600000 + m * 60000 + s * 1000 + 1000).
Proof.
  unfold formatDuration. split; [| split].
  - intros H. by destruct (Z.ltb_spec ms 1000); [| lia].
  - intros H.
    destruct (Z.ltb_spec ms 1000); [lia |].
    destruct (Z.ltb_spec ms 60000); [lia |].
    destruct (Z.ltb_spec ms 3600000); [| lia].
    exists (ms / 60000), ((ms mod 60000) / 1000). split; [done |].
    pose proof (Z.div_mod ms 60000 ltac:(lia)).
    pose proof (Z.mod_pos_bound ms 60000 ltac:(lia)).
    pose proof (Z.div_mod (ms mod 60000) 1000 ltac:(lia)).
    pose proof (Z.mod_pos_bound (ms mod 60000) 1000 ltac:(lia)).
    lia.
  - intros H.
    destruct (Z.ltb_spec ms 1000); [lia |].
    destruct (Z.ltb_spec ms 60000); [lia |].
    destruct (Z.ltb_spec ms 3600000); [lia |].
    exists (ms / 3600000), ((ms mod 3600000) / 60000),
           ((ms mod 60000) / 1000).
    split; [done |].
    pose proof (Z.div_mod ms 3600000 ltac:(lia)).
    pose proof (Z.mod_pos_bound ms 3600000 ltac:(lia)).
    pose proof (Z.div_mod (ms mod 3600000) 60000 ltac:(lia)).
    pose proof (Z.mod_pos_bound (ms mod 3600000) 60000 ltac:(lia)).
    pose proof (Z.div_mod ms 60000 ltac:(lia)).
    pose proof (Z.mod_pos_bound ms 60000 ltac:(lia)).
    pose proof (Z.div_mod (ms mod 60000) 1000 ltac:(lia)).
    pose proof (Z.mod_pos_bound (ms mod 60000) 1000 ltac:(lia)).
    pose proof (Z.rem_mul_r ms 60000 60 ltac:(lia) ltac:(lia)) as Hrem.
    change (60000 * 60) with 3600000 in Hrem.
    pose proof (Z.mod_pos_bound (ms / 60000) 60 ltac:(lia)).
    lia.
Qed.
